(** * Mini AI interview screener: evaluation engine and ranking

    A shallow embedding of [app/config.py], [app/services.py] and
    [app/main.py], followed by the properties of the evaluation engine,
    the model-output parser, the heuristic scorer and the batch ranker.

    Modelling conventions.
    - A Python [str] is a [string]: a sequence of characters with code
      points U+0000 to U+00FF.  Character classes ([str.isspace],
      [str.isalnum], [str.lower]) and matching under [re.I] follow the
      interpreter's tables on that range.  The JSON decoder reports an
      escape above U+00FF as a decoding error and has no recursion limit;
      what is stated about the texts it rejects is stated for the texts
      that are [decodable].
    - A Python [int] is a [Z]; a Python [float] is a binary64 value of
      [spec_float].
    - Code that may raise lives in the [Exc] monad; [try_except] is
      [try: ... except Exception: ...].
    - The process environment, the HTTP exchange with the remote service
      and the order in which concurrent evaluations complete are the
      parameters of the model. *)

From Stdlib Require Import ZArith List String Ascii Bool Arith Lia.
From Stdlib Require Import Permutation Sorted SpecFloat.
Import ListNotations.

Local Open Scope string_scope.
Local Open Scope list_scope.

(* ===================================================================== *)
(** * Exceptions *)
(* ===================================================================== *)

(** The exception classes that occur in the modelled code; every one of
    them derives from [Exception]. *)
Inductive exn : Type :=
| ValueError (msg : string)       (* raised by the parser and by int() *)
| JSONDecodeError                 (* json.loads; a ValueError subclass *)
| TypeError                       (* int() of None, a list or a dict *)
| OverflowError                   (* int() of an infinite float *)
| IndexError                      (* list index out of range *)
| KeyError                        (* missing dictionary key *)
| AttributeError                  (* method of a value that has none *)
| RuntimeError (msg : string)     (* missing credential *)
| TransportError (msg : string)   (* httpx: network, timeout, bad status *)
| HTTPException (status_code : Z) (detail : string).

Inductive Exc (A : Type) : Type :=
| Return (a : A)
| Raise (e : exn).
Arguments Return {A} a.
Arguments Raise {A} e.

Definition bind {A B : Type} (m : Exc A) (k : A -> Exc B) : Exc B :=
  match m with
  | Return a => k a
  | Raise e => Raise e
  end.

(** [try: body except Exception: handler] *)
Definition try_except {A : Type} (body : Exc A) (handler : exn -> Exc A) : Exc A :=
  match body with
  | Return a => Return a
  | Raise e => handler e
  end.

Notation "x <- m ;; k" := (bind m (fun x => k))
  (at level 61, m at next level, right associativity).

Definition raises {A : Type} (m : Exc A) : bool :=
  match m with
  | Return _ => false
  | Raise _ => true
  end.

(* ===================================================================== *)
(** * String built-ins *)
(* ===================================================================== *)

Module Py.

Definition code (c : ascii) : nat := nat_of_ascii c.

Definition between (lo hi n : nat) : bool := (lo <=? n)%nat && (n <=? hi)%nat.

(** [str.isspace] on one character; also the class [\s] of [re]. *)
Definition isspace (c : ascii) : bool :=
  let n := code c in
  between 9 13 n || between 28 32 n || (n =? 133)%nat || (n =? 160)%nat.

(** [str.isalnum] on one character. *)
Definition isalnum (c : ascii) : bool :=
  let n := code c in
  between 48 57 n || between 65 90 n || between 97 122 n
  || (n =? 170)%nat || between 178 179 n || (n =? 181)%nat
  || between 185 186 n || between 188 190 n
  || between 192 214 n || between 216 246 n || between 248 255 n.

(** The class [\w] of [re]: alphanumeric or underscore. *)
Definition isword (c : ascii) : bool := isalnum c || (code c =? 95)%nat.

Definition lower_char (c : ascii) : ascii :=
  let n := code c in
  if between 65 90 n || between 192 214 n || between 216 222 n
  then ascii_of_nat (n + 32)
  else c.

(** [s.lower()] *)
Fixpoint lower (s : string) : string :=
  match s with
  | EmptyString => EmptyString
  | String c r => String (lower_char c) (lower r)
  end.

(** [s.lstrip()] *)
Fixpoint lstrip (s : string) : string :=
  match s with
  | EmptyString => EmptyString
  | String c r => if isspace c then lstrip r else s
  end.

(** [s.rstrip()] *)
Fixpoint rstrip (s : string) : string :=
  match s with
  | EmptyString => EmptyString
  | String c r =>
      match rstrip r with
      | EmptyString => if isspace c then EmptyString else String c EmptyString
      | r' => String c r'
      end
  end.

(** [s.strip()] *)
Definition strip (s : string) : string := rstrip (lstrip s).

(** [s.startswith(p)] *)
Fixpoint startswith (s p : string) {struct p} : bool :=
  match p with
  | EmptyString => true
  | String pc pr =>
      match s with
      | EmptyString => false
      | String sc sr => Ascii.eqb sc pc && startswith sr pr
      end
  end.

(** [bool(s)]: a string is truthy when it is not empty. *)
Definition truthy (s : string) : bool :=
  match s with
  | EmptyString => false
  | String _ _ => true
  end.

(** [s.split()]: the maximal runs of non-whitespace characters.  [word]
    is the run being read. *)
Fixpoint split_from (word s : string) : list string :=
  match s with
  | EmptyString => if truthy word then [word] else []
  | String c r =>
      if isspace c
      then (if truthy word then [word] else []) ++ split_from EmptyString r
      else split_from (word ++ String c EmptyString) r
  end.

Definition split (s : string) : list string := split_from EmptyString s.

(** [sep.join(l)] *)
Fixpoint join (sep : string) (l : list string) : string :=
  match l with
  | [] => EmptyString
  | [w] => w
  | w :: ws => w ++ sep ++ join sep ws
  end.

(** [s.split(sep, 1)] for a one-character separator: cut at the first
    occurrence. *)
Fixpoint split_once (sep : ascii) (s : string) : list string :=
  match s with
  | EmptyString => [EmptyString]
  | String c r =>
      if Ascii.eqb c sep then [EmptyString; r]
      else match split_once sep r with
           | h :: t => String c h :: t
           | [] => [String c EmptyString]
           end
  end.

(** [l[i]] *)
Definition index {A : Type} (l : list A) (i : nat) : Exc A :=
  match nth_error l i with
  | Some x => Return x
  | None => Raise IndexError
  end.

(** [s.find(c)] for a one-character needle; [-1] when absent. *)
Fixpoint find_from (c : ascii) (s : string) (i : Z) : Z :=
  match s with
  | EmptyString => (-1)%Z
  | String d r => if Ascii.eqb d c then i else find_from c r (i + 1)%Z
  end.

Definition find (s : string) (c : ascii) : Z := find_from c s 0%Z.

(** [s.rfind(c)]: the last occurrence; [-1] when absent. *)
Fixpoint rfind_from (c : ascii) (s : string) (i : Z) (last : Z) : Z :=
  match s with
  | EmptyString => last
  | String d r => rfind_from c r (i + 1)%Z (if Ascii.eqb d c then i else last)
  end.

Definition rfind (s : string) (c : ascii) : Z := rfind_from c s 0%Z (-1)%Z.

(** [s[a:b]] for [0 <= a]. *)
Definition slice (s : string) (a b : Z) : string :=
  substring (Z.to_nat a) (Z.to_nat (b - a)) s.

End Py.

(* ===================================================================== *)
(** * The two regular expressions of the heuristic scorer *)
(* ===================================================================== *)

Module Re.

Definition isword_opt (o : option ascii) : bool :=
  match o with
  | Some c => Py.isword c
  | None => false
  end.

Definition head (s : string) : option ascii :=
  match s with
  | EmptyString => None
  | String c _ => Some c
  end.

(** [\b] between the characters [prev] and [next]; a missing neighbour
    counts as a non-word character. *)
Definition at_boundary (prev next : option ascii) : bool :=
  xorb (isword_opt prev) (isword_opt next).

(** A pattern character against a text character under [re.I]: on the
    range U+0000 to U+00FF two characters match when [str.lower] gives
    them the same image. *)
Definition ci_eq (p c : ascii) : bool :=
  Ascii.eqb (Py.lower_char p) (Py.lower_char c).

(** The literal [k] followed by [\b], against the text [s] whose
    preceding character is [prev]. *)
Fixpoint match_literal_b (prev : option ascii) (k s : string) : bool :=
  match k with
  | EmptyString => at_boundary prev (head s)
  | String kc kr =>
      match s with
      | EmptyString => false
      | String c r => ci_eq kc c && match_literal_b (Some c) kr r
      end
  end.

(** Scan for a match of [\b k \b] starting at any position of [s]. *)
Fixpoint search_from (prev : option ascii) (k s : string) : bool :=
  (at_boundary prev (head s) && match_literal_b prev k s)
  || match s with
     | EmptyString => false
     | String c r => search_from (Some c) k r
     end.

(** [re.search(r"\b" + re.escape(k) + r"\b", text, flags=re.I)] as a
    truth value. *)
Definition search_word (k text : string) : bool := search_from None k text.

Definition is_terminator (o : option ascii) : bool :=
  match o with
  | Some c => Ascii.eqb c "." || Ascii.eqb c "!" || Ascii.eqb c "?"
  | None => false
  end.

(** [re.split(r'(?<=[.!?])\s+', text, maxsplit=1)[0]]: the text before the
    first whitespace that follows a full stop, exclamation or question
    mark. *)
Fixpoint first_piece_from (prev : option ascii) (s : string) : string :=
  match s with
  | EmptyString => EmptyString
  | String c r =>
      if Py.isspace c && is_terminator prev then EmptyString
      else String c (first_piece_from (Some c) r)
  end.

Definition first_piece (text : string) : string := first_piece_from None text.

End Re.

(* ===================================================================== *)
(** * app/services.py: the fallback heuristic *)
(* ===================================================================== *)

(** The dictionary with keys [score], [summary], [improvement]. *)
Record EvaluationResult : Type := mkResult {
  score : Z;
  summary : string;
  improvement : string
}.

Definition KEY_TERMS : list string :=
  [ "design"; "trade-off"; "complexity"; "edge"; "optimize"; "test";
    "security"; "performance"; "scalability"; "consistency"; "retry";
    "idempotent" ].

(** [sum(1 for k in KEY_TERMS if re.search(...))] *)
Definition keyword_count (text : string) : nat :=
  List.length (List.filter (fun k => Re.search_word k text) KEY_TERMS).

Definition threshold_score (length keywords : nat) : Z :=
  if (80 <=? length)%nat && (2 <=? keywords)%nat then 5
  else if (50 <=? length)%nat && (1 <=? keywords)%nat then 4
  else if (25 <=? length)%nat then 3
  else if (10 <=? length)%nat then 2
  else 1.

Definition fallback_score_and_text (answer : string) : EvaluationResult :=
  let text := Py.strip answer in
  if negb (Py.truthy text) then
    mkResult 1 "No answer provided." "Provide an answer with key ideas."
  else
    let words := Py.split text in
    let length := List.length words in
    let keywords := keyword_count text in
    let score := threshold_score length keywords in
    let first_sentence := Re.first_piece text in
    let s_words := Py.split first_sentence in
    let summary :=
      (Py.join " " (firstn 20 s_words)
       ++ (if (20 <? List.length s_words)%nat then "..." else ""))%string in
    let improvement :=
      if (score <? 4)%Z
      then "Be more specific and mention trade-offs or testing."
      else "Add a concrete example or metrics." in
    mkResult score summary improvement.

(* ===================================================================== *)
(** * The [json] module: values and the decoder *)
(* ===================================================================== *)

Module Json.

(** What [json.loads] can return.  An object is a [dict]: its keys are
    distinct and kept in insertion order.  The decoder below follows the
    scanner of the [json] module; the recursion limit of the interpreter
    is not modelled. *)
#[warning="-register-all"]
Inductive value : Type :=
| Null
| Bool (b : bool)
| Int (n : Z)
| Float (f : spec_float)
| Str (s : string)
| Arr (items : list value)
| Obj (members : list (string * value)).

(** [d[k] = v] *)
Fixpoint dict_set (d : list (string * value)) (k : string) (v : value)
  : list (string * value) :=
  match d with
  | [] => [(k, v)]
  | (k', v') :: rest =>
      if String.eqb k' k then (k', v) :: rest
      else (k', v') :: dict_set rest k v
  end.

(** [dict(pairs)]: a later pair overrides an earlier one with the same key. *)
Definition dict_of_pairs (pairs : list (string * value)) : list (string * value) :=
  fold_left (fun d kv => dict_set d (fst kv) (snd kv)) pairs [].

(** [d.get(k, default)] *)
Fixpoint dict_get (d : list (string * value)) (k : string) (default : value)
  : value :=
  match d with
  | [] => default
  | (k', v) :: rest => if String.eqb k' k then v else dict_get rest k default
  end.

(** ** Numbers *)

Definition is_digit (c : ascii) : bool := Py.between 48 57 (Py.code c).

Definition digit_value (c : ascii) : Z := Z.of_nat (Py.code c - 48).

(** The longest prefix of decimal digits, and what follows it. *)
Fixpoint span_digits (s : string) : string * string :=
  match s with
  | EmptyString => (EmptyString, EmptyString)
  | String c r =>
      if is_digit c
      then let '(ds, rest) := span_digits r in (String c ds, rest)
      else (EmptyString, s)
  end.

Fixpoint digits_value (acc : Z) (ds : string) : Z :=
  match ds with
  | EmptyString => acc
  | String c r => digits_value (10 * acc + digit_value c) r
  end.

Definition prec : Z := 53.
Definition emax : Z := 1024.

(** [float] of the decimal [mant * 10^e10] with sign [neg]: the nearest
    binary64 value, ties to even; out of range gives an infinity. *)
Definition float_of_decimal (neg : bool) (mant e10 : Z) : spec_float :=
  match mant with
  | Zpos m =>
      if (0 <=? e10)%Z
      then match (Zpos m * 10 ^ e10)%Z with
           | Zpos n => binary_round prec emax neg n 0
           | _ => S754_zero neg
           end
      else let '(q, e, loc) :=
             SFdiv_core_binary prec emax (Zpos m) 0 (10 ^ (- e10))%Z 0 in
           binary_round_aux prec emax neg q e loc
  | _ => S754_zero neg
  end.

(** The integer part of a number: [0], or a non-zero digit followed by
    digits. *)
Definition span_integer (s : string) : option (string * string) :=
  match s with
  | String c r =>
      if Ascii.eqb c "0" then Some (String c EmptyString, r)
      else if is_digit c then Some (span_digits s)
      else None
  | EmptyString => None
  end.

(** The fraction: a point followed by at least one digit. *)
Definition span_fraction (s : string) : option (string * string) :=
  match s with
  | String c r =>
      if Ascii.eqb c "." then
        match span_digits r with
        | (String d ds, rest) => Some (String d ds, rest)
        | (EmptyString, _) => None
        end
      else None
  | EmptyString => None
  end.

(** The exponent: [e] or [E], an optional sign, at least one digit. *)
Definition span_exponent (s : string) : option (Z * string) :=
  match s with
  | String c r =>
      if Ascii.eqb c "e" || Ascii.eqb c "E" then
        let '(neg, r1) :=
          match r with
          | String sg r' =>
              if Ascii.eqb sg "-" then (true, r')
              else if Ascii.eqb sg "+" then (false, r')
              else (false, r)
          | EmptyString => (false, r)
          end in
        match span_digits r1 with
        | (String d ds, rest) =>
            let n := digits_value 0 (String d ds) in
            Some (if neg then (- n)%Z else n, rest)
        | (EmptyString, _) => None
        end
      else None
  | EmptyString => None
  end.

(** [sys.get_int_max_str_digits()]: the interpreter converts no decimal
    numeral of more digits to an [int]. *)
Definition max_str_digits : N := 4300.

(** The number pattern of the scanner (an optional minus sign and an
    integer part, then an optional fraction and an optional exponent) and
    the conversion of its match: [int] when there is neither fraction nor
    exponent, [float] otherwise.  An integer of more than
    [max_str_digits] digits is refused: the conversion raises a
    [ValueError], which is reported here as a failed scan. *)
Definition match_number (s : string) : option (value * string) :=
  let '(neg, s1) :=
    match s with
    | String c r => if Ascii.eqb c "-" then (true, r) else (false, s)
    | EmptyString => (false, s)
    end in
  match span_integer s1 with
  | None => None
  | Some (int_ds, s2) =>
      let '(frac, s3) :=
        match span_fraction s2 with
        | Some (ds, rest) => (Some ds, rest)
        | None => (None, s2)
        end in
      let '(exp, s4) :=
        match span_exponent s3 with
        | Some (e, rest) => (Some e, rest)
        | None => (None, s3)
        end in
      match frac, exp with
      | None, None =>
          if (max_str_digits <? N.of_nat (String.length int_ds))%N then None
          else
            let n := digits_value 0 int_ds in
            Some (Int (if neg then (- n)%Z else n), s4)
      | _, _ =>
          let fds := match frac with Some ds => ds | None => EmptyString end in
          let e := match exp with Some e => e | None => 0%Z end in
          let mant := digits_value 0 (int_ds ++ fds) in
          Some (Float (float_of_decimal neg mant
                         (e - Z.of_nat (String.length fds))), s4)
      end
  end.

(** ** Strings *)

Definition dquote : ascii := "034".
Definition backslash : ascii := "\".

Definition hex_value (c : ascii) : option nat :=
  let n := Py.code c in
  if Py.between 48 57 n then Some (n - 48)
  else if Py.between 65 70 n then Some (n - 55)
  else if Py.between 97 102 n then Some (n - 87)
  else None.

Definition hex4 (a b c d : ascii) : option nat :=
  match hex_value a, hex_value b, hex_value c, hex_value d with
  | Some x, Some y, Some z, Some w => Some (((x * 16 + y) * 16 + z) * 16 + w)
  | _, _, _, _ => None
  end.

(** The one-character escapes. *)
Definition unescape (c : ascii) : option ascii :=
  if Ascii.eqb c dquote then Some dquote
  else if Ascii.eqb c backslash then Some backslash
  else if Ascii.eqb c "/" then Some "/"%char
  else if Ascii.eqb c "b" then Some "008"%char
  else if Ascii.eqb c "f" then Some "012"%char
  else if Ascii.eqb c "n" then Some "010"%char
  else if Ascii.eqb c "r" then Some "013"%char
  else if Ascii.eqb c "t" then Some "009"%char
  else None.

(** [scanstring] in strict mode, from just after the opening quote: the
    decoded text and what follows the closing quote.  An escape [\uXXXX]
    above U+00FF has no image in the modelled character range and is
    reported as a decoding error. *)
Fixpoint scanstring (s : string) : option (string * string) :=
  match s with
  | EmptyString => None
  | String c r =>
      if Ascii.eqb c dquote then Some (EmptyString, r)
      else if Ascii.eqb c backslash then
        match r with
        | EmptyString => None
        | String e r1 =>
            if Ascii.eqb e "u" then
              match r1 with
              | String h1 (String h2 (String h3 (String h4 r2))) =>
                  match hex4 h1 h2 h3 h4 with
                  | Some n =>
                      if (n <=? 255)%nat then
                        match scanstring r2 with
                        | Some (t, rest) => Some (String (ascii_of_nat n) t, rest)
                        | None => None
                        end
                      else None
                  | None => None
                  end
              | _ => None
              end
            else
              match unescape e with
              | Some ch =>
                  match scanstring r1 with
                  | Some (t, rest) => Some (String ch t, rest)
                  | None => None
                  end
              | None => None
              end
        end
      else if (Py.code c <? 32)%nat then None
      else
        match scanstring r with
        | Some (t, rest) => Some (String c t, rest)
        | None => None
        end
  end.

(** ** The scanner *)

Definition is_ws (c : ascii) : bool :=
  Ascii.eqb c " " || Ascii.eqb c "009" || Ascii.eqb c "010" || Ascii.eqb c "013".

(** [WHITESPACE.match(s, idx).end()] *)
Fixpoint skip_ws (s : string) : string :=
  match s with
  | EmptyString => EmptyString
  | String c r => if is_ws c then skip_ws r else s
  end.

Definition drop (n : nat) (s : string) : string :=
  substring n (String.length s - n) s.

Inductive scan (A : Type) : Type :=
| Done (a : A) (rest : string)
| Fail
| OutOfFuel.
Arguments Done {A} a rest.
Arguments Fail {A}.
Arguments OutOfFuel {A}.

(** [scan_once] with [JSONObject] and [JSONArray].  [members] reads the
    pairs of an object from just after the opening quote of a key;
    [elements] reads the items of an array from the start of an item.
    Two nested calls consume at least one character, so a fuel above
    twice the length of the text is never used up. *)
Fixpoint scan_once (fuel : nat) (s : string) {struct fuel} : scan value :=
  match fuel with
  | O => OutOfFuel
  | S fuel' =>
      match s with
      | EmptyString => Fail
      | String c r =>
          if Ascii.eqb c dquote then
            match scanstring r with
            | Some (t, rest) => Done (Str t) rest
            | None => Fail
            end
          else if Ascii.eqb c "{" then
            match skip_ws r with
            | String c1 r1 =>
                if Ascii.eqb c1 "}" then Done (Obj []) r1
                else if Ascii.eqb c1 dquote then members fuel' r1 []
                else Fail
            | EmptyString => Fail
            end
          else if Ascii.eqb c "[" then
            match skip_ws r with
            | String c1 r1 =>
                if Ascii.eqb c1 "]" then Done (Arr []) r1
                else elements fuel' (String c1 r1) []
            | EmptyString => Fail
            end
          else if Py.startswith s "null" then Done Null (drop 4 s)
          else if Py.startswith s "true" then Done (Bool true) (drop 4 s)
          else if Py.startswith s "false" then Done (Bool false) (drop 5 s)
          else
            match match_number s with
            | Some (v, rest) => Done v rest
            | None =>
                if Py.startswith s "NaN" then Done (Float S754_nan) (drop 3 s)
                else if Py.startswith s "Infinity"
                then Done (Float (S754_infinity false)) (drop 8 s)
                else if Py.startswith s "-Infinity"
                then Done (Float (S754_infinity true)) (drop 9 s)
                else Fail
            end
      end
  end

with members (fuel : nat) (s : string) (pairs : list (string * value))
  {struct fuel} : scan value :=
  match fuel with
  | O => OutOfFuel
  | S fuel' =>
      match scanstring s with
      | None => Fail
      | Some (key, s1) =>
          match skip_ws s1 with
          | String c s2 =>
              if Ascii.eqb c ":" then
                match scan_once fuel' (skip_ws s2) with
                | Done v s3 =>
                    let pairs' := pairs ++ [(key, v)] in
                    match skip_ws s3 with
                    | String c1 s4 =>
                        if Ascii.eqb c1 "}"
                        then Done (Obj (dict_of_pairs pairs')) s4
                        else if Ascii.eqb c1 "," then
                          match skip_ws s4 with
                          | String c2 s5 =>
                              if Ascii.eqb c2 dquote
                              then members fuel' s5 pairs'
                              else Fail
                          | EmptyString => Fail
                          end
                        else Fail
                    | EmptyString => Fail
                    end
                | Fail => Fail
                | OutOfFuel => OutOfFuel
                end
              else Fail
          | EmptyString => Fail
          end
      end
  end

with elements (fuel : nat) (s : string) (values : list value)
  {struct fuel} : scan value :=
  match fuel with
  | O => OutOfFuel
  | S fuel' =>
      match scan_once fuel' s with
      | Done v s1 =>
          let values' := values ++ [v] in
          match skip_ws s1 with
          | String c s2 =>
              if Ascii.eqb c "]" then Done (Arr values') s2
              else if Ascii.eqb c "," then elements fuel' (skip_ws s2) values'
              else Fail
          | EmptyString => Fail
          end
      | Fail => Fail
      | OutOfFuel => OutOfFuel
      end
  end.

(** [JSONDecoder.decode]: one value between optional whitespace, and
    nothing else. *)
Definition decode (s : string) : scan value :=
  let s0 := skip_ws s in
  match scan_once (2 * String.length s0 + 2) s0 with
  | Done v rest =>
      match skip_ws rest with
      | EmptyString => Done v EmptyString
      | String _ _ => Fail
      end
  | Fail => Fail
  | OutOfFuel => OutOfFuel
  end.

(** [json.loads(s)] *)
Definition loads (s : string) : Exc value :=
  match decode s with
  | Done v _ => Return v
  | _ => Raise JSONDecodeError
  end.

End Json.

(* ===================================================================== *)
(** * The conversions [int] and [str] on decoded values *)
(* ===================================================================== *)

Module Conv.

Import Json.

(** ** [int(v)] *)

(** The whitespace that [int] skips around a numeral. *)
Definition int_space (c : ascii) : bool :=
  let n := Py.code c in
  Py.between 9 13 n || (n =? 32)%nat || (n =? 133)%nat || (n =? 160)%nat.

Fixpoint lskip (s : string) : string :=
  match s with
  | EmptyString => EmptyString
  | String c r => if int_space c then lskip r else s
  end.

Fixpoint rskip (s : string) : string :=
  match s with
  | EmptyString => EmptyString
  | String c r =>
      match rskip r with
      | EmptyString => if int_space c then EmptyString else String c EmptyString
      | r' => String c r'
      end
  end.

Fixpoint contains (c : ascii) (s : string) : bool :=
  match s with
  | EmptyString => false
  | String d r => Ascii.eqb d c || contains c r
  end.

Definition hex_digit (n : nat) : ascii :=
  if (n <? 10)%nat then ascii_of_nat (48 + n) else ascii_of_nat (87 + n).

Definition printable (c : ascii) : bool :=
  let n := Py.code c in
  Py.between 32 126 n || Py.between 161 172 n || Py.between 174 255 n.

Definition repr_char (quote c : ascii) : string :=
  if Ascii.eqb c quote || Ascii.eqb c backslash
  then String backslash (String c EmptyString)
  else if Ascii.eqb c "009" then String backslash "t"
  else if Ascii.eqb c "010" then String backslash "n"
  else if Ascii.eqb c "013" then String backslash "r"
  else if printable c then String c EmptyString
  else String backslash
         (String "x" (String (hex_digit (Py.code c / 16))
                        (String (hex_digit (Py.code c mod 16)) EmptyString))).

Fixpoint repr_chars (quote : ascii) (s : string) : string :=
  match s with
  | EmptyString => EmptyString
  | String c r => (repr_char quote c ++ repr_chars quote r)%string
  end.

(** [repr(s)] for a string. *)
Definition repr_str (s : string) : string :=
  let quote : ascii :=
    if contains "'" s && negb (contains dquote s) then dquote else "'"%char in
  String quote (repr_chars quote s ++ String quote EmptyString)%string.

Definition digit_char (n : Z) : ascii := ascii_of_nat (48 + Z.to_nat n).

Fixpoint decimal_digits (fuel : nat) (n : Z) (acc : string) : string :=
  match fuel with
  | O => acc
  | S fuel' =>
      let acc' := String (digit_char (n mod 10)) acc in
      if (n <? 10)%Z then acc' else decimal_digits fuel' (n / 10) acc'
  end.

(** The decimal numeral of a non-negative integer. *)
Definition decimal (n : Z) : string :=
  decimal_digits (S (Z.to_nat (Z.log2 n))) n EmptyString.

(** Decimal digits, single underscores allowed between two digits. *)
Fixpoint numeral (after_digit : bool) (acc : Z) (s : string) : option Z :=
  match s with
  | EmptyString => if after_digit then Some acc else None
  | String c r =>
      if is_digit c then numeral true (10 * acc + digit_value c) r
      else if Ascii.eqb c "_" && after_digit then numeral false acc r
      else None
  end.

(** The leading run of digits and underscores, and what follows it. *)
Fixpoint span_run (s : string) : string * string :=
  match s with
  | EmptyString => (EmptyString, EmptyString)
  | String c r =>
      if is_digit c || Ascii.eqb c "_"
      then let '(run, rest) := span_run r in (String c run, rest)
      else (EmptyString, s)
  end.

Fixpoint count_digits (s : string) : N :=
  match s with
  | EmptyString => 0%N
  | String c r => ((if is_digit c then 1 else 0) + count_digits r)%N
  end.

(** The message of the error on a text that is no numeral: the [repr] of
    the text, cut at 200 characters. *)
Definition invalid_literal (s : string) : exn :=
  ValueError
    ("invalid literal for int() with base 10: "
     ++ substring 0 200 (repr_str s))%string.

(** The message of the error on a numeral of too many digits. *)
Definition exceeds_limit (digits : N) : exn :=
  ValueError
    ("Exceeds the limit (4300 digits) for integer string conversion: value has "
     ++ decimal (Z.of_N digits)
     ++ " digits; use sys.set_int_max_str_digits() to increase the limit")%string.

(** [int(s)] for a string, base ten: whitespace around, an optional sign,
    then the run of digits and underscores.  A well-formed run of more
    than [max_str_digits] digits is refused before what follows it is
    looked at. *)
Definition int_of_string (s : string) : Exc Z :=
  let body := rskip (lskip s) in
  let '(neg, ds) :=
    match body with
    | String c r =>
        if Ascii.eqb c "-" then (true, r)
        else if Ascii.eqb c "+" then (false, r)
        else (false, body)
    | EmptyString => (false, body)
    end in
  let '(run, rest) := span_run ds in
  match numeral false 0 run with
  | Some n =>
      if (max_str_digits <? count_digits run)%N
      then Raise (exceeds_limit (count_digits run))
      else
        match rest with
        | EmptyString => Return (if neg then (- n)%Z else n)
        | String _ _ => Raise (invalid_literal s)
        end
  | None => Raise (invalid_literal s)
  end.

(** [int(f)] for a float: the integer part, rounding toward zero. *)
Definition int_of_float (f : spec_float) : Exc Z :=
  match f with
  | S754_zero _ => Return 0%Z
  | S754_finite s m e => Return (cond_Zopp s (Z.shiftl (Zpos m) e))
  | S754_infinity _ => Raise OverflowError
  | S754_nan => Raise (ValueError "cannot convert float NaN to integer")
  end.

Definition py_int (v : value) : Exc Z :=
  match v with
  | Int n => Return n
  | Bool b => Return (if b then 1 else 0)%Z
  | Float f => int_of_float f
  | Str s => int_of_string s
  | Null | Arr _ | Obj _ => Raise TypeError
  end.

(** ** [repr] and [str] *)

(** [repr(n)] for an [int]. *)
Definition repr_int (n : Z) : string :=
  if (n <? 0)%Z then String "-" (decimal (- n)) else decimal n.

Fixpoint zeros (n : nat) : string :=
  match n with
  | O => EmptyString
  | S k => String "0" (zeros k)
  end.

Fixpoint strip_zeros_rev (s : string) : string :=
  match s with
  | String c r => if Ascii.eqb c "0" then strip_zeros_rev r else s
  | EmptyString => EmptyString
  end.

Fixpoint reverse (acc s : string) : string :=
  match s with
  | EmptyString => acc
  | String c r => reverse (String c acc) r
  end.

Definition strip_trailing_zeros (s : string) : string :=
  reverse EmptyString (strip_zeros_rev (reverse EmptyString s)).

(** [x < 10^k] for the positive rational [x = num / den]. *)
Definition below_pow10 (num den k : Z) : bool :=
  if (0 <=? k)%Z then (num <? 10 ^ k * den)%Z
  else (num * 10 ^ (- k) <? den)%Z.

Fixpoint raise_exponent (fuel : nat) (num den k : Z) : Z :=
  match fuel with
  | O => k
  | S fuel' =>
      if below_pow10 num den k then k
      else raise_exponent fuel' num den (k + 1)
  end.

Fixpoint lower_exponent (fuel : nat) (num den k : Z) : Z :=
  match fuel with
  | O => k
  | S fuel' =>
      if below_pow10 num den (k - 1) then lower_exponent fuel' num den (k - 1)
      else k
  end.

(** The [k] with [10^(k-1) <= num / den < 10^k]. *)
Definition decimal_point (num den : Z) : Z :=
  let est := ((Z.log2 num - Z.log2 den) * 30103 / 100000)%Z in
  lower_exponent 8 num den (raise_exponent 8 num den est).

(** The shortest decimal, of at most [17] digits, that [float] reads back
    as the positive float [m * 2^e]; among the shortest, the nearest one.
    Returns its integer and the power of ten that scales it. *)
Fixpoint shortest_digits (fuel : nat) (n : Z) (m : positive) (e : Z)
  (num den k : Z) : Z * Z :=
  let p := (k - n)%Z in
  let '(snum, sden) :=
    if (0 <=? p)%Z then (num, den * 10 ^ p)%Z else (num * 10 ^ (- p), den)%Z in
  let lo := (snum / sden)%Z in
  let r := (snum mod sden)%Z in
  let hi := (lo + 1)%Z in
  let reads d :=
    match float_of_decimal false d p with
    | S754_finite false m' e' => Pos.eqb m' m && Z.eqb e' e
    | _ => false
    end in
  let lo_ok := reads lo in
  let hi_ok := reads hi in
  let pick :=
    if lo_ok && hi_ok then
      match (2 * r ?= sden)%Z with
      | Lt => Some lo
      | Gt => Some hi
      | Eq => Some (if Z.even lo then lo else hi)
      end
    else if lo_ok then Some lo
    else if hi_ok then Some hi
    else None in
  match pick, fuel with
  | Some d, _ => (d, p)
  | None, O => (lo, p)
  | None, S fuel' => shortest_digits fuel' (n + 1) m e num den k
  end.

(** [repr(f)] for a float. *)
Definition repr_float (f : spec_float) : string :=
  match f with
  | S754_nan => "nan"
  | S754_infinity s => if s then "-inf" else "inf"
  | S754_zero s => if s then "-0.0" else "0.0"
  | S754_finite s m e =>
      let '(num, den) :=
        if (0 <=? e)%Z then (Z.shiftl (Zpos m) e, 1%Z)
        else (Zpos m, Z.shiftl 1 (- e)) in
      let k := decimal_point num den in
      let '(d, p) := shortest_digits 17 1 m e num den k in
      let all := decimal d in
      let decpt := (Z.of_nat (String.length all) + p)%Z in
      let ds := strip_trailing_zeros all in
      let n := Z.of_nat (String.length ds) in
      let body :=
        if ((-4 <? decpt) && (decpt <=? 16))%Z then
          if (decpt <=? 0)%Z then "0." ++ zeros (Z.to_nat (- decpt)) ++ ds
          else if (n <=? decpt)%Z then ds ++ zeros (Z.to_nat (decpt - n)) ++ ".0"
          else substring 0 (Z.to_nat decpt) ds ++ "."
               ++ substring (Z.to_nat decpt) (Z.to_nat (n - decpt)) ds
        else
          let x := (decpt - 1)%Z in
          let xs := decimal (Z.abs x) in
          substring 0 1 ds
          ++ (if (1 <? n)%Z then "." ++ substring 1 (Z.to_nat (n - 1)) ds else "")
          ++ "e" ++ (if (x <? 0)%Z then "-" else "+")
          ++ (if (String.length xs <? 2)%nat then "0" else "") ++ xs in
      if s then String "-" body else body
  end%string.

(** [repr(v)] *)
Fixpoint repr (v : value) : string :=
  match v with
  | Null => "None"
  | Bool b => if b then "True" else "False"
  | Int n => repr_int n
  | Float f => repr_float f
  | Str s => repr_str s
  | Arr items =>
      ("[" ++ Py.join ", " (List.map repr items) ++ "]")%string
  | Obj members =>
      ("{" ++ Py.join ", "
                (List.map (fun kv => repr_str (fst kv) ++ ": " ++ repr (snd kv))
                   members)
           ++ "}")%string
  end.

(** [str(v)]: a string is itself, anything else prints as its [repr]. *)
Definition py_str (v : value) : string :=
  match v with
  | Str s => s
  | _ => repr v
  end.

End Conv.

(* ===================================================================== *)
(** * Dynamic operations on decoded values, and [json.dumps] *)
(* ===================================================================== *)

Module Dyn.

Import Json.

(** [bool(v)] *)
Definition truthy (v : value) : bool :=
  match v with
  | Null => false
  | Bool b => b
  | Int n => negb (n =? 0)%Z
  | Float (S754_zero _) => false
  | Float _ => true
  | Str s => Py.truthy s
  | Arr items => match items with [] => false | _ :: _ => true end
  | Obj members => match members with [] => false | _ :: _ => true end
  end.

Fixpoint has_key (d : list (string * value)) (k : string) : bool :=
  match d with
  | [] => false
  | (k', _) :: rest => String.eqb k' k || has_key rest k
  end.

(** [k in s] for two strings. *)
Fixpoint is_substring (k s : string) : bool :=
  Py.startswith s k
  || match s with
     | EmptyString => false
     | String _ r => is_substring k r
     end.

Definition is_str (k : string) (v : value) : bool :=
  match v with
  | Str s => String.eqb s k
  | _ => false
  end.

(** [k in v] for a string [k]. *)
Definition contains (v : value) (k : string) : Exc bool :=
  match v with
  | Obj members => Return (has_key members k)
  | Arr items => Return (existsb (is_str k) items)
  | Str s => Return (is_substring k s)
  | Null | Bool _ | Int _ | Float _ => Raise TypeError
  end.

(** [v[k]] for a string [k]. *)
Definition getitem (v : value) (k : string) : Exc value :=
  match v with
  | Obj members =>
      if has_key members k then Return (dict_get members k Null)
      else Raise KeyError
  | _ => Raise TypeError
  end.

(** [v[0]] *)
Definition getitem0 (v : value) : Exc value :=
  match v with
  | Arr items =>
      match items with
      | x :: _ => Return x
      | [] => Raise IndexError
      end
  | Str s =>
      match s with
      | String c _ => Return (Str (String c EmptyString))
      | EmptyString => Raise IndexError
      end
  | Obj _ => Raise KeyError
  | Null | Bool _ | Int _ | Float _ => Raise TypeError
  end.

(** [len(v)] *)
Definition len (v : value) : Exc Z :=
  match v with
  | Arr items => Return (Z.of_nat (List.length items))
  | Obj members => Return (Z.of_nat (List.length members))
  | Str s => Return (Z.of_nat (String.length s))
  | Null | Bool _ | Int _ | Float _ => Raise TypeError
  end.

(** ** [json.dumps] with its default settings *)

Definition dumps_char (c : ascii) : string :=
  if Ascii.eqb c dquote || Ascii.eqb c backslash
  then String backslash (String c EmptyString)
  else if Ascii.eqb c "008" then String backslash "b"
  else if Ascii.eqb c "012" then String backslash "f"
  else if Ascii.eqb c "010" then String backslash "n"
  else if Ascii.eqb c "013" then String backslash "r"
  else if Ascii.eqb c "009" then String backslash "t"
  else if Py.between 32 126 (Py.code c) then String c EmptyString
  else String backslash
         (String "u" (String "0" (String "0"
            (String (Conv.hex_digit (Py.code c / 16))
               (String (Conv.hex_digit (Py.code c mod 16)) EmptyString))))).

Fixpoint dumps_chars (s : string) : string :=
  match s with
  | EmptyString => EmptyString
  | String c r => (dumps_char c ++ dumps_chars r)%string
  end.

Definition dumps_str (s : string) : string :=
  String dquote (dumps_chars s ++ String dquote EmptyString)%string.

Definition dumps_float (f : spec_float) : string :=
  match f with
  | S754_nan => "NaN"
  | S754_infinity s => if s then "-Infinity" else "Infinity"
  | _ => Conv.repr_float f
  end.

Fixpoint dumps (v : value) : string :=
  match v with
  | Null => "null"
  | Bool b => if b then "true" else "false"
  | Int n => Conv.repr_int n
  | Float f => dumps_float f
  | Str s => dumps_str s
  | Arr items =>
      ("[" ++ Py.join ", " (List.map dumps items) ++ "]")%string
  | Obj members =>
      ("{" ++ Py.join ", "
                (List.map (fun kv => dumps_str (fst kv) ++ ": " ++ dumps (snd kv))
                   members)
           ++ "}")%string
  end.

End Dyn.

(* ===================================================================== *)
(** * app/config.py *)
(* ===================================================================== *)

Module Config.

Record Settings : Type := mkSettings {
  OPENAI_API_KEY : string;
  OPENAI_MODEL : string;
  OPENAI_API_BASE : string;
  USE_FALLBACK : bool
}.

(** [os.getenv(name, default)] over the process environment. *)
Definition getenv (environ : string -> option string) (name default : string)
  : string :=
  match environ name with
  | Some v => v
  | None => default
  end.

(** The body of [class Settings], evaluated once at import. *)
Definition load (environ : string -> option string) : Settings :=
  let key := Py.strip (getenv environ "OPENAI_API_KEY" "") in
  let flag := Py.lower (getenv environ "USE_FALLBACK" "") in
  {| OPENAI_API_KEY := key;
     OPENAI_MODEL := getenv environ "OPENAI_MODEL" "gpt-4o-mini";
     OPENAI_API_BASE := getenv environ "OPENAI_API_BASE" "https://api.openai.com/v1";
     USE_FALLBACK :=
       (String.eqb flag "1" || String.eqb flag "true") || negb (Py.truthy key) |}.

End Config.

(* ===================================================================== *)
(** * app/services.py: remote scoring, parsing, evaluation *)
(* ===================================================================== *)

Definition triple_quote : string :=
  String Json.dquote (String Json.dquote (String Json.dquote EmptyString)).

(** The text of [EVAL_PROMPT] before and after the [{answer}] field. *)
Definition EVAL_PROMPT_head : string :=
  ("
You are an expert hiring screener. Evaluate the candidate's short answer and RETURN STRICT JSON (no extra commentary).
Output EXACTLY three fields:
- score: integer 1-5 (5 best)
- summary: one-line concise summary (<= 20 words)
- improvement: one short suggestion (<= 25 words)

Candidate says:
" ++ triple_quote)%string.

Definition EVAL_PROMPT_tail : string :=
  (triple_quote ++ "

Use these heuristics:
5: Correct, complete, concise, shows depth or example.
4: Mostly correct, minor missing detail.
3: Partially correct or incomplete.
2: Poor, big gaps.
1: Incorrect/irrelevant.

Return JSON only.
")%string.

(** [EVAL_PROMPT.format(answer=answer)] *)
Definition format_prompt (answer : string) : string :=
  (EVAL_PROMPT_head ++ answer ++ EVAL_PROMPT_tail)%string.

(** The request of [client.post]: address, bearer token, and the model
    and the single user message of the payload (temperature [0.0],
    [max_tokens] [300] and the timeout of [30] seconds are constants). *)
Record Request : Type := mkRequest {
  url : string;
  authorization : string;
  model : string;
  content : string
}.

Section Services.

Import Config.

Variable settings : Settings.

(** The exchange with the remote service: [client.post], then
    [resp.raise_for_status()] and [resp.json()].  It returns the decoded
    body, or raises on a network error, a timeout, an error status or a
    body that is not JSON. *)
Variable post : Request -> Exc Json.value.

(** The body of [call_openai_chat] once a credential is present: the
    request, and the extraction of the completion from the response. *)
Definition chat_completion (prompt : string) : Exc Json.value :=
  let url := (OPENAI_API_BASE settings ++ "/chat/completions")%string in
  let bearer := ("Bearer " ++ OPENAI_API_KEY settings)%string in
  data <- post (mkRequest url bearer (OPENAI_MODEL settings) prompt) ;;
  has_choices <- Dyn.contains data "choices" ;;
  nonempty <-
    (if has_choices
     then choices <- Dyn.getitem data "choices" ;;
          n <- Dyn.len choices ;;
          Return (0 <? n)%Z
     else Return false) ;;
  if nonempty then
    choices <- Dyn.getitem data "choices" ;;
    choice <- Dyn.getitem0 choices ;;
    has_message <- Dyn.contains choice "message" ;;
    has_content <-
      (if has_message
       then message <- Dyn.getitem choice "message" ;;
            Dyn.contains message "content"
       else Return false) ;;
    if has_content then
      message <- Dyn.getitem choice "message" ;;
      Dyn.getitem message "content"
    else
      has_text <- Dyn.contains choice "text" ;;
      if has_text then Dyn.getitem choice "text"
      else Return (Json.Str (Dyn.dumps data))
  else Return (Json.Str (Dyn.dumps data)).

Definition call_openai_chat (prompt : string) : Exc Json.value :=
  if negb (Py.truthy (OPENAI_API_KEY settings)) then
    Raise (RuntimeError "OPENAI_API_KEY not configured")
  else chat_completion prompt.

(** [max(1, min(5, score))] *)
Definition clamp (n : Z) : Z := Z.max 1 (Z.min 5 n).

(** [parse_model_json] on the text of the model output. *)
Definition parse_model_text (raw : string) : Exc EvaluationResult :=
  let start := Py.find raw "{" in
  let end_ := Py.rfind raw "}" in
  if (start =? -1)%Z || (end_ =? -1)%Z || (end_ <=? start)%Z then
    Raise (ValueError "no JSON object found in model output")
  else
    let candidate := Py.slice raw start (end_ + 1) in
    parsed <- Json.loads candidate ;;
    members <-
      match parsed with
      | Json.Obj members => Return members
      | _ => Raise AttributeError
      end ;;
    score <- Conv.py_int (Json.dict_get members "score" (Json.Int 1)) ;;
    let score := clamp score in
    let summary :=
      Py.strip (Conv.py_str (Json.dict_get members "summary" (Json.Str ""))) in
    let improvement :=
      Py.strip (Conv.py_str (Json.dict_get members "improvement" (Json.Str ""))) in
    let summary := if negb (Py.truthy summary) then "" else summary in
    let improvement := if negb (Py.truthy improvement) then "" else improvement in
    Return (mkResult score summary improvement).

(** [parse_model_json(raw)] for whatever the remote call returned: a falsy
    value is an empty output; a value that is not a string has no
    [find]. *)
Definition parse_model_json (raw : Json.value) : Exc EvaluationResult :=
  if negb (Dyn.truthy raw) then Raise (ValueError "empty model output")
  else
    match raw with
    | Json.Str text => parse_model_text text
    | _ => Raise AttributeError
    end.

(** The normalisation of the answer at the head of [evaluate_text]. *)
Definition normalize (answer : string) : Exc string :=
  let txt := Py.strip answer in
  if Py.startswith (Py.lower txt) "candidate says:" then
    rest <- Py.index (Py.split_once ":" txt) 1 ;;
    Return (Py.strip rest)
  else Return txt.

Definition evaluate_text (answer : string) : Exc EvaluationResult :=
  txt <- normalize answer ;;
  if USE_FALLBACK settings then Return (fallback_score_and_text txt)
  else
    let prompt := format_prompt txt in
    try_except
      (raw <- call_openai_chat prompt ;;
       try_except
         (parsed <- parse_model_json raw ;;
          Return parsed)
         (fun _ => Return (fallback_score_and_text txt)))
      (fun _ => Return (fallback_score_and_text txt)).

(** ** Concurrent evaluation *)

(** [asyncio.gather] over the tasks: every task runs to completion, in
    the order [completion]; the result of task [i] is stored in slot [i];
    the first exception raised is passed on.  Once all tasks are done the
    slots are returned in the order of the tasks. *)
Fixpoint store {A : Type} (slots : list (option A)) (i : nat) (a : A)
  : list (option A) :=
  match slots, i with
  | [], _ => []
  | _ :: rest, O => Some a :: rest
  | s :: rest, S j => s :: store rest j a
  end.

Fixpoint run_tasks {A : Type} (tasks : list (Exc A)) (completion : list nat)
  (slots : list (option A)) : Exc (list (option A)) :=
  match completion with
  | [] => Return slots
  | i :: later =>
      match nth_error tasks i with
      | Some (Return a) => run_tasks tasks later (store slots i a)
      | Some (Raise e) => Raise e
      | None => run_tasks tasks later slots
      end
  end.

Fixpoint collect {A : Type} (slots : list (option A)) : list A :=
  match slots with
  | [] => []
  | Some a :: rest => a :: collect rest
  | None :: rest => collect rest
  end.

Definition gather {A : Type} (completion : list nat) (tasks : list (Exc A))
  : Exc (list A) :=
  slots <- run_tasks tasks completion (repeat None (List.length tasks)) ;;
  Return (collect slots).

Definition evaluate_bulk (completion : list nat)
  (items : list (option string * string)) : Exc (list EvaluationResult) :=
  let tasks := List.map (fun item => evaluate_text (snd item)) items in
  results <- gather completion tasks ;;
  Return results.

End Services.

(* ===================================================================== *)
(** * app/schemas.py and app/main.py *)
(* ===================================================================== *)

(** [EvaluateRequest]: field [text].  [EvaluateResponse] has the fields of
    [EvaluationResult]. *)
Record EvaluateRequest : Type := mkEvaluateRequest { req_text : string }.

(** [CandidateIn]: fields [id] and [text]. *)
Record CandidateIn : Type := mkCandidateIn {
  cand_id : option string;
  cand_text : string
}.

Record RankRequest : Type := mkRankRequest { candidates : list CandidateIn }.

(** [RankedCandidate]: fields [id], [text], [score], [summary] and
    [improvement]. *)
Record RankedCandidate : Type := mkRanked {
  rc_id : option string;
  rc_text : string;
  rc_score : Z;
  rc_summary : string;
  rc_improvement : string
}.

Record RankResponse : Type := mkRankResponse { ranked : list RankedCandidate }.

(** [a < b] on pairs of integers, as Python compares tuples. *)
Definition tuple_lt (a b : Z * Z) : bool :=
  (fst a <? fst b)%Z || ((fst a =? fst b)%Z && (snd a <? snd b)%Z).

(** [sorted(l, key=key)]: a stable sort that only asks whether one key is
    below another.  An element goes in front of the first element of the
    sorted tail whose key is not below its own. *)
Fixpoint insert_by {A : Type} (key : A -> Z * Z) (x : A) (l : list A) : list A :=
  match l with
  | [] => [x]
  | y :: rest =>
      if tuple_lt (key y) (key x) then y :: insert_by key x rest
      else x :: l
  end.

Definition sorted {A : Type} (key : A -> Z * Z) (l : list A) : list A :=
  fold_right (insert_by key) [] l.

(** [lambda x: (-x.score, -len(x.summary))] *)
Definition rank_key (x : RankedCandidate) : Z * Z :=
  (- rc_score x, - Z.of_nat (String.length (rc_summary x)))%Z.

(** The dictionary that [root] returns: keys [ok] and [provider]. *)
Record RootResponse : Type := mkRootResponse { ok : bool; provider : string }.

Section Main.

Variable settings : Config.Settings.
Variable post : Request -> Exc Json.value.

(** The order in which the evaluations of one batch complete. *)
Variable completion : list nat.

(** [root()] *)
Definition root : RootResponse :=
  mkRootResponse true
    (if Config.USE_FALLBACK settings then "fallback" else "openai").

Definition evaluate_answer (req : EvaluateRequest) : Exc EvaluationResult :=
  result <- evaluate_text settings post (req_text req) ;;
  Return (mkResult (score result) (summary result) (improvement result)).

Definition rank_candidates (req : RankRequest) : Exc RankResponse :=
  match candidates req with
  | [] => Raise (HTTPException 400 "No candidates provided")
  | _ :: _ =>
      let items := List.map (fun c => (cand_id c, cand_text c)) (candidates req) in
      results <- evaluate_bulk settings post completion items ;;
      let ranked_objs :=
        List.map (fun '(item, res) =>
                    mkRanked (fst item) (snd item)
                      (score res) (summary res) (improvement res))
          (combine items results) in
      let ranked_sorted := sorted rank_key ranked_objs in
      Return (mkRankResponse ranked_sorted)
  end.

End Main.

(* ===================================================================== *)
(** * Specification-side notions *)
(* ===================================================================== *)

(** The result of the heuristic scorer on an empty answer. *)
Definition no_answer : EvaluationResult :=
  mkResult 1 "No answer provided." "Provide an answer with key ideas.".

(** The literal prefix that [evaluate_text] removes. *)
Definition PREFIX : string := "candidate says:".

Definition has_prefix (s : string) : bool := Py.startswith (Py.lower s) PREFIX.

(** Only whitespace. *)
Fixpoint blank (s : string) : bool :=
  match s with
  | EmptyString => true
  | String c r => Py.isspace c && blank r
  end.

Fixpoint has_char (c : ascii) (s : string) : bool :=
  match s with
  | EmptyString => false
  | String d r => Ascii.eqb d c || has_char c r
  end.

(** Rules evaluated in order, first match wins: the value of the first
    rule whose condition holds. *)
Inductive first_match : list (Prop * Z) -> Z -> Prop :=
| match_here (c : Prop) (v : Z) (later : list (Prop * Z)) :
    c -> first_match ((c, v) :: later) v
| match_later (c : Prop) (v w : Z) (later : list (Prop * Z)) :
    ~ c -> first_match later w -> first_match ((c, v) :: later) w.

(** The score thresholds of the specification. *)
Definition score_rules (length hits : nat) : list (Prop * Z) :=
  [ ((80 <= length)%nat /\ (2 <= hits)%nat, 5%Z);
    ((50 <= length)%nat /\ (1 <= hits)%nat, 4%Z);
    ((25 <= length)%nat, 3%Z);
    ((10 <= length)%nat, 2%Z);
    (True, 1%Z) ].

(** The last character of [s], or [d] when [s] is empty. *)
Fixpoint last_or (d : option ascii) (s : string) : option ascii :=
  match s with
  | EmptyString => d
  | String c r => last_or (Some c) r
  end.

Definition last_char (s : string) : option ascii := last_or None s.

(** The number of maximal runs of non-whitespace characters: a run starts
    at a non-whitespace character that follows the start of the text or a
    whitespace character. *)
Fixpoint token_count (after_space : bool) (s : string) : nat :=
  match s with
  | EmptyString => O
  | String c r =>
      ((if after_space && negb (Py.isspace c) then 1 else 0)
       + token_count (Py.isspace c) r)%nat
  end.

Fixpoint repeat_text (n : nat) (s : string) : string :=
  match n with
  | O => EmptyString
  | S k => (s ++ repeat_text k s)%string
  end.

(** An answer of 84 words that mentions two of the key terms. *)
Definition long_answer : string :=
  ("Candidate says: " ++ repeat_text 80 "word "
   ++ "with a Design and a test.")%string.

(** The batch of the concrete scenario: a one-word answer, and an answer
    of 85 words that mentions scalability and consistency. *)
Definition scenario_batch : RankRequest :=
  mkRankRequest
    [ mkCandidateIn (Some "c1") "short";
      mkCandidateIn (Some "c2")
        (repeat_text 83 "word " ++ "scalability consistency")%string ].

(** The keyword [k] occurs in [text] as a whole word, letter case aside:
    the text is [before ++ occurrence ++ after], the occurrence is the
    keyword up to case, and no word character touches it on either side. *)
Definition whole_word_hit (k text : string) : Prop :=
  exists before occurrence after : string,
    text = (before ++ occurrence ++ after)%string
    /\ Py.lower occurrence = Py.lower k
    /\ Re.isword_opt (last_char before) = false
    /\ Re.isword_opt (Re.head after) = false.

(** A keyword that starts and ends with a word character. *)
Definition wordlike (k : string) : bool :=
  Re.isword_opt (Re.head k) && Re.isword_opt (last_char k).

(** The text has a span from a first opening brace to a later last closing
    brace: [before ++ "{" ++ inside ++ "}" ++ after], no opening brace in
    [before], no closing brace in [after]. *)
Definition brace_span (raw span : string) : Prop :=
  exists before inside after : string,
    raw = (before ++ String "{" (inside ++ String "}" after))%string
    /\ has_char "{" before = false
    /\ has_char "}" after = false
    /\ span = String "{" (inside ++ String "}" EmptyString).

(** The guard of the parser: no opening brace, no closing brace, or the
    last closing brace not after the first opening brace. *)
Definition span_absent (raw : string) : bool :=
  (Py.find raw "{" =? -1)%Z || (Py.rfind raw "}" =? -1)%Z
  || (Py.rfind raw "}" <=? Py.find raw "{")%Z.

(** The candidate text that the parser hands to the decoder. *)
Definition span_text (raw : string) : string :=
  Py.slice raw (Py.find raw "{") (Py.rfind raw "}" + 1).

(** The value of a finite float [(-1)^s * m * 2^e], rounded toward zero. *)
Definition toward_zero (s : bool) (m : positive) (e : Z) : Z :=
  if (0 <=? e)%Z then cond_Zopp s (Zpos m) * 2 ^ e
  else Z.quot (cond_Zopp s (Zpos m)) (2 ^ (- e)).

(** Double quotes written as single quotes, for readable JSON examples. *)
Definition dq (s : string) : string :=
  string_of_list_ascii
    (List.map (fun c => if Ascii.eqb c "'" then Json.dquote else c)
       (list_ascii_of_string s)).


(** A list is sorted by rank: score descending, and among equal scores the
    length of the summary descending. *)
Definition outranks (a b : RankedCandidate) : Prop :=
  (rc_score b < rc_score a)%Z
  \/ (rc_score a = rc_score b
      /\ (String.length (rc_summary b) <= String.length (rc_summary a))%nat).

Definition same_rank (a b : RankedCandidate) : bool :=
  (rc_score a =? rc_score b)%Z
  && (String.length (rc_summary a) =? String.length (rc_summary b))%nat.

(** The candidate [c] with its evaluation [r]. *)
Definition merge (c : CandidateIn) (r : EvaluationResult) : RankedCandidate :=
  mkRanked (cand_id c) (cand_text c) (score r) (summary r) (improvement r).

(** Every task of a batch completes. *)
Definition all_complete (completion : list nat) (n : nat) : Prop :=
  forall i, (i < n)%nat -> In i completion.

(** A response of the remote service whose first choice carries the
    completion [text]. *)
Definition chat_reply (text : string) : Json.value :=
  Json.Obj [("choices",
             Json.Arr [Json.Obj [("message",
                                  Json.Obj [("role", Json.Str "assistant");
                                            ("content", Json.Str text)])]])].

(** Settings loaded from an environment that holds a key, and from an
    empty environment. *)
Definition remote_settings : Config.Settings :=
  Config.load (fun name =>
                 if String.eqb name "OPENAI_API_KEY" then Some "sk-test"
                 else None).

Definition fallback_settings : Config.Settings :=
  Config.load (fun _ => None).

(** Settings that no environment produces: the remote path enabled without
    a key. *)
Definition keyless_settings : Config.Settings :=
  Config.mkSettings "" "gpt-4o-mini" "https://api.openai.com/v1" false.

(** A text without whitespace characters. *)
Fixpoint no_space (s : string) : bool :=
  match s with
  | EmptyString => true
  | String c r => negb (Py.isspace c) && no_space r
  end.

(** A word, as [split] returns them: not empty, no whitespace. *)
Definition is_word (w : string) : bool := Py.truthy w && no_space w.

(** A character, if any, that is not whitespace. *)
Definition nonspace_opt (o : option ascii) : bool :=
  match o with
  | Some c => negb (Py.isspace c)
  | None => true
  end.

(** [lower] on a character, if any. *)
Definition lower_opt (o : option ascii) : option ascii :=
  match o with
  | Some c => Some (Py.lower_char c)
  | None => None
  end.

(** The words of a sentence: up to and including the first word that ends
    with a full stop, exclamation or question mark. *)
Fixpoint sentence_words (ws : list string) : list string :=
  match ws with
  | [] => []
  | w :: rest =>
      if Re.is_terminator (last_char w) then [w] else w :: sentence_words rest
  end.

(** A key term that starts and ends with a word character and holds no
    whitespace. *)
Definition plain_term (k : string) : bool :=
  wordlike k && no_space k && Py.truthy k.

(** ** The texts on which the decoder of this file is [json.loads]

    A character above U+00FF has no image in [string], so [scanstring]
    reports an escape that names one as an error, where [json.loads]
    decodes it; and the decoder of this file nests without bound, where
    the interpreter raises [RecursionError] once its recursion limit is
    reached.  The statements about what the decoder rejects are therefore
    made for texts without such an escape and of a nesting that the
    interpreter allows. *)





(** A text of decimal digits. *)
Fixpoint all_digits (s : string) : bool :=
  match s with
  | EmptyString => true
  | String c r => Json.is_digit c && all_digits r
  end.

(** A capital letter of ASCII replaced by its small letter; every other
    character is kept. *)
Definition ascii_lower_char (c : ascii) : ascii :=
  if Py.between 65 90 (Py.code c) then ascii_of_nat (Py.code c + 32) else c.

Fixpoint ascii_lower (s : string) : string :=
  match s with
  | EmptyString => EmptyString
  | String c r => String (ascii_lower_char c) (ascii_lower r)
  end.

(** A response of the remote service as it comes in practice: the first
    choice carries the completion [text] among other members. *)
Definition full_reply (text : string) : Json.value :=
  Json.Obj
    [("id", Json.Str "chatcmpl-1");
     ("object", Json.Str "chat.completion");
     ("created", Json.Int 1700000000);
     ("model", Json.Str "gpt-4o-mini");
     ("choices",
      Json.Arr [Json.Obj [("index", Json.Int 0);
                          ("message",
                           Json.Obj [("role", Json.Str "assistant");
                                     ("content", Json.Str text);
                                     ("refusal", Json.Null)]);
                          ("finish_reason", Json.Str "stop")]]);
     ("usage", Json.Obj [("prompt_tokens", Json.Int 57);
                         ("completion_tokens", Json.Int 17);
                         ("total_tokens", Json.Int 74)])].

(* ===================================================================== *)
(** * Strings: stripping, prefixes, cutting *)
(* ===================================================================== *)

Lemma append_empty_r (s : string) : (s ++ "")%string = s.
Proof. induction s as [|c s IH]; simpl; [reflexivity | now rewrite IH]. Qed.

Lemma append_assoc (a b c : string) :
  ((a ++ b) ++ c)%string = (a ++ (b ++ c))%string.
Proof. induction a as [|x a IH]; simpl; [reflexivity | now rewrite IH]. Qed.

Lemma lower_char_colon (c : ascii) : Py.lower_char c = ":"%char -> c = ":"%char.
Proof.
  destruct c as [b0 b1 b2 b3 b4 b5 b6 b7].
  destruct b0, b1, b2, b3, b4, b5, b6, b7; vm_compute; congruence.
Qed.

Lemma lower_app (a b : string) :
  Py.lower (a ++ b) = (Py.lower a ++ Py.lower b)%string.
Proof. induction a as [|c a IH]; simpl; [reflexivity | now rewrite IH]. Qed.

Lemma has_char_colon_lower (s : string) :
  has_char ":" (Py.lower s) = has_char ":" s.
Proof.
  induction s as [|c s IH]; simpl; [reflexivity|].
  rewrite IH. f_equal.
  destruct (Ascii.eqb_spec (Py.lower_char c) ":") as [E|E].
  - apply lower_char_colon in E. subst c. reflexivity.
  - destruct (Ascii.eqb_spec c ":") as [E'|E']; [subst c; now elim E | reflexivity].
Qed.

Lemma startswith_app (a b : string) : Py.startswith (a ++ b) a = true.
Proof.
  induction a as [|c a IH]; simpl; [reflexivity|].
  now rewrite Ascii.eqb_refl, IH.
Qed.

(** A text whose lower-case form starts with [p] followed by a colon is
    cut by its first colon after a case variant of [p]. *)
Lemma startswith_lower_cut (p s : string) :
  Py.startswith (Py.lower s) (p ++ ":") = true ->
  exists a b, s = (a ++ String ":" b)%string /\ Py.lower a = p.
Proof.
  revert s. induction p as [|pc p IH]; intros s H.
  - destruct s as [|c r]; simpl in H; [discriminate|].
    apply andb_prop in H. destruct H as [H _].
    apply Ascii.eqb_eq, lower_char_colon in H. subst c.
    exists EmptyString, r. split; reflexivity.
  - destruct s as [|c r]; simpl in H; [discriminate|].
    apply andb_prop in H. destruct H as [Hc Hr].
    apply Ascii.eqb_eq in Hc.
    destruct (IH r Hr) as (a & b & -> & Ha).
    exists (String c a), b. split; [reflexivity|].
    simpl. now rewrite Hc, Ha.
Qed.

Lemma split_once_cut (sep : ascii) (a b : string) :
  has_char sep a = false ->
  Py.split_once sep (a ++ String sep b) = [a; b].
Proof.
  induction a as [|c a IH]; simpl; intros H.
  - now rewrite Ascii.eqb_refl.
  - apply orb_false_iff in H. destruct H as [Hc Ha].
    rewrite Hc, (IH Ha). reflexivity.
Qed.

Lemma has_prefix_cut (s : string) :
  has_prefix s = true ->
  exists a b, s = (a ++ String ":" b)%string
              /\ Py.lower a = "candidate says"
              /\ Py.split_once ":" s = [a; b].
Proof.
  intros H. destruct (startswith_lower_cut "candidate says" s H) as (a & b & -> & Ha).
  exists a, b. repeat split; trivial.
  apply split_once_cut. rewrite <- has_char_colon_lower, Ha. reflexivity.
Qed.

(** The normalisation never raises: the cut at the colon always has a
    second part when the prefix is present. *)
Lemma normalize_total (answer : string) :
  exists txt, normalize answer = Return txt.
Proof.
  unfold normalize.
  destruct (Py.startswith (Py.lower (Py.strip answer)) "candidate says:") eqn:E.
  - destruct (has_prefix_cut _ E) as (a & b & _ & _ & Hs).
    rewrite Hs. simpl. eauto.
  - eauto.
Qed.

(* ===================================================================== *)
(** * The evaluation engine *)
(* ===================================================================== *)

Section Engine.

Variable settings : Config.Settings.
Variable post : Request -> Exc Json.value.

(** The engine returns either the heuristic result or a parsed remote
    output; the latter only when the remote path is enabled and both the
    call and the parser succeed. *)
Lemma evaluate_text_cases (answer txt : string) :
  normalize answer = Return txt ->
  evaluate_text settings post answer = Return (fallback_score_and_text txt)
  \/ exists raw r,
       Config.USE_FALLBACK settings = false
       /\ call_openai_chat settings post (format_prompt txt) = Return raw
       /\ parse_model_json raw = Return r
       /\ evaluate_text settings post answer = Return r.
Proof.
  intros Hn. unfold evaluate_text. rewrite Hn. simpl.
  destruct (Config.USE_FALLBACK settings) eqn:Hf; [now left|].
  destruct (call_openai_chat settings post (format_prompt txt)) as [raw|e] eqn:Hc;
    simpl; [|now left].
  destruct (parse_model_json raw) as [r|e] eqn:Hp; simpl; [|now left].
  right. exists raw, r. auto.
Qed.

Lemma call_raises_with_post (prompt : string) (e : exn) :
  (forall req, post req = Raise e) ->
  raises (call_openai_chat settings post prompt) = true.
Proof.
  intros H. unfold call_openai_chat, chat_completion.
  destruct (negb (Py.truthy (Config.OPENAI_API_KEY settings))); [reflexivity|].
  rewrite H. reflexivity.
Qed.

End Engine.

Lemma evaluate_text_returns
  (settings : Config.Settings) (post : Request -> Exc Json.value)
  (answer : string) :
  exists r, evaluate_text settings post answer = Return r.
Proof.
  destruct (normalize_total answer) as [txt Hn].
  destruct (evaluate_text_cases settings post answer txt Hn)
    as [H | (raw & r & _ & _ & _ & H)]; eauto.
Qed.

Lemma threshold_score_range (length keywords : nat) :
  (1 <= threshold_score length keywords <= 5)%Z.
Proof.
  unfold threshold_score.
  repeat match goal with |- context [if ?b then _ else _] => destruct b end; lia.
Qed.

Lemma fallback_score_range (answer : string) :
  (1 <= score (fallback_score_and_text answer) <= 5)%Z.
Proof.
  unfold fallback_score_and_text.
  destruct (negb (Py.truthy (Py.strip answer))); simpl; [lia|].
  apply threshold_score_range.
Qed.

Lemma clamp_range (n : Z) : (1 <= clamp n <= 5)%Z.
Proof. unfold clamp. lia. Qed.

Lemma parse_model_text_score_range (raw : string) (r : EvaluationResult) :
  parse_model_text raw = Return r -> (1 <= score r <= 5)%Z.
Proof.
  unfold parse_model_text.
  destruct (_ || _ || _); [discriminate|].
  destruct (Json.loads _) as [parsed|]; simpl; [|discriminate].
  destruct parsed; simpl; try discriminate.
  destruct (Conv.py_int _) as [n|]; simpl; [|discriminate].
  intros H. injection H as <-. simpl. apply clamp_range.
Qed.

Lemma parse_model_json_score_range (raw : Json.value) (r : EvaluationResult) :
  parse_model_json raw = Return r -> (1 <= score r <= 5)%Z.
Proof.
  unfold parse_model_json.
  destruct (negb (Dyn.truthy raw)); [discriminate|].
  destruct raw; try discriminate.
  apply parse_model_text_score_range.
Qed.

(** C1.  For every input, [evaluate_text] returns a result and raises
    nothing.  With the remote path enabled, when the remote call raises
    (for instance because the transport raises) or the parser raises on
    its output, the result is the heuristic scorer's result on the
    normalised text. *)
Theorem evaluate_text_fails_open
  (settings : Config.Settings) (post : Request -> Exc Json.value)
  (answer : string) :
  exists txt r,
    normalize answer = Return txt
    /\ evaluate_text settings post answer = Return r
    /\ (Config.USE_FALLBACK settings = false ->
        (forall e,
            call_openai_chat settings post (format_prompt txt) = Raise e ->
            r = fallback_score_and_text txt)
        /\ (forall e,
               (forall req, post req = Raise e) ->
               r = fallback_score_and_text txt)
        /\ (forall raw e,
               call_openai_chat settings post (format_prompt txt) = Return raw ->
               parse_model_json raw = Raise e ->
               r = fallback_score_and_text txt)).
Proof.
  destruct (normalize_total answer) as [txt Hn].
  exists txt.
  destruct (evaluate_text_cases settings post answer txt Hn)
    as [H | (raw & r & Hf & Hc & Hp & H)].
  - exists (fallback_score_and_text txt). repeat split; auto.
  - exists r. repeat split; auto.
    + intros e He. congruence.
    + intros e He.
      pose proof (call_raises_with_post settings post (format_prompt txt) e He) as Hr.
      rewrite Hc in Hr. discriminate.
    + intros raw' e Hc' Hp'. congruence.
Qed.

(** The simulated failures of the specification: a timeout, a completion
    that is not JSON, a completion whose JSON is malformed, a missing
    credential.  Each gives the heuristic result on the normalised text. *)
Example fail_open_scenarios :
  let expected :=
    Return (fallback_score_and_text "I would add a retry with backoff.") in
  let answer := "Candidate says: I would add a retry with backoff." in
  evaluate_text remote_settings (fun _ => Raise (TransportError "timeout")) answer
  = expected
  /\ evaluate_text remote_settings
       (fun _ => Return (chat_reply "I cannot score this.")) answer
     = expected
  /\ evaluate_text remote_settings
       (fun _ => Return (chat_reply (dq "{'score': 4, 'summary': "))) answer
     = expected
  /\ evaluate_text keyless_settings
       (fun _ => Return (chat_reply (dq "{'score': 4}"))) answer
     = expected.
Proof. repeat split; vm_compute; reflexivity. Qed.

(** C2.  Through every path the score of the returned result is one of
    1, 2, 3, 4, 5: for [evaluate_text] on any input and configuration, for
    the heuristic scorer, and for the parser whenever it returns.  Summary
    and improvement are strings by the type of the result; a [null] in the
    model output is returned as the text [None], not as a missing value. *)
Theorem score_always_in_range
  (settings : Config.Settings) (post : Request -> Exc Json.value)
  (answer : string) :
  (exists r, evaluate_text settings post answer = Return r
             /\ In (score r) [1; 2; 3; 4; 5]%Z)
  /\ In (score (fallback_score_and_text answer)) [1; 2; 3; 4; 5]%Z
  /\ (forall raw r, parse_model_json raw = Return r ->
                    In (score r) [1; 2; 3; 4; 5]%Z)
  /\ parse_model_json
       (Json.Str (dq "{'score': 99, 'summary': null, 'improvement': null}"))
     = Return (mkResult 5 "None" "None").
Proof.
  assert (R : forall n, (1 <= n <= 5)%Z -> In n [1; 2; 3; 4; 5]%Z).
  { intros n Hn. simpl. lia. }
  split; [|split; [|split]].
  - destruct (normalize_total answer) as [txt Hn].
    destruct (evaluate_text_cases settings post answer txt Hn)
      as [H | (raw & r & _ & _ & Hp & H)].
    + eexists. split; [exact H|]. apply R, fallback_score_range.
    + exists r. split; [exact H|]. apply R. eapply parse_model_json_score_range; eauto.
  - apply R, fallback_score_range.
  - intros raw r H. apply R. eapply parse_model_json_score_range; eauto.
  - vm_compute. reflexivity.
Qed.

(* ===================================================================== *)
(** * Configuration and the credential guard *)
(* ===================================================================== *)

(** C9.  Whatever the environment says about [USE_FALLBACK], settings
    loaded without a key (absent, empty or blank) have the fallback flag
    on; so when the flag is off the key is not empty, the call made by
    [evaluate_text] goes past the credential guard to the HTTP exchange,
    and without a key [evaluate_text] is the heuristic scorer. *)
Theorem fallback_forced_without_key
  (environ : string -> option string) (post : Request -> Exc Json.value) :
  let settings := Config.load environ in
  (Config.OPENAI_API_KEY settings = "" -> Config.USE_FALLBACK settings = true)
  /\ (environ "OPENAI_API_KEY" = None -> Config.USE_FALLBACK settings = true)
  /\ (Config.USE_FALLBACK settings = false ->
      Config.OPENAI_API_KEY settings <> ""
      /\ forall prompt,
           call_openai_chat settings post prompt
           = chat_completion settings post prompt)
  /\ (Config.OPENAI_API_KEY settings = "" ->
      forall answer, exists txt,
        normalize answer = Return txt
        /\ evaluate_text settings post answer
           = Return (fallback_score_and_text txt)).
Proof.
  intros settings.
  assert (K : Config.OPENAI_API_KEY settings = "" ->
              Config.USE_FALLBACK settings = true).
  { unfold settings, Config.load. simpl. intros ->. simpl.
    apply orb_true_r. }
  split; [exact K|]. split; [|split].
  - intros Habs. apply K. unfold settings, Config.load, Config.getenv. simpl.
    rewrite Habs. reflexivity.
  - intros Hoff.
    assert (Hk : Config.OPENAI_API_KEY settings <> "").
    { intros E. rewrite (K E) in Hoff. discriminate. }
    split; [exact Hk|].
    intros prompt. unfold call_openai_chat.
    destruct (Config.OPENAI_API_KEY settings); [now elim Hk | reflexivity].
  - intros Hk answer. destruct (normalize_total answer) as [txt Hn].
    exists txt. split; [exact Hn|].
    unfold evaluate_text. rewrite Hn. unfold bind. now rewrite (K Hk).
Qed.

(* ===================================================================== *)
(** * The empty answer *)
(* ===================================================================== *)

Lemma normalize_blank (answer : string) :
  Py.strip answer = "" -> normalize answer = Return "".
Proof. intros H. unfold normalize. rewrite H. reflexivity. Qed.

Lemma fallback_blank (answer : string) :
  Py.strip answer = "" -> fallback_score_and_text answer = no_answer.
Proof. intros H. unfold fallback_score_and_text. rewrite H. reflexivity. Qed.

(** C6, as amended.  On an input that is empty once trimmed the heuristic
    scorer returns exactly the fixed no-answer result, and so does
    [evaluate_text] whenever it takes the heuristic path: in fallback
    mode, when the remote call raises, or when the parser raises. *)
Theorem empty_answer_on_heuristic_path (answer : string)
  (Hblank : Py.strip answer = "") :
  fallback_score_and_text answer = no_answer
  /\ forall settings post,
       (Config.USE_FALLBACK settings = true
        \/ raises (call_openai_chat settings post (format_prompt "")) = true
        \/ exists raw,
             call_openai_chat settings post (format_prompt "") = Return raw
             /\ raises (parse_model_json raw) = true) ->
       evaluate_text settings post answer = Return no_answer.
Proof.
  split; [now apply fallback_blank|].
  intros settings post H.
  pose proof (normalize_blank answer Hblank) as Hn.
  destruct (evaluate_text_cases settings post answer "" Hn)
    as [E | (raw & r & Hf & Hc & Hp & E)].
  - rewrite E. reflexivity.
  - exfalso. destruct H as [H | [H | (raw' & Hc' & Hp')]].
    + congruence.
    + rewrite Hc in H. discriminate.
    + rewrite Hc in Hc'. injection Hc' as <-. rewrite Hp in Hp'. discriminate.
Qed.

(** C6 at a blank answer, in fallback mode. *)
Lemma empty_answer_on_heuristic_path_witness :
  Py.strip "  " = ""
  /\ fallback_score_and_text "  " = no_answer
  /\ evaluate_text fallback_settings (fun _ => Raise (TransportError "unused")) "  "
     = Return no_answer.
Proof.
  split; [reflexivity|].
  destruct (empty_answer_on_heuristic_path "  " eq_refl) as [H1 H2].
  split; [exact H1|].
  apply H2. left. reflexivity.
Defined.

(** Against C6 as stated: with a key configured and a remote service that
    answers, the empty answer is sent to the service and its judgement is
    returned. *)
Lemma empty_answer_remote_counterexample :
  Py.strip "" = ""
  /\ evaluate_text remote_settings
       (fun _ => Return (chat_reply
          (dq "{'score': 2, 'summary': 'Nothing was said.', 'improvement': 'Give an answer.'}")))
       ""
     = Return (mkResult 2 "Nothing was said." "Give an answer.")
  /\ evaluate_text remote_settings
       (fun _ => Return (chat_reply
          (dq "{'score': 2, 'summary': 'Nothing was said.', 'improvement': 'Give an answer.'}")))
       ""
     <> Return no_answer.
Proof.
  split; [reflexivity|].
  split; [vm_compute; reflexivity|].
  vm_compute. discriminate.
Qed.

(* ===================================================================== *)
(** * Gathering concurrent evaluations *)
(* ===================================================================== *)

Section Gather.

Context {A : Type}.

Lemma store_length (slots : list (option A)) (i : nat) (a : A) :
  List.length (store slots i a) = List.length slots.
Proof.
  revert i. induction slots as [|s slots IH]; intros [|i]; simpl; auto.
Qed.

Lemma nth_error_store (slots : list (option A)) (i k : nat) (a : A) :
  nth_error (store slots i a) k
  = if ((k =? i) && (i <? List.length slots))%nat then Some (Some a)
    else nth_error slots k.
Proof.
  revert i k. induction slots as [|s slots IH]; intros i k.
  - simpl. destruct i; simpl; rewrite andb_false_r; reflexivity.
  - destruct i as [|i], k as [|k]; simpl; try reflexivity.
    rewrite IH. reflexivity.
Qed.

(** Tasks that all return: the slots only ever receive the value of their
    own task, whatever the order of completion. *)
Lemma run_tasks_returns (vals : list A) (completion : list nat) :
  forall slots,
    List.length slots = List.length vals ->
    exists slots',
      run_tasks (List.map Return vals) completion slots = Return slots'
      /\ List.length slots' = List.length vals
      /\ forall k,
           nth_error slots' k
           = match nth_error vals k with
             | Some v =>
                 if existsb (Nat.eqb k) completion then Some (Some v)
                 else nth_error slots k
             | None => nth_error slots k
             end.
Proof.
  induction completion as [|i later IH]; intros slots Hlen.
  - exists slots. split; [reflexivity|]. split; [exact Hlen|].
    intros k. simpl. destruct (nth_error vals k); reflexivity.
  - simpl. rewrite nth_error_map.
    destruct (nth_error vals i) as [a|] eqn:Hi; simpl.
    + destruct (IH (store slots i a)) as (slots' & Hrun & Hlen' & Hnth).
      { now rewrite store_length. }
      exists slots'. split; [exact Hrun|]. split; [exact Hlen'|].
      intros k. rewrite Hnth, nth_error_store.
      destruct (nth_error vals k) as [v|] eqn:Hk.
      * destruct (Nat.eqb_spec k i) as [->|Hne]; simpl.
        -- assert (v = a) by congruence. subst v.
           assert (i < List.length slots)%nat as Hlt.
           { rewrite Hlen. apply nth_error_Some. congruence. }
           apply Nat.ltb_lt in Hlt. rewrite Hlt.
           destruct (existsb (Nat.eqb i) later); reflexivity.
        -- reflexivity.
      * destruct (Nat.eqb_spec k i) as [->|Hne]; simpl; [congruence | reflexivity].
    + destruct (IH slots Hlen) as (slots' & Hrun & Hlen' & Hnth).
      exists slots'. split; [exact Hrun|]. split; [exact Hlen'|].
      intros k. rewrite Hnth.
      destruct (nth_error vals k) as [v|] eqn:Hk; [|reflexivity].
      destruct (Nat.eqb_spec k i) as [->|Hne]; simpl; [congruence | reflexivity].
Qed.

Lemma collect_all_some (vals : list A) : collect (List.map Some vals) = vals.
Proof. induction vals as [|v vals IH]; simpl; [reflexivity | now rewrite IH]. Qed.

Lemma gather_never_raises (vals : list A) (completion : list nat) :
  exists out, gather completion (List.map Return vals) = Return out.
Proof.
  unfold gather.
  destruct (run_tasks_returns vals completion
              (repeat None (List.length (List.map Return vals))))
    as (slots' & Hrun & _).
  { now rewrite repeat_length, length_map. }
  rewrite Hrun. simpl. eauto.
Qed.

(** Once every task has completed, the results are those of the tasks in
    the order of the tasks. *)
Lemma gather_in_task_order (vals : list A) (completion : list nat) :
  all_complete completion (List.length vals) ->
  gather completion (List.map Return vals) = Return vals.
Proof.
  intros Hall. unfold gather.
  destruct (run_tasks_returns vals completion
              (repeat None (List.length (List.map Return vals))))
    as (slots' & Hrun & Hlen & Hnth).
  { now rewrite repeat_length, length_map. }
  rewrite Hrun. simpl. f_equal.
  replace slots' with (List.map Some vals); [apply collect_all_some|].
  apply nth_error_ext. intros k. rewrite Hnth, nth_error_map.
  destruct (nth_error vals k) as [v|] eqn:Hk; simpl.
  - assert (k < List.length vals)%nat as Hlt by (apply nth_error_Some; congruence).
    assert (existsb (Nat.eqb k) completion = true) as ->; [|reflexivity].
    apply existsb_exists. exists k. split; [now apply Hall | apply Nat.eqb_refl].
  - symmetry. apply nth_error_None. rewrite repeat_length, length_map.
    now apply nth_error_None.
Qed.

End Gather.

Section Batch.

Variable settings : Config.Settings.
Variable post : Request -> Exc Json.value.

(** The evaluations of the texts of a batch, in the order of the batch. *)
Lemma evaluations_exist (texts : list string) :
  exists evals,
    List.map (evaluate_text settings post) texts = List.map Return evals
    /\ Forall2 (fun t r => evaluate_text settings post t = Return r) texts evals.
Proof.
  induction texts as [|t texts (evals & Hm & Hf)].
  - exists []. split; [reflexivity | constructor].
  - destruct (evaluate_text_returns settings post t) as [r Hr].
    exists (r :: evals). split.
    + simpl. now rewrite Hr, Hm.
    + now constructor.
Qed.

Lemma evaluate_bulk_tasks (items : list (option string * string)) :
  List.map (fun item => evaluate_text settings post (snd item)) items
  = List.map (evaluate_text settings post) (List.map snd items).
Proof. now rewrite map_map. Qed.

Lemma evaluate_bulk_never_raises
  (completion : list nat) (items : list (option string * string)) :
  exists results, evaluate_bulk settings post completion items = Return results.
Proof.
  unfold evaluate_bulk. rewrite evaluate_bulk_tasks.
  destruct (evaluations_exist (List.map snd items)) as (evals & Hm & _).
  rewrite Hm.
  destruct (gather_never_raises evals completion) as [out Hout].
  rewrite Hout. simpl. eauto.
Qed.

Lemma evaluate_bulk_in_order
  (completion : list nat) (items : list (option string * string))
  (evals : list EvaluationResult) :
  all_complete completion (List.length items) ->
  Forall2 (fun t r => evaluate_text settings post t = Return r)
    (List.map snd items) evals ->
  evaluate_bulk settings post completion items = Return evals.
Proof.
  intros Hall Hf. unfold evaluate_bulk. rewrite evaluate_bulk_tasks.
  assert (Hm : List.map (evaluate_text settings post) (List.map snd items)
               = List.map Return evals).
  { clear Hall. induction Hf as [|t r ts rs Ht _ IH]; simpl;
      [reflexivity | now rewrite Ht, IH]. }
  rewrite Hm, gather_in_task_order; [reflexivity|].
  apply Forall2_length in Hf. rewrite length_map in Hf. now rewrite <- Hf.
Qed.

(** C8.  [rank_candidates] raises exactly when the list of candidates is
    empty, and what it raises then is the client error with status 400;
    on a list that is not empty it returns a response; [evaluate_answer]
    always returns a result. *)
Theorem only_empty_batch_is_rejected
  (completion : list nat) (req : RankRequest) (single : EvaluateRequest) :
  ((exists e, rank_candidates settings post completion req = Raise e)
   <-> candidates req = [])
  /\ (candidates req = [] ->
      rank_candidates settings post completion req
      = Raise (HTTPException 400 "No candidates provided"))
  /\ (candidates req <> [] ->
      exists response,
        rank_candidates settings post completion req = Return response)
  /\ exists result, evaluate_answer settings post single = Return result.
Proof.
  assert (Hne : candidates req <> [] ->
                exists response,
                  rank_candidates settings post completion req = Return response).
  { intros Hc. unfold rank_candidates.
    destruct (candidates req) as [|c cs] eqn:E; [now elim Hc|].
    destruct (evaluate_bulk_never_raises completion
                (List.map (fun c => (cand_id c, cand_text c)) (c :: cs)))
      as [results Hr].
    rewrite Hr. simpl. eauto. }
  assert (He : candidates req = [] ->
               rank_candidates settings post completion req
               = Raise (HTTPException 400 "No candidates provided")).
  { intros Hc. unfold rank_candidates. now rewrite Hc. }
  split; [|split; [exact He | split; [exact Hne|]]].
  - split.
    + intros [e H]. destruct (candidates req) as [|c cs] eqn:E; [reflexivity|].
      destruct Hne as [response Hr]; [congruence|]. congruence.
    + intros Hc. eexists. now apply He.
  - unfold evaluate_answer.
    destruct (evaluate_text_returns settings post (req_text single)) as [r Hr].
    rewrite Hr. simpl. eauto.
Qed.

End Batch.

(* ===================================================================== *)
(** * Sorting by rank *)
(* ===================================================================== *)

Lemma insert_by_perm {A : Type} (key : A -> Z * Z) (x : A) (l : list A) :
  Permutation (x :: l) (insert_by key x l).
Proof.
  induction l as [|y l IH]; simpl; [reflexivity|].
  destruct (tuple_lt (key y) (key x)); [|reflexivity].
  rewrite perm_swap. now constructor.
Qed.

Lemma sorted_perm {A : Type} (key : A -> Z * Z) (l : list A) :
  Permutation l (sorted key l).
Proof.
  induction l as [|x l IH]; simpl; [constructor|].
  rewrite <- insert_by_perm. now constructor.
Qed.

Lemma rank_key_below (y x : RankedCandidate) :
  tuple_lt (rank_key y) (rank_key x) = true ->
  outranks y x /\ same_rank y x = false.
Proof.
  unfold tuple_lt, rank_key, outranks, same_rank. simpl. intros H.
  apply orb_true_iff in H. destruct H as [H | H].
  - apply Z.ltb_lt in H. split; [left; lia|].
    apply andb_false_iff. left. apply Z.eqb_neq. lia.
  - apply andb_prop in H. destruct H as [He Hl].
    apply Z.eqb_eq in He. apply Z.ltb_lt in Hl. split.
    + right. split; lia.
    + apply andb_false_iff. right. apply Nat.eqb_neq. lia.
Qed.

Lemma rank_key_not_below (y x : RankedCandidate) :
  tuple_lt (rank_key y) (rank_key x) = false -> outranks x y.
Proof.
  unfold tuple_lt, rank_key, outranks. simpl. intros H.
  apply orb_false_iff in H. destruct H as [H1 H2].
  apply Z.ltb_ge in H1.
  destruct (Z.eqb_spec (- rc_score y) (- rc_score x)) as [E|E]; simpl in H2.
  - apply Z.ltb_ge in H2. right. split; lia.
  - left. lia.
Qed.

Lemma outranks_trans (a b c : RankedCandidate) :
  outranks a b -> outranks b c -> outranks a c.
Proof. unfold outranks. intros [H1|[H1 H1']] [H2|[H2 H2']]; [left|left|left|right]; lia. Qed.

Lemma same_rank_trans_l (z y x : RankedCandidate) :
  same_rank z y = true -> same_rank z x = true -> same_rank y x = true.
Proof.
  unfold same_rank. intros H1 H2.
  apply andb_prop in H1. destruct H1 as [A1 B1].
  apply andb_prop in H2. destruct H2 as [A2 B2].
  apply Z.eqb_eq in A1, A2. apply Nat.eqb_eq in B1, B2.
  apply andb_true_intro. split; [apply Z.eqb_eq | apply Nat.eqb_eq]; congruence.
Qed.

Lemma insert_by_hd (x a : RankedCandidate) (l : list RankedCandidate) :
  outranks a x -> HdRel outranks a l -> HdRel outranks a (insert_by rank_key x l).
Proof.
  intros Hax Hl. destruct l as [|y l]; simpl; [now constructor|].
  destruct (tuple_lt (rank_key y) (rank_key x)); constructor; trivial.
  now inversion Hl.
Qed.

Lemma insert_by_sorted (x : RankedCandidate) (l : list RankedCandidate) :
  Sorted outranks l -> Sorted outranks (insert_by rank_key x l).
Proof.
  induction 1 as [|y l Hs IH Hhd]; simpl.
  - repeat constructor.
  - destruct (tuple_lt (rank_key y) (rank_key x)) eqn:E.
    + constructor; [exact IH|].
      apply insert_by_hd; [now apply rank_key_below | exact Hhd].
    + constructor; [now constructor|].
      constructor. now apply rank_key_not_below.
Qed.

Lemma sorted_is_sorted (l : list RankedCandidate) :
  StronglySorted outranks (sorted rank_key l).
Proof.
  apply Sorted_StronglySorted; [exact outranks_trans|].
  induction l as [|x l IH]; simpl; [constructor | now apply insert_by_sorted].
Qed.

(** Inserting never moves an element past one of the same rank. *)
Lemma insert_by_stable (z x : RankedCandidate) (l : list RankedCandidate) :
  filter (same_rank z) (insert_by rank_key x l) = filter (same_rank z) (x :: l).
Proof.
  induction l as [|y l IH]; [reflexivity|].
  cbn [insert_by].
  destruct (tuple_lt (rank_key y) (rank_key x)) eqn:E; [|reflexivity].
  apply rank_key_below in E. destruct E as [_ E].
  cbn [filter] in *. rewrite IH.
  destruct (same_rank z y) eqn:Hy, (same_rank z x) eqn:Hx; try reflexivity.
  rewrite (same_rank_trans_l z y x Hy Hx) in E. discriminate.
Qed.

Lemma sorted_stable (z : RankedCandidate) (l : list RankedCandidate) :
  filter (same_rank z) (sorted rank_key l) = filter (same_rank z) l.
Proof.
  induction l as [|x l IH]; [reflexivity|].
  cbn [sorted fold_right]. rewrite insert_by_stable.
  cbn [filter]. fold (sorted rank_key l). now rewrite IH.
Qed.

(** Of two candidates with the same score, the one with the longer summary
    comes first. *)
Example longer_summary_first :
  List.map rc_id
    (sorted rank_key
       [ mkRanked (Some "a") "x" 3 "ten chars." "";
         mkRanked (Some "b") "y" 3 "twenty characters..." "" ])
  = [Some "b"; Some "a"].
Proof. reflexivity. Qed.

Lemma combine_map_l {A B C : Type} (f : A -> B) (l : list A) (l' : list C) :
  combine (List.map f l) l' = List.map (fun p => (f (fst p), snd p)) (combine l l').
Proof.
  revert l'. induction l as [|a l IH]; intros [|c l']; simpl; try reflexivity.
  now rewrite IH.
Qed.

Lemma Forall2_map_left {A B C : Type} (f : A -> B) (P : B -> C -> Prop)
  (l : list A) (l' : list C) :
  Forall2 P (List.map f l) l' <-> Forall2 (fun a c => P (f a) c) l l'.
Proof.
  revert l'. induction l as [|a l IH]; intros l'; simpl; split; intros H;
    inversion H; subst; constructor; trivial; now apply IH.
Qed.

Section Ranking.

Variable settings : Config.Settings.
Variable post : Request -> Exc Json.value.

Lemma rank_candidates_value
  (completion : list nat) (req : RankRequest) (evals : list EvaluationResult) :
  candidates req <> [] ->
  all_complete completion (List.length (candidates req)) ->
  Forall2 (fun c r => evaluate_text settings post (cand_text c) = Return r)
    (candidates req) evals ->
  rank_candidates settings post completion req
  = Return (mkRankResponse
              (sorted rank_key
                 (List.map (fun p => merge (fst p) (snd p))
                    (combine (candidates req) evals)))).
Proof.
  intros Hne Hall Hf. unfold rank_candidates.
  destruct (candidates req) as [|c cs] eqn:E; [now elim Hne|].
  rewrite (evaluate_bulk_in_order settings post completion _ evals).
  - cbn [bind]. do 3 f_equal.
    rewrite combine_map_l, map_map. apply map_ext. intros [c' r]. reflexivity.
  - now rewrite length_map.
  - rewrite map_map. apply Forall2_map_left. exact Hf.
Qed.

(** C3.  On a list of candidates that is not empty, once every evaluation
    has completed, [rank_candidates] returns the candidates merged with
    their evaluations, rearranged so that the score descends and, among
    equal scores, the length of the summary descends; candidates equal in
    both keep their order of input; and the response is the same for
    every order of completion. *)
Theorem ranking_is_a_stable_sort
  (completion : list nat) (req : RankRequest)
  (Hne : candidates req <> [])
  (Hall : all_complete completion (List.length (candidates req))) :
  exists evals out,
    Forall2 (fun c r => evaluate_text settings post (cand_text c) = Return r)
      (candidates req) evals
    /\ rank_candidates settings post completion req
       = Return (mkRankResponse out)
    /\ Permutation
         (List.map (fun p => merge (fst p) (snd p)) (combine (candidates req) evals))
         out
    /\ StronglySorted outranks out
    /\ (forall z,
          filter (same_rank z) out
          = filter (same_rank z)
              (List.map (fun p => merge (fst p) (snd p))
                 (combine (candidates req) evals)))
    /\ (forall completion',
          all_complete completion' (List.length (candidates req)) ->
          rank_candidates settings post completion' req
          = Return (mkRankResponse out)).
Proof.
  destruct (evaluations_exist settings post (List.map cand_text (candidates req)))
    as (evals & _ & Hf).
  assert (Hf' : Forall2
                  (fun c r => evaluate_text settings post (cand_text c) = Return r)
                  (candidates req) evals).
  { now apply Forall2_map_left in Hf. }
  exists evals.
  exists (sorted rank_key
            (List.map (fun p => merge (fst p) (snd p))
               (combine (candidates req) evals))).
  split; [exact Hf'|]. split.
  - apply rank_candidates_value; assumption.
  - split; [apply sorted_perm|]. split; [apply sorted_is_sorted|].
    split; [intros z; apply sorted_stable|].
    intros completion' Hall'. apply rank_candidates_value; assumption.
Qed.

End Ranking.

(** C3 on three candidates whose evaluations complete out of order: the
    two candidates of equal score and equal summary length keep their
    order of input. *)
Lemma ranking_is_a_stable_sort_witness :
  let req := mkRankRequest
               [ mkCandidateIn (Some "c1") "short";
                 mkCandidateIn None "Candidate says: one two three four five six seven eight nine ten eleven.";
                 mkCandidateIn (Some "c3") "tiny!" ] in
  candidates req <> []
  /\ all_complete [2; 0; 1]%nat (List.length (candidates req))
  /\ exists out,
       rank_candidates fallback_settings (fun _ => Raise (TransportError "unused"))
         [2; 0; 1]%nat req
       = Return (mkRankResponse out)
       /\ List.map rc_id out = [None; Some "c1"; Some "c3"].
Proof.
  intros req.
  assert (Hne : candidates req <> []) by discriminate.
  assert (Hall : all_complete [2; 0; 1]%nat (List.length (candidates req))).
  { intros i Hi. simpl in *. lia. }
  split; [exact Hne|]. split; [exact Hall|].
  destruct (ranking_is_a_stable_sort fallback_settings
              (fun _ => Raise (TransportError "unused")) [2; 0; 1]%nat req Hne Hall)
    as (evals & out & _ & Hrank & _).
  exists out. split; [exact Hrank|].
  assert (E : rank_candidates fallback_settings
                (fun _ => Raise (TransportError "unused")) [2; 0; 1]%nat req
              = Return (mkRankResponse out)) by exact Hrank.
  vm_compute in E. injection E as <-. reflexivity.
Defined.

(** The concrete scenario of the specification, in fallback mode: the long
    answer comes first with score 5, the short one second with score 1. *)
Example ranking_scenario :
  exists out,
    rank_candidates fallback_settings (fun _ => Raise (TransportError "unused"))
      [1; 0]%nat scenario_batch
    = Return (mkRankResponse out)
    /\ List.map (fun r => (rc_id r, rc_score r)) out
       = [(Some "c2", 5%Z); (Some "c1", 1%Z)].
Proof. eexists. split; vm_compute; reflexivity. Qed.

(* ===================================================================== *)
(** * Locating the JSON span *)
(* ===================================================================== *)

Lemma length_append (a b : string) :
  String.length (a ++ b) = (String.length a + String.length b)%nat.
Proof. induction a as [|c a IH]; simpl; [reflexivity | now rewrite IH]. Qed.

Lemma find_from_none (c : ascii) (s : string) (i : Z) :
  has_char c s = false -> Py.find_from c s i = (-1)%Z.
Proof.
  revert i. induction s as [|d s IH]; simpl; intros i H; [reflexivity|].
  apply orb_false_iff in H. destruct H as [Hd Hs]. rewrite Hd. now apply IH.
Qed.

Lemma find_from_first (c : ascii) (a b : string) (i : Z) :
  has_char c a = false ->
  Py.find_from c (a ++ String c b) i = (i + Z.of_nat (String.length a))%Z.
Proof.
  revert i. induction a as [|d a IH]; simpl; intros i H.
  - rewrite Ascii.eqb_refl. lia.
  - apply orb_false_iff in H. destruct H as [Hd Ha].
    rewrite Hd, (IH _ Ha). lia.
Qed.

Lemma rfind_from_none (c : ascii) (s : string) (i last : Z) :
  has_char c s = false -> Py.rfind_from c s i last = last.
Proof.
  revert i last. induction s as [|d s IH]; simpl; intros i last H; [reflexivity|].
  apply orb_false_iff in H. destruct H as [Hd Hs]. rewrite Hd. now apply IH.
Qed.

Lemma rfind_from_last (c : ascii) (a b : string) (i last : Z) :
  has_char c b = false ->
  Py.rfind_from c (a ++ String c b) i last = (i + Z.of_nat (String.length a))%Z.
Proof.
  revert i last. induction a as [|d a IH]; simpl; intros i last H.
  - rewrite Ascii.eqb_refl, rfind_from_none by assumption. lia.
  - rewrite (IH _ _ H). lia.
Qed.

Lemma split_at_first (c : ascii) (s : string) :
  has_char c s = true ->
  exists a b, s = (a ++ String c b)%string /\ has_char c a = false.
Proof.
  induction s as [|d s IH]; simpl; intros H; [discriminate|].
  destruct (Ascii.eqb_spec d c) as [->|Hne].
  - exists EmptyString, s. split; reflexivity.
  - simpl in H. destruct (IH H) as (a & b & -> & Ha).
    exists (String d a), b. split; [reflexivity|].
    simpl. rewrite Ha. apply Ascii.eqb_neq in Hne. now rewrite Hne.
Qed.

Lemma split_at_last (c : ascii) (s : string) :
  has_char c s = true ->
  exists a b, s = (a ++ String c b)%string /\ has_char c b = false.
Proof.
  induction s as [|d s IH]; simpl; intros H; [discriminate|].
  destruct (has_char c s) eqn:Hs.
  - destruct (IH eq_refl) as (a & b & -> & Hb).
    exists (String d a), b. split; [reflexivity | exact Hb].
  - rewrite orb_false_r in H. apply Ascii.eqb_eq in H. subst d.
    exists EmptyString, s. split; [reflexivity | exact Hs].
Qed.

Lemma find_absent_iff (c : ascii) (s : string) :
  (Py.find s c =? -1)%Z = negb (has_char c s).
Proof.
  unfold Py.find. destruct (has_char c s) eqn:H.
  - destruct (split_at_first c s H) as (a & b & -> & Ha).
    rewrite find_from_first by assumption. simpl. apply Z.eqb_neq. lia.
  - rewrite find_from_none by assumption. reflexivity.
Qed.

Lemma rfind_absent_iff (c : ascii) (s : string) :
  (Py.rfind s c =? -1)%Z = negb (has_char c s).
Proof.
  unfold Py.rfind. destruct (has_char c s) eqn:H.
  - destruct (split_at_last c s H) as (a & b & -> & Hb).
    rewrite rfind_from_last by assumption. simpl. apply Z.eqb_neq. lia.
  - rewrite rfind_from_none by assumption. reflexivity.
Qed.

(** Two ways of cutting the same text: the shorter head is a prefix of the
    longer one. *)
Lemma append_cut (a x a' y : string) :
  (a ++ x)%string = (a' ++ y)%string ->
  (String.length a <= String.length a')%nat ->
  exists m, a' = (a ++ m)%string /\ x = (m ++ y)%string.
Proof.
  revert a'. induction a as [|c a IH]; intros a' E L.
  - exists a'. split; [reflexivity | exact E].
  - destruct a' as [|c' a']; simpl in L; [lia|].
    simpl in E. injection E as -> E.
    destruct (IH a' E) as (m & -> & ->); [lia|].
    exists m. split; reflexivity.
Qed.

Lemma substring_skip (a s : string) (n : nat) :
  substring (String.length a) n (a ++ s) = substring 0 n s.
Proof. induction a as [|c a IH]; simpl; [reflexivity | exact IH]. Qed.

Lemma substring_head (m y : string) :
  substring 0 (String.length m) (m ++ y) = m.
Proof.
  induction m as [|c m IH]; simpl.
  - destruct y; reflexivity.
  - now rewrite IH.
Qed.

Lemma brace_span_found (raw span : string) :
  brace_span raw span -> span_absent raw = false /\ span_text raw = span.
Proof.
  intros (before & inside & after & -> & Hb & Ha & ->).
  assert (Hf : Py.find (before ++ String "{" (inside ++ String "}" after)) "{"
               = Z.of_nat (String.length before)).
  { unfold Py.find. now rewrite find_from_first. }
  assert (Hr : Py.rfind (before ++ String "{" (inside ++ String "}" after)) "}"
               = Z.of_nat (String.length before + 1 + String.length inside)).
  { unfold Py.rfind.
    replace (before ++ String "{" (inside ++ String "}" after))%string
      with ((before ++ String "{" inside) ++ String "}" after)%string.
    - rewrite rfind_from_last by assumption.
      rewrite length_append. simpl. lia.
    - rewrite append_assoc. reflexivity. }
  split.
  - unfold span_absent. rewrite Hf, Hr.
    apply orb_false_iff. split; [apply orb_false_iff; split|].
    + apply Z.eqb_neq. lia.
    + apply Z.eqb_neq. lia.
    + apply Z.leb_gt. lia.
  - unfold span_text, Py.slice. rewrite Hf, Hr.
    rewrite Nat2Z.id.
    replace (Z.to_nat (Z.of_nat (String.length before + 1 + String.length inside)
                       + 1 - Z.of_nat (String.length before)))
      with (String.length (String "{" (inside ++ String "}" ""))).
    + rewrite substring_skip.
      replace (String "{" (inside ++ String "}" after))
        with (String "{" (inside ++ String "}" "") ++ after)%string.
      * apply substring_head.
      * simpl. rewrite append_assoc. reflexivity.
    + simpl. rewrite length_append. simpl. lia.
Qed.

Lemma brace_span_exists (raw : string) :
  span_absent raw = false -> exists span, brace_span raw span.
Proof.
  unfold span_absent. intros H.
  apply orb_false_iff in H. destruct H as [H Hle].
  apply orb_false_iff in H. destruct H as [Hf Hr].
  rewrite find_absent_iff in Hf. rewrite rfind_absent_iff in Hr.
  apply negb_false_iff in Hf, Hr.
  destruct (split_at_first "{" raw Hf) as (a & b & E & Ha).
  destruct (split_at_last "}" raw Hr) as (a' & c & E' & Hc).
  assert (Hfind : Py.find raw "{" = Z.of_nat (String.length a)).
  { rewrite E. unfold Py.find. now rewrite find_from_first. }
  assert (Hrfind : Py.rfind raw "}" = Z.of_nat (String.length a')).
  { rewrite E'. unfold Py.rfind. now rewrite rfind_from_last. }
  rewrite Hfind, Hrfind in Hle. apply Z.leb_gt in Hle.
  assert (Hcut : (a ++ String "{" b)%string = (a' ++ String "}" c)%string)
    by congruence.
  destruct (append_cut a (String "{" b) a' (String "}" c) Hcut) as (m & Em & Eb);
    [lia|].
  destruct m as [|x m].
  - rewrite append_empty_r in Em. subst a'. lia.
  - simpl in Eb. injection Eb as <- Eb.
    exists (String "{" (m ++ String "}" "")), a, m, c.
    repeat split; trivial. now rewrite E, Eb.
Qed.

(** The guard of the parser passes exactly when the text has a span from
    its first opening brace to a later last closing brace, and the text
    handed to the decoder is that span. *)
Lemma span_absent_spec (raw : string) :
  (span_absent raw = false <-> exists span, brace_span raw span)
  /\ forall span, brace_span raw span -> span_text raw = span.
Proof.
  split; [split|].
  - apply brace_span_exists.
  - intros [span H]. now apply brace_span_found in H.
  - intros span H. now apply brace_span_found in H.
Qed.

(* ===================================================================== *)
(** * The decoder on a text that starts with a brace *)
(* ===================================================================== *)

(** Case analysis on every test and pattern matching that decides [H]. *)
Ltac split_scan H :=
  repeat match type of H with
         | context [match ?x with _ => _ end] =>
             destruct x eqn:?; try discriminate H
         end.

Lemma members_give_object (fuel : nat) :
  forall s pairs v rest,
    Json.members fuel s pairs = Json.Done v rest -> exists m, v = Json.Obj m.
Proof.
  induction fuel as [|fuel IH]; intros s pairs v rest H; [discriminate|].
  cbn [Json.members] in H. split_scan H.
  - injection H as <- _. eauto.
  - eapply IH; eauto.
Qed.

Lemma loads_brace_gives_object (inside : string) (v : Json.value) :
  Json.loads (String "{" inside) = Return v -> exists m, v = Json.Obj m.
Proof.
  unfold Json.loads, Json.decode.
  change (Json.skip_ws (String "{" inside)) with (String "{" inside).
  destruct (Json.scan_once _ _) as [v' rest| |] eqn:Hs; try discriminate.
  destruct (Json.skip_ws rest); try discriminate.
  intros H. injection H as <-.
  cbn [Json.scan_once Nat.mul Nat.add String.length] in Hs.
  change (Ascii.eqb "{" Json.dquote) with false in Hs.
  change (Ascii.eqb "{" "{") with true in Hs.
  cbv iota in Hs. split_scan Hs.
  - injection Hs as <- _. eauto.
  - eapply members_give_object; eauto.
Qed.

Lemma span_text_starts_with_brace (raw : string) :
  span_absent raw = false -> exists inside, span_text raw = String "{" inside.
Proof.
  intros H. destruct (brace_span_exists raw H) as [span Hs].
  pose proof (brace_span_found raw span Hs) as [_ ->].
  destruct Hs as (_ & inside & _ & _ & _ & _ & ->). eauto.
Qed.

(* ===================================================================== *)
(** * The parser *)
(* ===================================================================== *)

Lemma parse_model_text_unfold (raw : string) :
  parse_model_text raw
  = if span_absent raw
    then Raise (ValueError "no JSON object found in model output")
    else
      parsed <- Json.loads (span_text raw) ;;
      members <-
        match parsed with
        | Json.Obj members => Return members
        | _ => Raise AttributeError
        end ;;
      n <- Conv.py_int (Json.dict_get members "score" (Json.Int 1)) ;;
      Return (mkResult (clamp n)
                (Py.strip (Conv.py_str (Json.dict_get members "summary" (Json.Str ""))))
                (Py.strip (Conv.py_str (Json.dict_get members "improvement" (Json.Str ""))))).
Proof.
  unfold parse_model_text, span_absent, span_text.
  destruct (_ || _ || _); [reflexivity|].
  destruct (Json.loads _) as [parsed|]; [|reflexivity]. simpl.
  destruct parsed; try reflexivity. simpl.
  destruct (Conv.py_int _); [|reflexivity]. simpl.
  do 2 f_equal.
  - destruct (Py.strip _); reflexivity.
  - destruct (Py.strip _); reflexivity.
Qed.

(** An empty text has no span, so on a text the two entry points agree. *)
Lemma parse_model_json_text (raw : string) :
  raises (parse_model_json (Json.Str raw)) = raises (parse_model_text raw)
  /\ forall r, parse_model_json (Json.Str raw) = Return r
               <-> parse_model_text raw = Return r.
Proof.
  unfold parse_model_json. destruct raw as [|c raw]; simpl.
  - split; [reflexivity|]. intros r. split; discriminate.
  - split; [reflexivity|]. intros r. split; auto.
Qed.

Lemma parse_model_text_returns
  (raw : string) (members : list (string * Json.value)) (n : Z) :
  span_absent raw = false ->
  Json.loads (span_text raw) = Return (Json.Obj members) ->
  Conv.py_int (Json.dict_get members "score" (Json.Int 1)) = Return n ->
  parse_model_text raw
  = Return (mkResult (clamp n)
              (Py.strip (Conv.py_str (Json.dict_get members "summary" (Json.Str ""))))
              (Py.strip (Conv.py_str (Json.dict_get members "improvement" (Json.Str ""))))).
Proof.
  intros Hs Hl Hi. rewrite parse_model_text_unfold, Hs, Hl. simpl.
  rewrite Hi. reflexivity.
Qed.

Lemma dict_get_missing (d : list (string * Json.value)) (k : string)
  (default : Json.value) :
  Dyn.has_key d k = false -> Json.dict_get d k default = default.
Proof.
  induction d as [|[k' v] d IH]; simpl; intros H; [reflexivity|].
  apply orb_false_iff in H. destruct H as [Hk Hd]. rewrite Hk. now apply IH.
Qed.


(** When the body of the parser raises, and what it returns. *)
Lemma parse_model_text_spec (raw : string) :
  (raises (parse_model_text raw) = true
   <-> (~ exists span, brace_span raw span)
       \/ (exists span, brace_span raw span
                        /\ raises (Json.loads span) = true)
       \/ (exists span members,
             brace_span raw span
             /\ Json.loads span = Return (Json.Obj members)
             /\ raises (Conv.py_int (Json.dict_get members "score" (Json.Int 1)))
                = true))
  /\ (forall r,
        parse_model_text raw = Return r ->
        exists span members n,
          brace_span raw span
          /\ Json.loads span = Return (Json.Obj members)
          /\ Conv.py_int (Json.dict_get members "score" (Json.Int 1)) = Return n
          /\ (Dyn.has_key members "score" = false -> n = 1%Z)
          /\ score r = clamp n
          /\ (1 <= score r <= 5)%Z
          /\ summary r
             = Py.strip (Conv.py_str (Json.dict_get members "summary" (Json.Str "")))
          /\ improvement r
             = Py.strip (Conv.py_str (Json.dict_get members "improvement" (Json.Str "")))
          /\ (Dyn.has_key members "summary" = false -> summary r = "")
          /\ (Dyn.has_key members "improvement" = false -> improvement r = "")).
Proof.
  destruct (span_absent raw) eqn:Hs.
  - (* no span *)
    assert (Hno : ~ exists span, brace_span raw span).
    { intros [span H]. apply brace_span_found in H. destruct H. congruence. }
    rewrite parse_model_text_unfold, Hs. split.
    + split; [intros _; now left | reflexivity].
    + intros r H. discriminate.
  - destruct (brace_span_exists raw Hs) as [span Hspan].
    pose proof (brace_span_found raw span Hspan) as [_ Etext].
    destruct (Json.loads span) as [parsed|e] eqn:Hl.
    + destruct (span_text_starts_with_brace raw Hs) as [inside Ein].
      assert (Hobj : exists m, parsed = Json.Obj m).
      { apply (loads_brace_gives_object inside). congruence. }
      destruct Hobj as [members ->].
      destruct (Conv.py_int (Json.dict_get members "score" (Json.Int 1)))
        as [n|e] eqn:Hi.
      * rewrite (parse_model_text_returns raw members n Hs); [|congruence|exact Hi].
        split.
        -- split; [discriminate|].
           intros [Hno | [(span' & Hsp' & Hr) | (span' & m' & Hsp' & Hl' & Hr)]].
           ++ elim Hno. eauto.
           ++ apply brace_span_found in Hsp'. destruct Hsp' as [_ E'].
              assert (Esp : span' = span) by congruence.
              rewrite Esp, Hl in Hr. discriminate.
           ++ apply brace_span_found in Hsp'. destruct Hsp' as [_ E'].
              assert (Esp : span' = span) by congruence.
              rewrite Esp, Hl in Hl'. injection Hl' as <-.
              rewrite Hi in Hr. discriminate.
        -- intros r Hr. injection Hr as <-. simpl.
           exists span, members, n. repeat split; trivial;
             try apply clamp_range.
           ++ intros Hk. rewrite dict_get_missing in Hi by assumption.
              simpl in Hi. congruence.
           ++ intros Hk. now rewrite dict_get_missing.
           ++ intros Hk. now rewrite dict_get_missing.
      * assert (E : parse_model_text raw = Raise e).
        { rewrite parse_model_text_unfold, Hs, Etext, Hl. simpl.
          rewrite Hi. reflexivity. }
        rewrite E. split.
        -- split; [intros _ | reflexivity].
           right; right. exists span, members. rewrite Hi. auto.
        -- intros r Hr. discriminate.
    + assert (E : parse_model_text raw = Raise e).
      { rewrite parse_model_text_unfold, Hs, Etext, Hl. reflexivity. }
      rewrite E. split.
      * split; [intros _ | reflexivity].
        right; left. exists span. rewrite Hl. auto.
      * intros r Hr. discriminate.
Qed.




(* ===================================================================== *)
(** * Scores that are not integers *)
(* ===================================================================== *)

Lemma int_of_float_toward_zero (s : bool) (m : positive) (e : Z) :
  Conv.int_of_float (S754_finite s m e) = Return (toward_zero s m e).
Proof.
  unfold Conv.int_of_float, toward_zero. f_equal.
  destruct (Z.leb_spec 0 e) as [He|He].
  - rewrite Z.shiftl_mul_pow2 by assumption.
    destruct s; unfold cond_Zopp; [|reflexivity].
    symmetry. apply Z.mul_opp_l.
  - assert (Hk : (0 <= - e)%Z) by lia.
    assert (Hp : (0 < 2 ^ (- e))%Z) by (apply Z.pow_pos_nonneg; lia).
    replace (Z.shiftl (Z.pos m) e) with (Z.shiftr (Z.pos m) (- e))
      by (unfold Z.shiftr; now rewrite Z.opp_involutive).
    rewrite Z.shiftr_div_pow2 by assumption.
    destruct s; unfold cond_Zopp.
    + rewrite Z.quot_opp_l by lia. f_equal.
      symmetry. apply Z.quot_div_nonneg; lia.
    + symmetry. apply Z.quot_div_nonneg; lia.
Qed.

(** ** Numerals *)

Lemma digit_char_spec (d : Z) :
  (0 <= d < 10)%Z ->
  Json.is_digit (Conv.digit_char d) = true
  /\ Json.digit_value (Conv.digit_char d) = d
  /\ (Ascii.eqb (Conv.digit_char d) "0" = (d =? 0)%Z).
Proof.
  intros H.
  assert (E : (d = 0 \/ d = 1 \/ d = 2 \/ d = 3 \/ d = 4 \/ d = 5 \/ d = 6
               \/ d = 7 \/ d = 8 \/ d = 9)%Z) by lia.
  repeat (destruct E as [E | E]; [subst d; repeat split; reflexivity|]).
  subst d. repeat split; reflexivity.
Qed.

Lemma digits_value_app (x y : string) :
  forall a, Json.digits_value a (x ++ y) = Json.digits_value (Json.digits_value a x) y.
Proof.
  induction x as [|c x IH]; intros a; cbn [append Json.digits_value];
    [reflexivity | apply IH].
Qed.

Lemma all_digits_app (x y : string) :
  all_digits (x ++ y) = all_digits x && all_digits y.
Proof.
  induction x as [|c x IH]; cbn [append all_digits]; [reflexivity|].
  now rewrite IH, andb_assoc.
Qed.

Lemma decimal_digits_step (fuel : nat) (n : Z) (acc : string) :
  Conv.decimal_digits (S fuel) n acc
  = if (n <? 10)%Z then String (Conv.digit_char (n mod 10)) acc
    else Conv.decimal_digits fuel (n / 10) (String (Conv.digit_char (n mod 10)) acc).
Proof. reflexivity. Qed.

(** The numeral of [n] by [decimal_digits], in front of what it was
    given. *)
Lemma decimal_digits_spec (fuel : nat) :
  forall n acc,
    (0 <= n < 10 ^ Z.of_nat (S fuel))%Z ->
    exists d ds,
      Conv.decimal_digits (S fuel) n acc = (String d ds ++ acc)%string
      /\ all_digits (String d ds) = true
      /\ (forall a, Json.digits_value a (String d ds)
                    = (a * 10 ^ Z.of_nat (String.length (String d ds)) + n)%Z)
      /\ (n <> 0%Z -> Ascii.eqb d "0" = false).
Proof.
  assert (Hone : forall n acc, (0 <= n < 10)%Z ->
            exists d ds,
              String (Conv.digit_char (n mod 10)) acc = (String d ds ++ acc)%string
              /\ all_digits (String d ds) = true
              /\ (forall a, Json.digits_value a (String d ds)
                    = (a * 10 ^ Z.of_nat (String.length (String d ds)) + n)%Z)
              /\ (n <> 0%Z -> Ascii.eqb d "0" = false)).
  { intros n acc H10.
    destruct (digit_char_spec n H10) as (Hd & Hv & H0).
    rewrite (Z.mod_small n 10) by lia.
    exists (Conv.digit_char n), "".
    split; [reflexivity|].
    split; [cbn [all_digits]; now rewrite Hd|].
    split.
    - intros a. cbn [Json.digits_value String.length]. rewrite Hv.
      change (10 ^ Z.of_nat 1)%Z with 10%Z. lia.
    - intros Hne. rewrite H0. now apply Z.eqb_neq. }
  induction fuel as [|fuel IH]; intros n acc Hn.
  - assert (H10 : (0 <= n < 10)%Z)
      by (change (10 ^ Z.of_nat 1)%Z with 10%Z in Hn; lia).
    rewrite decimal_digits_step.
    destruct (Hone n acc H10) as (d & ds & He & R).
    exists d, ds. split; [|exact R]. now destruct (n <? 10)%Z.
  - rewrite decimal_digits_step.
    destruct (Z.ltb_spec n 10) as [Hlt | Hge].
    + apply Hone. lia.
    + assert (Hm : (0 <= n mod 10 < 10)%Z) by (apply Z.mod_pos_bound; lia).
      destruct (digit_char_spec _ Hm) as (Hd & Hv & _).
      assert (Hq : (0 <= n / 10 < 10 ^ Z.of_nat (S fuel))%Z).
      { split; [apply Z.div_pos; lia|].
        apply Z.div_lt_upper_bound; [lia|].
        replace (Z.of_nat (S (S fuel))) with (Z.succ (Z.of_nat (S fuel))) in Hn
          by lia.
        rewrite Z.pow_succ_r in Hn by lia. lia. }
      set (last := Conv.digit_char (n mod 10)) in *.
      destruct (IH (n / 10)%Z (String last acc) Hq)
        as (d & ds & He & Hall & Hval & Hnz).
      exists d, (ds ++ String last "")%string.
      assert (Hshape : String d (ds ++ String last "")
                       = (String d ds ++ String last "")%string) by reflexivity.
      split.
      { rewrite He, Hshape, append_assoc. reflexivity. }
      split.
      { rewrite Hshape, all_digits_app, Hall. cbn [all_digits]. now rewrite Hd. }
      split.
      { intros a. rewrite Hshape, digits_value_app, Hval, length_append.
        cbn [Json.digits_value]. rewrite Hv.
        change (String.length (String last "")) with 1%nat.
        replace (Z.of_nat (String.length (String d ds) + 1))
          with (Z.succ (Z.of_nat (String.length (String d ds)))) by lia.
        rewrite Z.pow_succ_r by lia.
        pose proof (Z.div_mod n 10 ltac:(lia)) as Hdm.
        generalize dependent (10 ^ Z.of_nat (String.length (String d ds)))%Z.
        intros p _. lia. }
      intros _. apply Hnz.
      assert (0 < n / 10)%Z by (apply Z.div_str_pos; lia). lia.
Qed.

Lemma decimal_spec (n : Z) :
  (0 <= n)%Z ->
  exists d ds,
    Conv.decimal n = String d ds
    /\ all_digits (String d ds) = true
    /\ Json.digits_value 0 (String d ds) = n
    /\ (n <> 0%Z -> Ascii.eqb d "0" = false).
Proof.
  intros Hn. unfold Conv.decimal.
  destruct (decimal_digits_spec (Z.to_nat (Z.log2 n)) n "")
    as (d & ds & He & Ha & Hv & Hz).
  - split; [exact Hn|].
    destruct (Z.eq_dec n 0) as [-> | Hne]; [reflexivity|].
    pose proof (Z.log2_spec n ltac:(lia)) as [_ Hlog].
    pose proof (Z.log2_nonneg n) as Hl.
    replace (Z.of_nat (S (Z.to_nat (Z.log2 n)))) with (Z.succ (Z.log2 n)) by lia.
    eapply Z.lt_le_trans; [exact Hlog|].
    apply Z.pow_le_mono_l. lia.
  - exists d, ds. rewrite He, append_empty_r.
    split; [reflexivity|]. split; [exact Ha|]. split; [|exact Hz].
    rewrite Hv. lia.
Qed.

Lemma digit_facts (c : ascii) :
  Json.is_digit c = true ->
  Conv.int_space c = false
  /\ Ascii.eqb c "_" = false /\ Ascii.eqb c "-" = false /\ Ascii.eqb c "+" = false
  /\ (0 <= Json.digit_value c <= 9)%Z
  /\ (Ascii.eqb c "0" = false -> (1 <= Json.digit_value c)%Z).
Proof.
  destruct c as [b0 b1 b2 b3 b4 b5 b6 b7].
  destruct b0, b1, b2, b3, b4, b5, b6, b7; vm_compute; intros H;
    try discriminate; repeat split; intros; congruence.
Qed.

Lemma lskip_digits (c : ascii) (s : string) :
  Json.is_digit c = true -> Conv.lskip (String c s) = String c s.
Proof.
  intros H. cbn [Conv.lskip]. now rewrite (proj1 (digit_facts c H)).
Qed.

Lemma rskip_digits (s : string) : all_digits s = true -> Conv.rskip s = s.
Proof.
  induction s as [|c s IH]; intros H; [reflexivity|].
  cbn [all_digits] in H. apply andb_prop in H. destruct H as [Hc Hs].
  cbn [Conv.rskip]. rewrite (IH Hs).
  destruct s; [|reflexivity]. now rewrite (proj1 (digit_facts c Hc)).
Qed.

Lemma rskip_cons (c : ascii) (s : string) :
  Conv.int_space c = false -> Conv.rskip (String c s) = String c (Conv.rskip s).
Proof.
  intros H. simpl. destruct (Conv.rskip s); [now rewrite H | reflexivity].
Qed.

Lemma span_run_digits (s : string) :
  all_digits s = true -> Conv.span_run s = (s, "").
Proof.
  induction s as [|c s IH]; intros H; [reflexivity|].
  cbn [all_digits] in H. apply andb_prop in H. destruct H as [Hc Hs].
  cbn [Conv.span_run]. now rewrite Hc, (IH Hs).
Qed.

Lemma count_digits_length (s : string) :
  all_digits s = true -> Conv.count_digits s = N.of_nat (String.length s).
Proof.
  induction s as [|c s IH]; intros H; [reflexivity|].
  cbn [all_digits] in H. apply andb_prop in H. destruct H as [Hc Hs].
  cbn [Conv.count_digits String.length]. rewrite Hc, (IH Hs). lia.
Qed.

Lemma numeral_digits (s : string) :
  all_digits s = true ->
  forall b acc,
    Conv.numeral b acc s
    = match s with
      | EmptyString => if b then Some acc else None
      | String _ _ => Some (Json.digits_value acc s)
      end.
Proof.
  induction s as [|c s IH]; intros H b acc; [reflexivity|].
  cbn [all_digits] in H. apply andb_prop in H. destruct H as [Hc Hs].
  cbn [Conv.numeral Json.digits_value]. rewrite Hc, (IH Hs).
  destruct s; reflexivity.
Qed.

Lemma digits_value_ge (s : string) :
  all_digits s = true ->
  forall a, (0 <= a)%Z ->
    (a * 10 ^ Z.of_nat (String.length s) <= Json.digits_value a s)%Z.
Proof.
  induction s as [|c s IH]; intros H a Ha.
  - cbn [Json.digits_value String.length]. change (10 ^ Z.of_nat 0)%Z with 1%Z. lia.
  - cbn [all_digits] in H. apply andb_prop in H. destruct H as [Hc Hs].
    destruct (digit_facts c Hc) as (_ & _ & _ & _ & Hv & _).
    cbn [Json.digits_value String.length].
    specialize (IH Hs (10 * a + Json.digit_value c)%Z ltac:(lia)).
    replace (Z.of_nat (S (String.length s))) with (Z.succ (Z.of_nat (String.length s)))
      by lia.
    rewrite Z.pow_succ_r by lia.
    assert (Hp : (0 <= 10 ^ Z.of_nat (String.length s))%Z)
      by (apply Z.pow_nonneg; lia).
    nia.
Qed.

(** A numeral of a positive integer below [10^k] has at most [k]
    digits. *)
Lemma decimal_length (n k : Z) :
  (0 < n < 10 ^ k)%Z -> (0 <= k)%Z ->
  (Z.of_nat (String.length (Conv.decimal n)) <= k)%Z.
Proof.
  intros [Hpos Hn] Hk.
  destruct (decimal_spec n (Z.lt_le_incl _ _ Hpos)) as (d & ds & -> & Hall & Hv & Hz).
  assert (Hne : n <> 0%Z) by (intros E; rewrite E in Hpos; discriminate).
  specialize (Hz Hne).
  cbn [all_digits] in Hall. apply andb_prop in Hall. destruct Hall as [Hd Hds].
  destruct (digit_facts d Hd) as (_ & _ & _ & _ & Hr & H1).
  specialize (H1 Hz).
  cbn [Json.digits_value] in Hv.
  pose proof (digits_value_ge ds Hds (10 * 0 + Json.digit_value d)%Z ltac:(lia)) as Hge.
  rewrite Hv in Hge.
  assert (Hp : (0 < 10 ^ Z.of_nat (String.length ds))%Z)
    by (apply Z.pow_pos_nonneg; lia).
  assert (Hlt : (10 ^ Z.of_nat (String.length ds) < 10 ^ k)%Z).
  { eapply Z.le_lt_trans; [|exact Hn].
    eapply Z.le_trans; [|exact Hge].
    set (p := (10 ^ Z.of_nat (String.length ds))%Z) in *. clearbody p. nia. }
  apply Z.pow_lt_mono_r_iff in Hlt; [|lia|exact Hk].
  cbn [String.length]. lia.
Qed.

(** An integer below [10^4300] in absolute value has a numeral of at most
    4300 digits. *)
Lemma decimal_within_limit (n : Z) :
  (0 <= n)%Z -> (n < 10 ^ 4300)%Z ->
  (N.of_nat (String.length (Conv.decimal n)) <= Json.max_str_digits)%N.
Proof.
  intros H0 Hn. destruct (Z.eq_dec n 0) as [-> | Hne]; [vm_compute; discriminate|].
  assert (Hpos : (0 < n)%Z).
  { destruct n; [now elim Hne | reflexivity | now elim H0]. }
  pose proof (decimal_length n 4300 (conj Hpos Hn) ltac:(discriminate)) as H.
  unfold Json.max_str_digits. lia.
Qed.

Lemma int_of_decimal (neg : bool) (sign : string) (m : Z) :
  (0 <= m)%Z ->
  (N.of_nat (String.length (Conv.decimal m)) <= Json.max_str_digits)%N ->
  (neg = true /\ sign = "-") \/ (neg = false /\ (sign = "" \/ sign = "+")) ->
  Conv.int_of_string (sign ++ Conv.decimal m)
  = Return (if neg then (- m)%Z else m).
Proof.
  intros Hm Hlim Hsign.
  destruct (decimal_spec m Hm) as (d & ds & E & Hall & Hv & _).
  rewrite E in *.
  assert (Hd : Json.is_digit d = true).
  { cbn [all_digits] in Hall. now apply andb_prop in Hall. }
  destruct (digit_facts d Hd) as (Hsp & _ & Hminus & Hplus & _).
  assert (Hbody : Conv.rskip (Conv.lskip (sign ++ String d ds))
                  = (sign ++ String d ds)%string).
  { destruct Hsign as [[_ ->] | [_ [-> | ->]]].
    - change (Conv.lskip ("-" ++ String d ds)) with (String "-" (String d ds)).
      rewrite rskip_cons by reflexivity. now rewrite (rskip_digits _ Hall).
    - cbn [append]. rewrite (lskip_digits d ds Hd). now apply rskip_digits.
    - change (Conv.lskip ("+" ++ String d ds)) with (String "+" (String d ds)).
      rewrite rskip_cons by reflexivity. now rewrite (rskip_digits _ Hall). }
  unfold Conv.int_of_string. rewrite Hbody.
  assert (Hrest :
    (let '(run, rest) := Conv.span_run (String d ds) in
     match Conv.numeral false 0 run with
     | Some n =>
         if (Json.max_str_digits <? Conv.count_digits run)%N
         then Raise (Conv.exceeds_limit (Conv.count_digits run))
         else match rest with
              | EmptyString => Return (if neg then (- n)%Z else n)
              | String _ _ => Raise (Conv.invalid_literal (sign ++ String d ds))
              end
     | None => Raise (Conv.invalid_literal (sign ++ String d ds))
     end) = Return (if neg then (- m)%Z else m)).
  { rewrite (span_run_digits _ Hall), (numeral_digits _ Hall), Hv.
    rewrite (count_digits_length _ Hall).
    destruct (N.ltb_spec Json.max_str_digits (N.of_nat (String.length (String d ds))));
      [lia | reflexivity]. }
  destruct Hsign as [[-> ->] | [-> [-> | ->]]].
  - change ("-" ++ String d ds)%string with (String "-" (String d ds)).
    cbv beta iota. rewrite Ascii.eqb_refl. exact Hrest.
  - cbn [append]. rewrite Hminus, Hplus. exact Hrest.
  - change ("+" ++ String d ds)%string with (String "+" (String d ds)).
    cbv beta iota. change (Ascii.eqb "+" "-") with false. cbv iota.
    rewrite Ascii.eqb_refl. exact Hrest.
Qed.

(** [int(str(n)) = n] for an integer of at most 4300 digits. *)
Lemma int_of_repr (n : Z) :
  (Z.abs n < 10 ^ 4300)%Z -> Conv.int_of_string (Conv.repr_int n) = Return n.
Proof.
  intros H. unfold Conv.repr_int. destruct (Z.ltb_spec n 0) as [Hn | Hn].
  - assert (H0 : (0 <= - n)%Z) by lia.
    assert (Hb : (- n < 10 ^ 4300)%Z).
    { rewrite <- (Z.abs_neq n) by (apply Z.lt_le_incl; exact Hn). exact H. }
    change (String "-" (Conv.decimal (- n))) with ("-" ++ Conv.decimal (- n))%string.
    rewrite (int_of_decimal true "-" (- n) H0 (decimal_within_limit _ H0 Hb));
      [|now left].
    now rewrite Z.opp_involutive.
  - assert (Hb : (n < 10 ^ 4300)%Z).
    { rewrite <- (Z.abs_eq n) by exact Hn. exact H. }
    change (Conv.decimal n) with ("" ++ Conv.decimal n)%string.
    apply (int_of_decimal false "" n Hn (decimal_within_limit _ Hn Hb)).
    right. split; [reflexivity | now left].
Qed.

(** C10.  A score that is a finite float is converted by rounding toward
    zero and then clamped: 4.9 gives 4, 0.5 gives 0 and so 1, -3.7 gives
    -3 and so 1.  A string that is the decimal numeral of an integer, as
    [str] prints it, counts as that integer, for every integer of at most
    4300 digits, the longest numeral that [int] converts: [int] of the
    string returns the integer, and the parser scores the string as it
    scores the integer. *)
Theorem fractional_score_is_truncated :
  (forall s m e,
      Conv.py_int (Json.Float (S754_finite s m e)) = Return (toward_zero s m e))
  /\ (forall raw span members s m e,
         brace_span raw span ->
         Json.loads span = Return (Json.Obj members) ->
         Json.dict_get members "score" (Json.Int 1)
         = Json.Float (S754_finite s m e) ->
         exists r, parse_model_json (Json.Str raw) = Return r
                   /\ score r = clamp (toward_zero s m e))
  /\ Json.loads (dq "{'score': 4.9}")
     = Return (Json.Obj [("score",
                          Json.Float (S754_finite false 5516909543528858 (-50)))])
  /\ toward_zero false 5516909543528858 (-50) = 4%Z
  /\ parse_model_json (Json.Str (dq "{'score': 4.9}")) = Return (mkResult 4 "" "")
  /\ parse_model_json (Json.Str (dq "{'score': 0.5}")) = Return (mkResult 1 "" "")
  /\ parse_model_json (Json.Str (dq "{'score': -3.7}")) = Return (mkResult 1 "" "")
  /\ parse_model_json (Json.Str (dq "{'score': 7.2}")) = Return (mkResult 5 "" "")
  /\ Conv.py_int (Json.Str "4") = Conv.py_int (Json.Int 4)
  /\ parse_model_json (Json.Str (dq "{'score': '4'}")) = Return (mkResult 4 "" "")
  /\ (forall n,
         (Z.abs n < 10 ^ 4300)%Z ->
         Conv.py_int (Json.Str (Conv.repr_int n)) = Return n
         /\ Conv.py_int (Json.Str (Conv.repr_int n)) = Conv.py_int (Json.Int n))
  /\ (forall raw span members n,
         (Z.abs n < 10 ^ 4300)%Z ->
         brace_span raw span ->
         Json.loads span = Return (Json.Obj members) ->
         Json.dict_get members "score" (Json.Int 1)
         = Json.Str (Conv.repr_int n) ->
         exists r, parse_model_json (Json.Str raw) = Return r
                   /\ score r = clamp n).
Proof.
  split; [|split].
  - intros s m e. apply int_of_float_toward_zero.
  - intros raw span members s m e Hspan Hl Hg.
    apply brace_span_found in Hspan. destruct Hspan as [Hs Htext].
    rewrite <- Htext in Hl.
    eexists. split.
    + apply (parse_model_json_text raw).
      apply (parse_model_text_returns raw members (toward_zero s m e) Hs Hl).
      rewrite Hg. apply int_of_float_toward_zero.
    + reflexivity.
  - do 8 (split; [vm_compute; reflexivity|]). split.
    + intros n Hn. cbn [Conv.py_int]. rewrite (int_of_repr n Hn).
      split; reflexivity.
    + intros raw span members n Hn Hspan Hl Hg.
      apply brace_span_found in Hspan. destruct Hspan as [Hs Htext].
      rewrite <- Htext in Hl.
      eexists. split.
      * apply (parse_model_json_text raw).
        apply (parse_model_text_returns raw members n Hs Hl).
        rewrite Hg. cbn [Conv.py_int]. now apply int_of_repr.
      * reflexivity.
Qed.

(* ===================================================================== *)
(** * Trimming and the transcript prefix *)
(* ===================================================================== *)

Lemma isspace_lower_char (c : ascii) :
  Py.isspace (Py.lower_char c) = Py.isspace c.
Proof.
  destruct c as [b0 b1 b2 b3 b4 b5 b6 b7].
  destruct b0, b1, b2, b3, b4, b5, b6, b7; vm_compute; reflexivity.
Qed.

Lemma lstrip_blank (ws s : string) :
  blank ws = true -> Py.lstrip (ws ++ s) = Py.lstrip s.
Proof.
  induction ws as [|c ws IH]; simpl; intros H; [reflexivity|].
  apply andb_prop in H. destruct H as [Hc Hws]. rewrite Hc. now apply IH.
Qed.

Lemma rstrip_blank_only (ws : string) : blank ws = true -> Py.rstrip ws = "".
Proof.
  induction ws as [|c ws IH]; simpl; intros H; [reflexivity|].
  apply andb_prop in H. destruct H as [Hc Hws]. now rewrite (IH Hws), Hc.
Qed.

Lemma rstrip_blank (s ws : string) :
  blank ws = true -> Py.rstrip (s ++ ws) = Py.rstrip s.
Proof.
  intros H. induction s as [|c s IH]; simpl.
  - now apply rstrip_blank_only.
  - now rewrite IH.
Qed.

Lemma rstrip_keeps_head (a : string) (c : ascii) (rest : string) :
  Py.isspace c = false ->
  Py.rstrip (a ++ String c rest) = (a ++ String c (Py.rstrip rest))%string.
Proof.
  intros Hc. induction a as [|d a IH]; simpl.
  - rewrite Hc. destruct (Py.rstrip rest); reflexivity.
  - rewrite IH. destruct a; reflexivity.
Qed.

Lemma rstrip_idempotent (s : string) : Py.rstrip (Py.rstrip s) = Py.rstrip s.
Proof.
  induction s as [|c s IH]; simpl; [reflexivity|].
  destruct (Py.rstrip s) as [|d r] eqn:E.
  - destruct (Py.isspace c) eqn:Hc; simpl; [reflexivity | now rewrite Hc].
  - simpl in *. now rewrite IH.
Qed.

Lemma lstrip_rstrip (s : string) :
  Py.lstrip (Py.rstrip s) = Py.rstrip (Py.lstrip s).
Proof.
  induction s as [|c s IH]; [reflexivity|].
  cbn [Py.lstrip Py.rstrip].
  destruct (Py.isspace c) eqn:Hc.
  - rewrite <- IH. destruct (Py.rstrip s) as [|d r]; [reflexivity|].
    cbn [Py.lstrip]. now rewrite Hc.
  - cbn [Py.rstrip]. rewrite Hc.
    destruct (Py.rstrip s) as [|d r]; cbn [Py.lstrip]; now rewrite Hc.
Qed.

Lemma strip_blank_around (ws1 s ws2 : string) :
  blank ws1 = true -> blank ws2 = true ->
  Py.strip (ws1 ++ s ++ ws2) = Py.strip s.
Proof.
  intros H1 H2. unfold Py.strip.
  rewrite lstrip_blank by assumption.
  rewrite <- !lstrip_rstrip. now rewrite rstrip_blank.
Qed.

Lemma strip_rstrip (s : string) : Py.strip (Py.rstrip s) = Py.strip s.
Proof. unfold Py.strip. now rewrite <- !lstrip_rstrip, rstrip_idempotent. Qed.

Lemma lower_eq_cut (q p : string) :
  Py.lower p = (q ++ ":")%string ->
  exists a, p = (a ++ ":")%string /\ Py.lower a = q.
Proof.
  revert p. induction q as [|qc q IH]; intros p H.
  - destruct p as [|c [|c' p]]; simpl in H; try discriminate.
    injection H as H. apply lower_char_colon in H. subst c.
    exists EmptyString. split; reflexivity.
  - destruct p as [|c p]; simpl in H; [discriminate|].
    injection H as Hc Hp.
    destruct (IH p Hp) as (a & -> & Ha).
    exists (String c a). split; [reflexivity|]. simpl. now rewrite Hc, Ha.
Qed.

(** Whatever follows a case variant of the prefix, and whatever blanks
    surround the whole, normalisation returns the trimmed remainder. *)
Lemma normalize_prefixed (ws1 p X ws2 : string) :
  Py.lower p = PREFIX -> blank ws1 = true -> blank ws2 = true ->
  normalize (ws1 ++ p ++ X ++ ws2) = Return (Py.strip X).
Proof.
  intros Hp H1 H2.
  destruct (lower_eq_cut "candidate says" p Hp) as (a & -> & Ha).
  assert (Hcolon : has_char ":" a = false).
  { rewrite <- has_char_colon_lower, Ha. reflexivity. }
  assert (Htxt : Py.strip (ws1 ++ (a ++ ":") ++ X ++ ws2)
                 = (a ++ String ":" (Py.rstrip X))%string).
  { unfold Py.strip. rewrite lstrip_blank by assumption.
    destruct a as [|c a]; [discriminate|].
    assert (Hc : Py.isspace c = false).
    { simpl in Ha. injection Ha as Hc _.
      rewrite <- isspace_lower_char, Hc. reflexivity. }
    cbn [append Py.lstrip]. rewrite Hc.
    change (String c ((a ++ ":") ++ X ++ ws2))%string
      with ((String c a ++ ":") ++ X ++ ws2)%string.
    rewrite append_assoc. cbn [append].
    change (String c (a ++ String ":" (X ++ ws2)))
      with (String c a ++ String ":" (X ++ ws2))%string.
    rewrite rstrip_keeps_head by reflexivity.
    now rewrite rstrip_blank. }
  unfold normalize. rewrite Htxt.
  assert (Hstart : Py.startswith (Py.lower (a ++ String ":" (Py.rstrip X)))
                     "candidate says:" = true).
  { rewrite lower_app, Ha. cbn [Py.lower].
    change (Py.lower_char ":") with ":"%char.
    apply (startswith_app "candidate says:" (Py.lower (Py.rstrip X))). }
  rewrite Hstart, split_once_cut by assumption.
  simpl. now rewrite strip_rstrip.
Qed.

Lemma normalize_bare (ws1 X ws2 : string) :
  blank ws1 = true -> blank ws2 = true ->
  has_prefix (Py.strip X) = false ->
  normalize (ws1 ++ X ++ ws2) = Return (Py.strip X).
Proof.
  intros H1 H2 HX. unfold normalize.
  rewrite strip_blank_around by assumption.
  unfold has_prefix, PREFIX in HX. now rewrite HX.
Qed.

Lemma evaluate_text_by_normal_form
  (settings : Config.Settings) (post : Request -> Exc Json.value)
  (a b : string) :
  normalize a = normalize b ->
  evaluate_text settings post a = evaluate_text settings post b.
Proof. intros H. unfold evaluate_text. now rewrite H. Qed.

(** C7, as amended.  Let [p] be the prefix in any letter case and let the
    answer [X] not itself start, once trimmed, with the prefix.  Then,
    whatever blanks surround either input, the prefixed answer and the
    bare answer are normalised to the same text, the trimmed [X], and
    [evaluate_text] returns the same on both. *)
Theorem prefix_is_normalised_away
  (settings : Config.Settings) (post : Request -> Exc Json.value)
  (p X ws1 ws2 ws3 ws4 : string)
  (Hp : Py.lower p = PREFIX)
  (H1 : blank ws1 = true) (H2 : blank ws2 = true)
  (H3 : blank ws3 = true) (H4 : blank ws4 = true)
  (HX : has_prefix (Py.strip X) = false) :
  normalize (ws1 ++ p ++ X ++ ws2) = Return (Py.strip X)
  /\ normalize (ws3 ++ X ++ ws4) = Return (Py.strip X)
  /\ evaluate_text settings post (ws1 ++ p ++ X ++ ws2)
     = evaluate_text settings post (ws3 ++ X ++ ws4).
Proof.
  pose proof (normalize_prefixed ws1 p X ws2 Hp H1 H2) as Na.
  pose proof (normalize_bare ws3 X ws4 H3 H4 HX) as Nb.
  split; [exact Na|]. split; [exact Nb|].
  apply evaluate_text_by_normal_form. congruence.
Qed.

(** C7 at a prefixed and a bare form of one answer, with the remote path
    enabled. *)
Lemma prefix_is_normalised_away_witness :
  Py.lower "Candidate Says:" = PREFIX
  /\ blank " " = true /\ blank "  " = true /\ blank "" = true /\ blank " " = true
  /\ has_prefix (Py.strip " I would shard the database.") = false
  /\ evaluate_text remote_settings
       (fun _ => Return (chat_reply (dq "{'score': 4, 'summary': 'Shards.', 'improvement': 'Say why.'}")))
       (" " ++ "Candidate Says:" ++ " I would shard the database." ++ "  ")
     = evaluate_text remote_settings
         (fun _ => Return (chat_reply (dq "{'score': 4, 'summary': 'Shards.', 'improvement': 'Say why.'}")))
         ("" ++ " I would shard the database." ++ " ").
Proof.
  repeat (split; [reflexivity|]).
  apply (prefix_is_normalised_away remote_settings _
           "Candidate Says:" " I would shard the database." " " "  " "" " ");
    reflexivity.
Defined.

(** Against C7 as stated: an answer that itself starts with the prefix
    loses it when it is evaluated bare, and keeps it when it is evaluated
    behind a prefix, because only one prefix is removed. *)
Lemma nested_prefix_counterexample :
  normalize ("Candidate says: " ++ "Candidate says: hello")
  = Return "Candidate says: hello"
  /\ normalize "Candidate says: hello" = Return "hello"
  /\ evaluate_text fallback_settings (fun _ => Raise (TransportError "unused"))
       ("Candidate says: " ++ "Candidate says: hello")
     = Return (mkResult 1 "Candidate says: hello"
                 "Be more specific and mention trade-offs or testing.")
  /\ evaluate_text fallback_settings (fun _ => Raise (TransportError "unused"))
       "Candidate says: hello"
     = Return (mkResult 1 "hello"
                 "Be more specific and mention trade-offs or testing.")
  /\ evaluate_text fallback_settings (fun _ => Raise (TransportError "unused"))
       ("Candidate says: " ++ "Candidate says: hello")
     <> evaluate_text fallback_settings (fun _ => Raise (TransportError "unused"))
          "Candidate says: hello".
Proof.
  repeat (split; [vm_compute; reflexivity|]).
  vm_compute. discriminate.
Qed.

(* ===================================================================== *)
(** * The heuristic scorer: tokens, key terms, thresholds *)
(* ===================================================================== *)

Lemma truthy_append_char (w : string) (c : ascii) :
  Py.truthy (w ++ String c "") = true.
Proof. destruct w; reflexivity. Qed.

Lemma split_from_length (word s : string) :
  List.length (Py.split_from word s)
  = ((if Py.truthy word then 1 else 0)
     + token_count (negb (Py.truthy word)) s)%nat.
Proof.
  revert word. induction s as [|c s IH]; intros word; simpl.
  - destruct (Py.truthy word); reflexivity.
  - destruct (Py.isspace c) eqn:Hc.
    + rewrite length_app, IH. simpl. rewrite andb_false_r.
      destruct (Py.truthy word); reflexivity.
    + rewrite IH, truthy_append_char. simpl.
      destruct (Py.truthy word); simpl; lia.
Qed.

(** [split] returns as many words as the text has runs of non-whitespace
    characters. *)
Lemma split_length (s : string) :
  List.length (Py.split s) = token_count true s.
Proof. unfold Py.split. now rewrite split_from_length. Qed.

Lemma isword_lower_char (c : ascii) :
  Py.isword (Py.lower_char c) = Py.isword c.
Proof.
  destruct c as [b0 b1 b2 b3 b4 b5 b6 b7].
  destruct b0, b1, b2, b3, b4, b5, b6, b7; vm_compute; reflexivity.
Qed.

Lemma ci_eq_spec (p c : ascii) :
  Re.ci_eq p c = true <-> Py.lower_char c = Py.lower_char p.
Proof.
  unfold Re.ci_eq. rewrite Ascii.eqb_eq. split; congruence.
Qed.

Lemma isword_head_lower (a b : string) :
  Py.lower a = Py.lower b ->
  Re.isword_opt (Re.head a) = Re.isword_opt (Re.head b).
Proof.
  destruct a as [|x a], b as [|y b]; simpl; intros H; try discriminate;
    [reflexivity|].
  injection H as H _.
  now rewrite <- (isword_lower_char x), H, isword_lower_char.
Qed.

Lemma isword_last_lower (a b : string) :
  Py.lower a = Py.lower b ->
  forall d e, Re.isword_opt d = Re.isword_opt e ->
  Re.isword_opt (last_or d a) = Re.isword_opt (last_or e b).
Proof.
  revert b. induction a as [|x a IH]; intros [|y b] H d e Hde; simpl in *;
    try discriminate; [exact Hde|].
  injection H as Hxy H. apply IH; [exact H|]. simpl.
  now rewrite <- (isword_lower_char x), Hxy, isword_lower_char.
Qed.

Lemma last_or_nonempty (d : option ascii) (c : ascii) (s : string) :
  last_or d (String c s) = last_or None (String c s).
Proof. reflexivity. Qed.

(** The literal followed by a word boundary. *)
Lemma match_literal_b_spec (k : string) :
  forall prev s,
    Re.match_literal_b prev k s = true
    <-> exists occurrence after,
          s = (occurrence ++ after)%string
          /\ Py.lower occurrence = Py.lower k
          /\ Re.at_boundary (last_or prev occurrence) (Re.head after) = true.
Proof.
  induction k as [|kc k IH]; intros prev s; simpl.
  - split.
    + intros H. exists EmptyString, s. auto.
    + intros (m & after & -> & Hm & Hb).
      destruct m; [exact Hb | discriminate].
  - destruct s as [|c r].
    + split; [discriminate|].
      intros (m & after & E & Hm & _). destruct m; discriminate.
    + rewrite andb_true_iff, ci_eq_spec, IH. split.
      * intros (Hc & m & after & -> & Hm & Hb).
        exists (String c m), after. simpl. rewrite Hc, Hm. auto.
      * intros (m & after & E & Hm & Hb).
        destruct m as [|x m]; [discriminate|].
        simpl in E, Hm, Hb. injection E as -> ->. injection Hm as Hc Hm.
        split; [exact Hc|]. exists m, after. auto.
Qed.

(** The scan over all starting positions. *)
Lemma search_from_spec (k : string) :
  forall s prev,
    Re.search_from prev k s = true
    <-> exists before occurrence after,
          s = (before ++ occurrence ++ after)%string
          /\ Py.lower occurrence = Py.lower k
          /\ Re.at_boundary (last_or prev before)
               (Re.head (occurrence ++ after)) = true
          /\ Re.at_boundary (last_or (last_or prev before) occurrence)
               (Re.head after) = true.
Proof.
  induction s as [|c s IH]; intros prev.
  - cbn [Re.search_from]. rewrite orb_false_r, andb_true_iff, match_literal_b_spec.
    split.
    + intros (Hb & m & after & E & Hm & Ha).
      exists EmptyString, m, after. simpl. rewrite <- E. auto.
    + intros (before & m & after & E & Hm & Hb & Ha).
      destruct before; [|discriminate]. simpl in *.
      rewrite <- E in Hb. split; [exact Hb|]. exists m, after. auto.
  - cbn [Re.search_from]. rewrite orb_true_iff, andb_true_iff, match_literal_b_spec, IH.
    split.
    + intros [(Hb & m & after & E & Hm & Ha) | (before & m & after & E & Hm & Hb & Ha)].
      * exists EmptyString, m, after. simpl. rewrite <- E. auto.
      * exists (String c before), m, after. simpl. rewrite E. auto.
    + intros (before & m & after & E & Hm & Hb & Ha).
      destruct before as [|x before]; simpl in *.
      * left. rewrite <- E in Hb. split; [exact Hb|]. exists m, after. auto.
      * injection E as -> E. right. exists before, m, after. auto.
Qed.

(** For a key term that starts and ends with a word character, the
    regular expression finds exactly the whole-word occurrences. *)
Lemma search_word_spec (k text : string) :
  wordlike k = true ->
  (Re.search_word k text = true <-> whole_word_hit k text).
Proof.
  intros Hk. unfold wordlike in Hk. apply andb_prop in Hk.
  destruct Hk as [Hhead Hlast].
  assert (Hends : forall m d, Py.lower m = Py.lower k ->
            Re.isword_opt (Re.head m) = true
            /\ Re.isword_opt (last_or d m) = true
            /\ forall after, Re.head (m ++ after) = Re.head m).
  { intros m d Hm. split; [|split].
    - now rewrite (isword_head_lower m k Hm).
    - destruct m as [|x m], k as [|y k]; try discriminate.
      rewrite last_or_nonempty. unfold last_char in Hlast.
      now rewrite (isword_last_lower _ _ Hm None None eq_refl).
    - destruct m as [|x m], k as [|y k]; try discriminate. reflexivity. }
  unfold Re.search_word, whole_word_hit. rewrite search_from_spec.
  split.
  - intros (before & m & after & E & Hm & Hb & Ha).
    destruct (Hends m (last_or None before) Hm) as (H1 & H2 & H3).
    exists before, m, after. repeat split; trivial.
    + unfold Re.at_boundary in Hb. rewrite H3, H1 in Hb.
      unfold last_char. destruct (Re.isword_opt (last_or None before));
        [discriminate | reflexivity].
    + unfold Re.at_boundary in Ha. rewrite H2 in Ha.
      destruct (Re.isword_opt (Re.head after)); [discriminate | reflexivity].
  - intros (before & m & after & E & Hm & Hb & Ha).
    destruct (Hends m (last_or None before) Hm) as (H1 & H2 & H3).
    exists before, m, after. repeat split; trivial.
    + unfold Re.at_boundary. rewrite H3, H1. unfold last_char in Hb.
      now rewrite Hb.
    + unfold Re.at_boundary. now rewrite H2, Ha.
Qed.

Lemma key_terms_wordlike : forallb wordlike KEY_TERMS = true.
Proof. vm_compute. reflexivity. Qed.

Lemma key_terms_distinct : NoDup KEY_TERMS.
Proof.
  unfold KEY_TERMS.
  repeat (constructor; [simpl; intuition discriminate|]). constructor.
Qed.

Lemma two_members_length {A : Type} (l : list A) (x y : A) :
  In x l -> In y l -> x <> y -> (2 <= List.length l)%nat.
Proof.
  destruct l as [|a [|b l]]; simpl; intros Hx Hy Hne.
  - contradiction.
  - destruct Hx as [<-|[]], Hy as [<-|[]]. now elim Hne.
  - lia.
Qed.

Lemma threshold_score_rule (length hits : nat) :
  first_match (score_rules length hits) (threshold_score length hits).
Proof.
  unfold threshold_score, score_rules.
  destruct (Nat.leb_spec 80 length), (Nat.leb_spec 2 hits),
    (Nat.leb_spec 50 length), (Nat.leb_spec 1 hits),
    (Nat.leb_spec 25 length), (Nat.leb_spec 10 length); simpl;
    repeat first [ apply match_here; lia | apply match_here; exact I
                 | apply match_later; [lia|] ].
Qed.

Lemma first_match_functional (rules : list (Prop * Z)) (a b : Z) :
  first_match rules a -> first_match rules b -> a = b.
Proof.
  intros Ha. revert b. induction Ha as [c v later Hc | c v w later Hc Ha IH];
    intros b Hb; inversion Hb; subst; try reflexivity; try contradiction.
  now apply IH.
Qed.

Lemma fallback_score_value (answer : string) :
  Py.strip answer <> "" ->
  score (fallback_score_and_text answer)
  = threshold_score (List.length (Py.split (Py.strip answer)))
      (keyword_count (Py.strip answer)).
Proof.
  intros H. unfold fallback_score_and_text.
  destruct (Py.strip answer) as [|c r] eqn:E; [now elim H|]. reflexivity.
Qed.

(** C5.  On an answer that is not empty once trimmed, the heuristic score
    follows the first matching rule of the specification, where the length
    is the number of whitespace-delimited tokens of the trimmed text and
    the hits are the key terms that occur in it as whole words, letter
    case aside, each counted once.  In particular 80 tokens or more and
    two different key terms give exactly 5. *)
Theorem heuristic_score_by_first_match (answer : string)
  (Hne : Py.strip answer <> "") :
  let text := Py.strip answer in
  let hit_terms := filter (fun k => Re.search_word k text) KEY_TERMS in
  let length := token_count true text in
  let hits := List.length hit_terms in
  List.length (Py.split text) = length
  /\ keyword_count text = hits
  /\ NoDup hit_terms
  /\ (forall k, In k hit_terms <-> In k KEY_TERMS /\ whole_word_hit k text)
  /\ first_match (score_rules length hits)
       (score (fallback_score_and_text answer))
  /\ (forall s, first_match (score_rules length hits) s ->
                score (fallback_score_and_text answer) = s)
  /\ ((80 <= length)%nat ->
      (exists k1 k2,
          In k1 KEY_TERMS /\ In k2 KEY_TERMS /\ k1 <> k2
          /\ whole_word_hit k1 text /\ whole_word_hit k2 text) ->
      score (fallback_score_and_text answer) = 5%Z).
Proof.
  intros text hit_terms length hits.
  assert (Hmem : forall k, In k hit_terms <-> In k KEY_TERMS /\ whole_word_hit k text).
  { intros k. unfold hit_terms. rewrite filter_In. split.
    - intros [Hin Hs]. split; [exact Hin|].
      apply search_word_spec; [|exact Hs].
      pose proof key_terms_wordlike as W. rewrite forallb_forall in W. now apply W.
    - intros [Hin Hw]. split; [exact Hin|].
      apply search_word_spec; [|exact Hw].
      pose proof key_terms_wordlike as W. rewrite forallb_forall in W. now apply W. }
  assert (Hscore : score (fallback_score_and_text answer)
                   = threshold_score length hits).
  { rewrite fallback_score_value by assumption.
    unfold length, hits, hit_terms, keyword_count, text.
    now rewrite split_length. }
  assert (Hrule : first_match (score_rules length hits)
                    (score (fallback_score_and_text answer))).
  { rewrite Hscore. apply threshold_score_rule. }
  split; [apply split_length|]. split; [reflexivity|].
  split; [apply NoDup_filter, key_terms_distinct|].
  split; [exact Hmem|]. split; [exact Hrule|]. split.
  - intros s Hs. eapply first_match_functional; eauto.
  - intros Hlen (k1 & k2 & Hk1 & Hk2 & Hd & Hw1 & Hw2).
    eapply first_match_functional; [exact Hrule|].
    apply match_here. split; [exact Hlen|].
    apply (two_members_length hit_terms k1 k2); [apply Hmem | apply Hmem | exact Hd];
      auto.
Qed.

(** C5 at an answer of 84 words that mentions design and test. *)
Lemma heuristic_score_by_first_match_witness :
  Py.strip long_answer <> ""
  /\ (80 <= token_count true (Py.strip long_answer))%nat
  /\ whole_word_hit "design" (Py.strip long_answer)
  /\ whole_word_hit "test" (Py.strip long_answer)
  /\ score (fallback_score_and_text long_answer) = 5%Z.
Proof.
  assert (Hne : Py.strip long_answer <> "") by (vm_compute; discriminate).
  assert (Hlen : (80 <= token_count true (Py.strip long_answer))%nat).
  { apply Nat.leb_le. vm_compute. reflexivity. }
  assert (Hd : whole_word_hit "design" (Py.strip long_answer)).
  { apply search_word_spec; vm_compute; reflexivity. }
  assert (Ht : whole_word_hit "test" (Py.strip long_answer)).
  { apply search_word_spec; vm_compute; reflexivity. }
  repeat (split; [assumption|]).
  apply (heuristic_score_by_first_match long_answer Hne); [exact Hlen|].
  exists "design", "test". repeat split; trivial.
  - simpl. tauto.
  - simpl. tauto.
  - discriminate.
Defined.

(* ===================================================================== *)
(** * The decoder always terminates within its fuel *)
(* ===================================================================== *)

Lemma skip_ws_length (s : string) :
  (String.length (Json.skip_ws s) <= String.length s)%nat.
Proof.
  induction s as [|c s IH]; simpl; [lia|].
  destruct (Json.is_ws c); simpl; lia.
Qed.

Lemma skip_ws_cons (s : string) (c : ascii) (r : string) :
  Json.skip_ws s = String c r -> (String.length r < String.length s)%nat.
Proof.
  intros H. pose proof (skip_ws_length s) as L. rewrite H in L. simpl in L. lia.
Qed.

Lemma scanstring_shrinks_within (n : nat) :
  forall s t rest,
    (String.length s <= n)%nat ->
    Json.scanstring s = Some (t, rest) ->
    (String.length rest < String.length s)%nat.
Proof.
  induction n as [|n IH]; intros s t rest L H;
    (destruct s as [|c r]; [discriminate|]); simpl in L; [lia|].
  cbn [Json.scanstring] in H.
  repeat match type of H with
         | context [match ?x with _ => _ end] =>
             match x with
             | Json.scanstring ?u =>
                 let E := fresh "E" in
                 destruct x as [[? ?]|] eqn:E; [|discriminate H];
                 apply IH in E; [|simpl in *; lia]
             | _ => destruct x eqn:?; try discriminate H
             end
         end;
    injection H as <- <-; simpl in *; lia.
Qed.

Lemma scanstring_shrinks (s t rest : string) :
  Json.scanstring s = Some (t, rest) ->
  (String.length rest < String.length s)%nat.
Proof. apply (scanstring_shrinks_within (String.length s)). lia. Qed.

Lemma span_digits_length (s ds rest : string) :
  Json.span_digits s = (ds, rest) ->
  (String.length ds + String.length rest = String.length s)%nat.
Proof.
  revert ds rest. induction s as [|c s IH]; simpl; intros ds rest H.
  - injection H as <- <-. reflexivity.
  - destruct (Json.is_digit c).
    + destruct (Json.span_digits s) as [ds' rest'] eqn:E.
      injection H as <- <-. simpl. specialize (IH _ _ eq_refl). lia.
    + injection H as <- <-. reflexivity.
Qed.

Lemma span_integer_shrinks (s ds rest : string) :
  Json.span_integer s = Some (ds, rest) ->
  (String.length rest < String.length s)%nat.
Proof.
  unfold Json.span_integer. destruct s as [|c r]; [discriminate|].
  destruct (Ascii.eqb c "0").
  - intros H. injection H as <- <-. simpl. lia.
  - destruct (Json.is_digit c) eqn:Hd; [|discriminate].
    intros H. injection H as H. simpl in H. rewrite Hd in H.
    destruct (Json.span_digits r) as [ds' rest'] eqn:E.
    injection H as <- <-. apply span_digits_length in E. simpl. lia.
Qed.

Lemma span_fraction_shrinks (s ds rest : string) :
  Json.span_fraction s = Some (ds, rest) ->
  (String.length rest < String.length s)%nat.
Proof.
  unfold Json.span_fraction. destruct s as [|c r]; [discriminate|].
  destruct (Ascii.eqb c "."); [|discriminate].
  destruct (Json.span_digits r) as [[|d ds'] rest'] eqn:E; [discriminate|].
  intros H. injection H as <- <-. apply span_digits_length in E. simpl in *. lia.
Qed.

Lemma span_exponent_shrinks (s : string) (e : Z) (rest : string) :
  Json.span_exponent s = Some (e, rest) ->
  (String.length rest < String.length s)%nat.
Proof.
  unfold Json.span_exponent. destruct s as [|c r]; [discriminate|].
  destruct (_ || _); [|discriminate].
  set (p := match r with EmptyString => _ | String _ _ => _ end).
  assert (L : (String.length (snd p) <= String.length r)%nat).
  { subst p. destruct r as [|sg r']; [simpl; lia|].
    destruct (Ascii.eqb sg "-"); [simpl; lia|].
    destruct (Ascii.eqb sg "+"); simpl; lia. }
  destruct p as [neg r1]. simpl in L.
  destruct (Json.span_digits r1) as [[|d ds'] rest'] eqn:E'; [discriminate|].
  intros H. injection H as _ <-. apply span_digits_length in E'. simpl in *. lia.
Qed.

Lemma match_number_shrinks (s : string) (v : Json.value) (rest : string) :
  Json.match_number s = Some (v, rest) ->
  (String.length rest < String.length s)%nat.
Proof.
  unfold Json.match_number.
  set (p := match s with EmptyString => _ | String _ _ => _ end).
  assert (L : (String.length (snd p) <= String.length s)%nat).
  { subst p. destruct s as [|c r]; [simpl; lia|].
    destruct (Ascii.eqb c "-"); simpl; lia. }
  destruct p as [neg s1]. simpl in L.
  destruct (Json.span_integer s1) as [[ds s2]|] eqn:Ei; [|discriminate].
  apply span_integer_shrinks in Ei.
  set (p3 := match Json.span_fraction s2 with Some _ => _ | None => _ end).
  assert (L3 : (String.length (snd p3) <= String.length s2)%nat).
  { subst p3. destruct (Json.span_fraction s2) as [[d r]|] eqn:Ef; simpl; [|lia].
    apply span_fraction_shrinks in Ef. lia. }
  destruct p3 as [fr s3]. simpl in L3.
  set (p4 := match Json.span_exponent s3 with Some _ => _ | None => _ end).
  assert (L4 : (String.length (snd p4) <= String.length s3)%nat).
  { subst p4. destruct (Json.span_exponent s3) as [[e r]|] eqn:Ee; simpl; [|lia].
    apply span_exponent_shrinks in Ee. lia. }
  destruct p4 as [ex s4]. simpl in L4.
  destruct fr, ex; try (intros H; injection H as _ <-; lia).
  destruct (_ <? _)%N; [discriminate|].
  intros H. injection H as _ <-. lia.
Qed.

Lemma startswith_length (s p : string) :
  Py.startswith s p = true -> (String.length p <= String.length s)%nat.
Proof.
  revert s. induction p as [|c p IH]; intros s H; simpl; [lia|].
  destruct s as [|d s]; simpl in H; [discriminate|].
  apply andb_prop in H. destruct H as [_ H]. apply IH in H. simpl. lia.
Qed.

Lemma substring_length (n m : nat) (s : string) :
  (String.length (substring n m s) <= m)%nat.
Proof.
  revert n m. induction s as [|c s IH]; intros [|n] [|m]; simpl; try lia.
  - specialize (IH 0%nat m). lia.
  - apply (IH n 0%nat).
  - apply (IH n (S m)).
Qed.

Ltac note_lengths :=
  repeat match goal with
         | H : Json.scanstring _ = Some _ |- _ => apply scanstring_shrinks in H
         | H : Json.skip_ws _ = String _ _ |- _ => apply skip_ws_cons in H
         | H : Json.match_number _ = Some _ |- _ => apply match_number_shrinks in H
         | H : Py.startswith ?s ?p = true |- _ =>
             apply startswith_length in H
         end.

Ltac note_skips :=
  repeat match goal with
         | |- context [Json.skip_ws ?s] =>
             lazymatch goal with
             | _ : (String.length (Json.skip_ws s) <= String.length s)%nat |- _ => fail
             | _ => pose proof (skip_ws_length s)
             end
         | _ : context [Json.skip_ws ?s] |- _ =>
             lazymatch goal with
             | _ : (String.length (Json.skip_ws s) <= String.length s)%nat |- _ => fail
             | _ => pose proof (skip_ws_length s)
             end
         end.

Ltac note_scans Hs :=
  repeat match goal with
         | E : Json.scan_once _ _ = Json.Done _ _ |- _ => apply Hs in E
         end.

Lemma drop_length (n : nat) (s : string) :
  (String.length (Json.drop n s) <= String.length s - n)%nat.
Proof. unfold Json.drop. apply substring_length. Qed.

(** What a scan returns is shorter than what it was given. *)
Lemma scan_shrinks (fuel : nat) :
  (forall s v rest,
      Json.scan_once fuel s = Json.Done v rest ->
      (String.length rest < String.length s)%nat)
  /\ (forall s pairs v rest,
         Json.members fuel s pairs = Json.Done v rest ->
         (String.length rest < String.length s)%nat)
  /\ (forall s values v rest,
         Json.elements fuel s values = Json.Done v rest ->
         (String.length rest < String.length s)%nat).
Proof.
  induction fuel as [|fuel (IHs & IHm & IHe)];
    [repeat split; intros; discriminate|].
  assert (Hs : forall s v rest,
             Json.scan_once fuel s = Json.Done v rest ->
             (String.length rest < String.length s)%nat) by exact IHs.
  split; [|split].
  - intros s v rest H. cbn [Json.scan_once] in H.
    destruct s as [|c r]; [discriminate|].
    split_scan H;
      try (injection H as <- <-);
      try (apply IHm in H); try (apply IHe in H);
      note_lengths;
      try match goal with
          | |- context [Json.drop ?n ?s] => pose proof (drop_length n s)
          end;
      cbn [String.length] in *; lia.
  - intros s pairs v rest H. cbn [Json.members] in H.
    split_scan H;
      try (injection H as <- <-); try (apply IHm in H);
      note_scans Hs; note_skips; note_lengths; cbn [String.length] in *; lia.
  - intros s values v rest H. cbn [Json.elements] in H.
    split_scan H;
      try (injection H as <- <-); try (apply IHe in H);
      note_scans Hs; note_skips; note_lengths; cbn [String.length] in *; lia.
Qed.

Lemma scan_once_shrinks (fuel : nat) (s : string) (v : Json.value) (rest : string) :
  Json.scan_once fuel s = Json.Done v rest ->
  (String.length rest < String.length s)%nat.
Proof. apply scan_shrinks. Qed.

(** A fuel above twice the length of the text is never used up. *)
Lemma scan_has_fuel (fuel : nat) :
  (forall s,
      (2 * String.length s < fuel)%nat ->
      Json.scan_once fuel s <> Json.OutOfFuel)
  /\ (forall s pairs,
         (2 * String.length s < fuel)%nat ->
         Json.members fuel s pairs <> Json.OutOfFuel)
  /\ (forall s values,
         (2 * String.length s + 1 < fuel)%nat ->
         Json.elements fuel s values <> Json.OutOfFuel).
Proof.
  induction fuel as [|fuel (IHs & IHm & IHe)];
    [repeat split; intros; lia|].
  pose proof (scan_once_shrinks fuel) as Hs.
  split; [|split].
  - intros s L H. cbn [Json.scan_once] in H.
    destruct s as [|c r]; [discriminate|].
    split_scan H;
      first [ apply IHm in H | apply IHe in H ]; trivial;
      note_lengths; cbn [String.length] in *; lia.
  - intros s pairs L H. cbn [Json.members] in H.
    split_scan H; note_scans Hs;
      match goal with
      | E : Json.scan_once fuel _ = Json.OutOfFuel |- _ =>
          apply IHs in E; [contradiction|]
      | _ => apply IHm in H; [contradiction|]
      end;
      note_skips; note_lengths; cbn [String.length] in *; lia.
  - intros s values L H. cbn [Json.elements] in H.
    split_scan H; note_scans Hs;
      match goal with
      | E : Json.scan_once fuel _ = Json.OutOfFuel |- _ =>
          apply IHs in E; [contradiction|]
      | _ => apply IHe in H; [contradiction|]
      end;
      note_skips; note_lengths; cbn [String.length] in *; lia.
Qed.

(** The decoder is total: on every text it either returns a value or
    rejects the text. *)
Lemma decode_is_total (s : string) :
  (exists v, Json.decode s = Json.Done v "") \/ Json.decode s = Json.Fail.
Proof.
  unfold Json.decode.
  destruct (Json.scan_once _ _) as [v rest| |] eqn:E.
  - destruct (Json.skip_ws rest); eauto.
  - now right.
  - exfalso. revert E. apply (proj1 (scan_has_fuel _)). lia.
Qed.

Lemma loads_is_total (s : string) :
  (exists v, Json.loads s = Return v) \/ Json.loads s = Raise JSONDecodeError.
Proof.
  unfold Json.loads. destruct (decode_is_total s) as [[v ->] | ->]; eauto.
Qed.

(* ===================================================================== *)
(** * Trimmed results, irrelevant whitespace, the heuristic summary *)
(* ===================================================================== *)

Lemma lstrip_idempotent (s : string) : Py.lstrip (Py.lstrip s) = Py.lstrip s.
Proof.
  induction s as [|c s IH]; simpl; [reflexivity|].
  destruct (Py.isspace c) eqn:Hc; [exact IH|]. simpl. now rewrite Hc.
Qed.

Lemma strip_idempotent (s : string) : Py.strip (Py.strip s) = Py.strip s.
Proof.
  unfold Py.strip.
  rewrite (lstrip_rstrip (Py.lstrip s)), lstrip_idempotent.
  apply rstrip_idempotent.
Qed.

Lemma lstrip_head (s : string) :
  nonspace_opt (Re.head s) = true -> Py.lstrip s = s.
Proof.
  destruct s as [|c r]; simpl; [reflexivity|].
  intros H. apply negb_true_iff in H. now rewrite H.
Qed.

Lemma rstrip_last (s : string) :
  nonspace_opt (last_char s) = true -> Py.rstrip s = s.
Proof.
  unfold last_char. induction s as [|c s IH]; [reflexivity|].
  cbn [last_or Py.rstrip]. intros H. destruct s as [|d s].
  - simpl in *. apply negb_true_iff in H. now rewrite H.
  - rewrite IH by exact H. reflexivity.
Qed.

Lemma strip_fixed (s : string) :
  nonspace_opt (Re.head s) = true -> nonspace_opt (last_char s) = true ->
  Py.strip s = s.
Proof. intros H1 H2. unfold Py.strip. now rewrite lstrip_head, rstrip_last. Qed.

Lemma last_or_append (d : option ascii) (a b : string) :
  last_or d (a ++ b) = last_or (last_or d a) b.
Proof. revert d. induction a as [|c a IH]; intros d; simpl; [reflexivity | apply IH]. Qed.

Lemma last_or_word (d : option ascii) (w : string) :
  is_word w = true -> nonspace_opt (last_or d w) = true.
Proof.
  unfold is_word. intros H. apply andb_prop in H. destruct H as [Ht Hn].
  destruct w as [|c w]; [discriminate|]. clear Ht. revert c Hn d.
  induction w as [|e w IH]; intros c Hn d; simpl in *.
  - now rewrite andb_true_r in Hn.
  - apply andb_prop in Hn. destruct Hn as [_ Hn]. now apply IH.
Qed.

Lemma head_word (w rest : string) :
  is_word w = true -> nonspace_opt (Re.head (w ++ rest)) = true.
Proof.
  unfold is_word. destruct w as [|c w]; simpl; [discriminate|].
  intros H. now apply andb_prop in H.
Qed.

(** What [split] returns are words. *)
Lemma split_from_words (s : string) :
  forall word, no_space word = true ->
    Forall (fun w => is_word w = true) (Py.split_from word s).
Proof.
  assert (Hns : forall w c, no_space w = true -> Py.isspace c = false ->
                            no_space (w ++ String c "") = true).
  { induction w as [|d w IH]; simpl; intros c Hw Hc.
    - now rewrite Hc.
    - apply andb_prop in Hw. destruct Hw as [Hd Hw]. now rewrite Hd, IH. }
  induction s as [|c s IH]; intros word Hw; simpl.
  - destruct (Py.truthy word) eqn:Ht; constructor; [|constructor].
    unfold is_word. now rewrite Ht, Hw.
  - destruct (Py.isspace c) eqn:Hc.
    + apply Forall_app. split; [|now apply IH].
      destruct (Py.truthy word) eqn:Ht; constructor; [|constructor].
      unfold is_word. now rewrite Ht, Hw.
    + apply IH. now apply Hns.
Qed.

Lemma split_words (s : string) : Forall (fun w => is_word w = true) (Py.split s).
Proof. now apply split_from_words. Qed.

Lemma join_head (w : string) (ws : list string) (sfx : string) :
  is_word w = true ->
  nonspace_opt (Re.head (Py.join " " (w :: ws) ++ sfx)) = true.
Proof.
  intros H. destruct ws as [|w' ws]; cbn [Py.join].
  - now apply head_word.
  - rewrite append_assoc. now apply head_word.
Qed.

Lemma join_last (ws : list string) :
  forall w d, Forall (fun w => is_word w = true) (w :: ws) ->
    nonspace_opt (last_or d (Py.join " " (w :: ws))) = true.
Proof.
  induction ws as [|w' ws IH]; intros w d H; cbn [Py.join].
  - apply last_or_word. now inversion H.
  - rewrite !last_or_append. apply IH. now inversion H.
Qed.

Lemma firstn_words (n : nat) (ws : list string) :
  Forall (fun w => is_word w = true) ws ->
  Forall (fun w => is_word w = true) (firstn n ws).
Proof.
  intros H. revert n. induction H; intros [|n]; simpl; constructor; auto.
Qed.

(** The summary of the heuristic scorer is trimmed. *)
Lemma heuristic_summary_trimmed (ws : list string) (sfx : string) :
  Forall (fun w => is_word w = true) ws ->
  sfx = "" \/ sfx = "..." ->
  Py.strip (Py.join " " ws ++ sfx) = (Py.join " " ws ++ sfx)%string.
Proof.
  intros Hws Hs. destruct ws as [|w ws].
  - destruct Hs as [-> | ->]; reflexivity.
  - apply strip_fixed.
    + apply join_head. now inversion Hws.
    + unfold last_char. rewrite last_or_append.
      destruct Hs as [-> | ->]; simpl; [|reflexivity].
      now apply join_last.
Qed.


Lemma lstrip_head_nonspace (s : string) :
  nonspace_opt (Re.head (Py.lstrip s)) = true.
Proof.
  induction s as [|c s IH]; simpl; [reflexivity|].
  destruct (Py.isspace c) eqn:Hc; [exact IH|]. simpl. now rewrite Hc.
Qed.

Lemma rstrip_head (t : string) :
  Re.head (Py.rstrip t) = None \/ Re.head (Py.rstrip t) = Re.head t.
Proof.
  destruct t as [|c t]; simpl; [now left|].
  destruct (Py.rstrip t); [destruct (Py.isspace c)|]; simpl; auto.
Qed.

Lemma strip_head_nonspace (s : string) :
  nonspace_opt (Re.head (Py.strip s)) = true.
Proof.
  unfold Py.strip. destruct (rstrip_head (Py.lstrip s)) as [-> | ->];
    [reflexivity | apply lstrip_head_nonspace].
Qed.

Lemma fallback_trimmed (answer : string) :
  Py.strip (summary (fallback_score_and_text answer))
  = summary (fallback_score_and_text answer)
  /\ Py.strip (improvement (fallback_score_and_text answer))
     = improvement (fallback_score_and_text answer).
Proof.
  unfold fallback_score_and_text.
  destruct (negb (Py.truthy (Py.strip answer))); cbn [summary improvement].
  - split; reflexivity.
  - split.
    + apply heuristic_summary_trimmed.
      * apply firstn_words, split_words.
      * destruct (_ <? _)%nat; auto.
    + destruct (_ <? _)%Z; reflexivity.
Qed.

Lemma parse_trimmed (raw : Json.value) (r : EvaluationResult) :
  parse_model_json raw = Return r ->
  Py.strip (summary r) = summary r /\ Py.strip (improvement r) = improvement r.
Proof.
  unfold parse_model_json. destruct (negb (Dyn.truthy raw)); [discriminate|].
  destruct raw; try discriminate. intros H.
  destruct (parse_model_text_spec s) as [_ Hv].
  destruct (Hv r H) as (span & members & n & _ & _ & _ & _ & _ & _ & -> & -> & _).
  split; apply strip_idempotent.
Qed.

(** X1.  Through every path, heuristic or remote, the summary and the
    improvement that [evaluate_text] returns carry no leading and no
    trailing whitespace: trimming them again changes nothing. *)
Theorem result_texts_are_trimmed
  (settings : Config.Settings) (post : Request -> Exc Json.value)
  (answer : string) :
  exists r,
    evaluate_text settings post answer = Return r
    /\ Py.strip (summary r) = summary r
    /\ Py.strip (improvement r) = improvement r.
Proof.
  destruct (normalize_total answer) as [txt Hn].
  destruct (evaluate_text_cases settings post answer txt Hn)
    as [H | (raw & r & _ & _ & Hp & H)].
  - eexists. split; [exact H|]. apply fallback_trimmed.
  - exists r. split; [exact H|]. eapply parse_trimmed; eauto.
Qed.

Lemma normalize_trimmed (answer : string) :
  exists txt, normalize answer = Return txt /\ Py.strip txt = txt.
Proof.
  unfold normalize.
  destruct (Py.startswith (Py.lower (Py.strip answer)) "candidate says:") eqn:E.
  - destruct (has_prefix_cut _ E) as (a & b & _ & _ & Hs).
    rewrite Hs. simpl. eexists. split; [reflexivity | apply strip_idempotent].
  - eexists. split; [reflexivity | apply strip_idempotent].
Qed.

Lemma normalize_blank_around (ws1 a ws2 : string) :
  blank ws1 = true -> blank ws2 = true ->
  normalize (ws1 ++ a ++ ws2) = normalize a.
Proof.
  intros H1 H2. unfold normalize. now rewrite strip_blank_around.
Qed.

(** X2.  Whitespace around an answer is irrelevant, whatever the answer is
    (with or without the prefix): [evaluate_text] and the heuristic scorer
    return the same on the padded and on the bare answer, and both are
    normalised to one text, which is itself trimmed. *)
Theorem surrounding_whitespace_is_irrelevant
  (settings : Config.Settings) (post : Request -> Exc Json.value)
  (ws1 answer ws2 : string)
  (H1 : blank ws1 = true) (H2 : blank ws2 = true) :
  evaluate_text settings post (ws1 ++ answer ++ ws2)
  = evaluate_text settings post answer
  /\ fallback_score_and_text (ws1 ++ answer ++ ws2)
     = fallback_score_and_text answer
  /\ exists txt,
       normalize (ws1 ++ answer ++ ws2) = Return txt
       /\ normalize answer = Return txt
       /\ Py.strip txt = txt.
Proof.
  pose proof (normalize_blank_around ws1 answer ws2 H1 H2) as Hn.
  split; [now apply evaluate_text_by_normal_form|]. split.
  - unfold fallback_score_and_text. now rewrite strip_blank_around.
  - destruct (normalize_trimmed answer) as (txt & Ht & Hs).
    exists txt. rewrite Hn. auto.
Qed.

(** X2 at a padded answer that carries the prefix. *)
Lemma surrounding_whitespace_is_irrelevant_witness :
  blank "  " = true /\ blank " " = true
  /\ evaluate_text fallback_settings (fun _ => Raise (TransportError "unused"))
       ("  " ++ "Candidate says: retry with a queue." ++ " ")
     = evaluate_text fallback_settings (fun _ => Raise (TransportError "unused"))
         "Candidate says: retry with a queue.".
Proof.
  split; [reflexivity|]. split; [reflexivity|].
  exact (proj1 (surrounding_whitespace_is_irrelevant fallback_settings
                  (fun _ => Raise (TransportError "unused"))
                  "  " "Candidate says: retry with a queue." " "
                  eq_refl eq_refl)).
Defined.


Lemma first_piece_cut (s : string) :
  forall prev, exists rest,
    s = (Re.first_piece_from prev s ++ rest)%string
    /\ nonspace_opt (Re.head rest) = false \/ 
       s = Re.first_piece_from prev s.
Proof.
  induction s as [|c s IH]; intros prev.
  - exists EmptyString. right. reflexivity.
  - cbn [Re.first_piece_from].
    destruct (Py.isspace c && Re.is_terminator prev) eqn:E.
    + exists (String c s). left. split; [reflexivity|].
      apply andb_prop in E. destruct E as [E _]. simpl. now rewrite E.
    + destruct (IH (Some c)) as [rest [[H1 H2] | H]].
      * exists rest. left. split; [|exact H2]. simpl. now rewrite <- H1.
      * exists EmptyString. right. now rewrite <- H.
Qed.

Lemma split_from_app_space (p : string) (c : ascii) (r : string) :
  Py.isspace c = true ->
  forall acc,
    Py.split_from acc (p ++ String c r)
    = Py.split_from acc p ++ Py.split_from "" r.
Proof.
  intros Hc. induction p as [|d p IH]; intros acc; simpl.
  - rewrite Hc. reflexivity.
  - destruct (Py.isspace d).
    + rewrite IH, app_assoc. reflexivity.
    + apply IH.
Qed.

(** The words of the first sentence are the leading words of the text. *)
Lemma first_piece_words (text : string) :
  exists more, Py.split text = Py.split (Re.first_piece text) ++ more.
Proof.
  unfold Re.first_piece, Py.split.
  destruct (first_piece_cut text None) as [rest [[H1 H2] | H]].
  - destruct rest as [|c r]; [discriminate|]. simpl in H2.
    apply negb_false_iff in H2.
    exists (Py.split_from "" r).
    rewrite H1 at 1. now apply split_from_app_space.
  - exists []. rewrite <- H. now rewrite app_nil_r.
Qed.

Lemma split_from_word (w s : string) :
  no_space w = true ->
  forall acc, Py.split_from acc (w ++ s) = Py.split_from (acc ++ w) s.
Proof.
  induction w as [|c w IH]; intros Hw acc.
  - simpl. now rewrite append_empty_r.
  - simpl in Hw. apply andb_prop in Hw. destruct Hw as [Hc Hw].
    apply negb_true_iff in Hc. cbn [append Py.split_from]. rewrite Hc.
    rewrite IH by assumption. f_equal.
    rewrite append_assoc. reflexivity.
Qed.

Lemma split_from_end (acc sfx : string) :
  Py.truthy acc = true -> no_space sfx = true ->
  Py.split_from acc sfx = [(acc ++ sfx)%string].
Proof.
  intros Ha Hs. rewrite <- (append_empty_r sfx) at 1.
  rewrite split_from_word by assumption. simpl.
  destruct acc; [discriminate | reflexivity].
Qed.

Lemma join_cons (sep w w' : string) (ws : list string) :
  Py.join sep (w :: w' :: ws) = (w ++ sep ++ Py.join sep (w' :: ws))%string.
Proof. reflexivity. Qed.

(** Words joined by single spaces split back into as many words, with or
    without a suffix glued to the last one. *)
Lemma split_join_length (ws : list string) (sfx : string) :
  ws <> [] -> Forall (fun w => is_word w = true) ws -> no_space sfx = true ->
  List.length (Py.split (Py.join " " ws ++ sfx)) = List.length ws.
Proof.
  intros Hne Hws Hs. unfold Py.split.
  induction ws as [|w ws IH]; [now elim Hne|].
  inversion Hws as [|? ? Hw Hws']; subst.
  unfold is_word in Hw. apply andb_prop in Hw. destruct Hw as [Ht Hn].
  destruct ws as [|w' ws].
  - cbn [Py.join]. rewrite split_from_word by assumption. cbn [append].
    rewrite split_from_end by assumption. reflexivity.
  - rewrite join_cons, !append_assoc. rewrite split_from_word by assumption.
    cbn [append Py.split_from].
    change (Py.isspace " ") with true. cbv iota.
    rewrite Ht, length_app. cbn [List.length].
    rewrite IH; [reflexivity | discriminate | assumption].
Qed.

Lemma split_from_nonempty (s acc : string) :
  Py.truthy acc = true -> Py.split_from acc s <> [].
Proof.
  revert acc. induction s as [|c s IH]; intros acc Ha; simpl.
  - now rewrite Ha.
  - destruct (Py.isspace c).
    + rewrite Ha. discriminate.
    + apply IH. destruct acc; reflexivity.
Qed.

Lemma first_piece_nonempty (text : string) :
  text <> "" -> nonspace_opt (Re.head text) = true ->
  Py.split (Re.first_piece text) <> [].
Proof.
  destruct text as [|c r]; [congruence|]. intros _ H. simpl in H.
  apply negb_true_iff in H.
  unfold Re.first_piece, Py.split. cbn [Re.first_piece_from].
  rewrite H. cbn [andb Py.split_from]. rewrite H.
  now apply split_from_nonempty.
Qed.

Lemma join_nonempty (w : string) (ws : list string) :
  Py.truthy w = true -> Py.join " " (w :: ws) <> "".
Proof.
  destruct w as [|c w]; [discriminate|]. intros _.
  destruct ws; cbn [Py.join]; discriminate.
Qed.

Lemma firstn_prefix {A : Type} (k : nat) (l more : list A) :
  (k <= List.length l)%nat -> firstn k (l ++ more) = firstn k l.
Proof.
  intros H. rewrite firstn_app.
  replace (k - List.length l)%nat with 0%nat by lia.
  simpl. apply app_nil_r.
Qed.

(** X3.  On an answer that is not empty once trimmed, the heuristic summary
    is not empty and consists of the first [k] words of the trimmed answer,
    joined by single spaces, for some [k] between 1 and 20; an ellipsis is
    appended only when the summary was cut at 20 words, and then the answer
    has more than 20 words.  Split again, the summary has [k] words. *)
Theorem heuristic_summary_is_leading_words (answer : string)
  (Hne : Py.strip answer <> "") :
  let r := fallback_score_and_text answer in
  let words := Py.split (Py.strip answer) in
  summary r <> ""
  /\ exists k,
       (1 <= k <= 20)%nat /\ (k <= List.length words)%nat
       /\ List.length (Py.split (summary r)) = k
       /\ (summary r = Py.join " " (firstn k words)
           \/ (k = 20%nat /\ (20 < List.length words)%nat
               /\ summary r = (Py.join " " (firstn 20 words) ++ "...")%string)).
Proof.
  intros r words. unfold r, fallback_score_and_text.
  pose proof (strip_head_nonspace answer) as Hhead.
  destruct (Py.strip answer) as [|c0 r0] eqn:E; [now elim Hne|].
  cbn [Py.truthy negb summary].
  set (text := String c0 r0) in *.
  destruct (first_piece_words text) as [more Hmore].
  pose proof (split_words (Re.first_piece text)) as Hw.
  pose proof (first_piece_nonempty text Hne Hhead) as Hs.
  set (S := Py.split (Re.first_piece text)) in *.
  assert (Hwords : words = S ++ more) by exact Hmore.
  assert (Hlen : (List.length S <= List.length words)%nat).
  { rewrite Hwords, length_app. lia. }
  assert (HS : (1 <= List.length S)%nat).
  { destruct S; [now elim Hs | simpl; lia]. }
  destruct (Nat.ltb_spec 20 (List.length S)) as [Hlong | Hshort].
  - (* truncated *)
    assert (Hf : firstn 20 S = firstn 20 words).
    { rewrite Hwords. symmetry. apply firstn_prefix. lia. }
    assert (Hl20 : List.length (firstn 20 S) = 20%nat).
    { rewrite length_firstn. lia. }
    split.
    + destruct (firstn 20 S) as [|w ws] eqn:Ef; [discriminate|].
      destruct w as [|c w].
      * assert (Hin : Forall (fun w => is_word w = true) (firstn 20 S))
          by now apply firstn_words.
        rewrite Ef in Hin. inversion Hin. discriminate.
      * destruct ws; cbn [Py.join]; discriminate.
    + exists 20%nat. repeat split; try lia.
      * rewrite split_join_length; trivial.
        -- intros E0. rewrite E0 in Hl20. discriminate.
        -- now apply firstn_words.
      * right. repeat split; try lia. now rewrite Hf.
  - (* whole first sentence *)
    assert (Hf : firstn 20 S = firstn (List.length S) words).
    { rewrite Hwords, firstn_prefix by lia. rewrite firstn_all.
      apply firstn_all2. lia. }
    rewrite append_empty_r.
    assert (Hall : firstn 20 S = S) by (apply firstn_all2; lia).
    split.
    + rewrite Hall. destruct S as [|w ws]; [now elim Hs|].
      apply join_nonempty. inversion Hw as [|? ? Hw1 _]; subst.
      unfold is_word in Hw1. now apply andb_prop in Hw1.
    + exists (List.length S). repeat split; try lia.
      * rewrite <- (append_empty_r (Py.join " " (firstn 20 S))).
        rewrite split_join_length; trivial.
        -- now rewrite Hall.
        -- now rewrite Hall.
        -- now rewrite Hall.
      * left. now rewrite Hf.
Qed.

(** X3 at an answer of two sentences. *)
Lemma heuristic_summary_is_leading_words_witness :
  Py.strip " Use a queue. Then retry. " <> ""
  /\ summary (fallback_score_and_text " Use a queue. Then retry. ") <> "".
Proof.
  assert (H : Py.strip " Use a queue. Then retry. " <> "")
    by (vm_compute; discriminate).
  split; [exact H|].
  exact (proj1 (heuristic_summary_is_leading_words _ H)).
Defined.

(* ===================================================================== *)
(** * Letter case and monotonicity of the heuristic score *)
(* ===================================================================== *)

Lemma lower_char_twice (c : ascii) :
  Py.lower_char (Py.lower_char c) = Py.lower_char c.
Proof.
  destruct c as [b0 b1 b2 b3 b4 b5 b6 b7].
  destruct b0, b1, b2, b3, b4, b5, b6, b7; vm_compute; reflexivity.
Qed.

Lemma lstrip_lower (s : string) : Py.lstrip (Py.lower s) = Py.lower (Py.lstrip s).
Proof.
  induction s as [|c s IH]; simpl; [reflexivity|].
  rewrite isspace_lower_char. destruct (Py.isspace c); [exact IH | reflexivity].
Qed.

Lemma rstrip_lower (s : string) : Py.rstrip (Py.lower s) = Py.lower (Py.rstrip s).
Proof.
  induction s as [|c s IH]; simpl; [reflexivity|].
  rewrite IH, isspace_lower_char.
  destruct (Py.rstrip s); simpl; [destruct (Py.isspace c)|]; reflexivity.
Qed.

Lemma strip_lower (s : string) : Py.strip (Py.lower s) = Py.lower (Py.strip s).
Proof. unfold Py.strip. now rewrite lstrip_lower, rstrip_lower. Qed.

Lemma token_count_lower (s : string) :
  forall b, token_count b (Py.lower s) = token_count b s.
Proof.
  induction s as [|c s IH]; intros b; simpl; [reflexivity|].
  now rewrite isspace_lower_char, IH.
Qed.

Lemma isword_lower_opt (o : option ascii) :
  Re.isword_opt (lower_opt o) = Re.isword_opt o.
Proof. destruct o; simpl; [apply isword_lower_char | reflexivity]. Qed.

Lemma head_lower (s : string) : Re.head (Py.lower s) = lower_opt (Re.head s).
Proof. destruct s; reflexivity. Qed.

Lemma at_boundary_lower (prev : option ascii) (s : string) :
  Re.at_boundary (lower_opt prev) (Re.head (Py.lower s))
  = Re.at_boundary prev (Re.head s).
Proof.
  unfold Re.at_boundary. now rewrite head_lower, !isword_lower_opt.
Qed.

Lemma match_literal_b_lower (k : string) :
  forall prev s,
    Re.match_literal_b (lower_opt prev) k (Py.lower s)
    = Re.match_literal_b prev k s.
Proof.
  induction k as [|kc k IH]; intros prev s.
  - cbn [Re.match_literal_b]. apply at_boundary_lower.
  - destruct s as [|c s]; [reflexivity|].
    cbn [Py.lower Re.match_literal_b].
    rewrite <- (IH (Some c) s). unfold Re.ci_eq.
    now rewrite lower_char_twice.
Qed.

Lemma search_from_lower (k s : string) :
  forall prev,
    Re.search_from (lower_opt prev) k (Py.lower s) = Re.search_from prev k s.
Proof.
  induction s as [|c s IH]; intros prev.
  - pose proof (at_boundary_lower prev "") as A.
    pose proof (match_literal_b_lower k prev "") as M.
    cbn [Py.lower] in A, M. cbn [Py.lower Re.search_from].
    now rewrite A, M.
  - pose proof (at_boundary_lower prev (String c s)) as A.
    pose proof (match_literal_b_lower k prev (String c s)) as M.
    cbn [Py.lower] in A, M. cbn [Py.lower Re.search_from].
    rewrite A, M. now rewrite <- (IH (Some c)).
Qed.

Lemma keyword_count_lower (text : string) :
  keyword_count (Py.lower text) = keyword_count text.
Proof.
  unfold keyword_count. f_equal. apply filter_ext. intros k.
  unfold Re.search_word. apply (search_from_lower k text None).
Qed.

Lemma truthy_lower (s : string) : Py.truthy (Py.lower s) = Py.truthy s.
Proof. destruct s; reflexivity. Qed.

Lemma fallback_lower (answer : string) :
  score (fallback_score_and_text (Py.lower answer))
  = score (fallback_score_and_text answer)
  /\ improvement (fallback_score_and_text (Py.lower answer))
     = improvement (fallback_score_and_text answer).
Proof.
  unfold fallback_score_and_text.
  rewrite strip_lower, truthy_lower.
  destruct (negb (Py.truthy (Py.strip answer))); cbn [score improvement];
    [split; reflexivity|].
  rewrite !split_length, token_count_lower, keyword_count_lower.
  split; reflexivity.
Qed.

Lemma lower_ascii_lower_char (c : ascii) :
  Py.lower_char (ascii_lower_char c) = Py.lower_char c.
Proof.
  destruct c as [b0 b1 b2 b3 b4 b5 b6 b7].
  destruct b0, b1, b2, b3, b4, b5, b6, b7; vm_compute; reflexivity.
Qed.

Lemma lower_ascii_lower (s : string) : Py.lower (ascii_lower s) = Py.lower s.
Proof.
  induction s as [|c s IH]; [reflexivity|].
  cbn [ascii_lower Py.lower]. now rewrite lower_ascii_lower_char, IH.
Qed.

(** X4.  The heuristic score and the improvement do not depend on the case
    of the letters A to Z: two answers that differ only in the case of
    such letters get the same score and the same improvement. *)
Theorem heuristic_score_ignores_case (a b : string)
  (Hcase : ascii_lower a = ascii_lower b) :
  score (fallback_score_and_text a) = score (fallback_score_and_text b)
  /\ improvement (fallback_score_and_text a)
     = improvement (fallback_score_and_text b).
Proof.
  assert (Hlower : Py.lower a = Py.lower b).
  { rewrite <- (lower_ascii_lower a), <- (lower_ascii_lower b). now rewrite Hcase. }
  destruct (fallback_lower a) as [Sa Ia], (fallback_lower b) as [Sb Ib].
  rewrite <- Sa, <- Ia, <- Sb, <- Ib, Hlower. split; reflexivity.
Qed.

(** X4 at one answer in two spellings. *)
Lemma heuristic_score_ignores_case_witness :
  ascii_lower "Test the DESIGN" = ascii_lower "test the design"
  /\ score (fallback_score_and_text "Test the DESIGN")
     = score (fallback_score_and_text "test the design").
Proof.
  split; [reflexivity|].
  exact (proj1 (heuristic_score_ignores_case
                  "Test the DESIGN" "test the design" eq_refl)).
Defined.


Lemma threshold_score_monotone (l k l' k' : nat) :
  (l <= l')%nat -> (k <= k')%nat ->
  (threshold_score l k <= threshold_score l' k')%Z.
Proof.
  intros Hl Hk. unfold threshold_score.
  destruct (Nat.leb_spec 80 l), (Nat.leb_spec 2 k), (Nat.leb_spec 50 l),
    (Nat.leb_spec 1 k), (Nat.leb_spec 25 l), (Nat.leb_spec 10 l),
    (Nat.leb_spec 80 l'), (Nat.leb_spec 2 k'), (Nat.leb_spec 50 l'),
    (Nat.leb_spec 1 k'), (Nat.leb_spec 25 l'), (Nat.leb_spec 10 l');
    simpl; lia.
Qed.

Lemma token_count_nonempty (s : string) :
  s <> "" -> nonspace_opt (Re.head s) = true -> (1 <= token_count true s)%nat.
Proof.
  destruct s as [|c s]; [congruence|]. simpl. intros _ H. rewrite H. simpl. lia.
Qed.

(** X5.  The heuristic score is monotone: an answer with at least as many
    words and at least as many key terms as another never scores lower. *)
Theorem heuristic_score_is_monotone (a b : string)
  (Htokens : (List.length (Py.split (Py.strip a))
              <= List.length (Py.split (Py.strip b)))%nat)
  (Hhits : (keyword_count (Py.strip a) <= keyword_count (Py.strip b))%nat) :
  (score (fallback_score_and_text a) <= score (fallback_score_and_text b))%Z.
Proof.
  rewrite !split_length in Htokens.
  destruct (string_dec (Py.strip a) "") as [Ea | Ea].
  - rewrite (fallback_blank a Ea). simpl. apply fallback_score_range.
  - destruct (string_dec (Py.strip b) "") as [Eb | Eb].
    + pose proof (token_count_nonempty _ Ea (strip_head_nonspace a)) as H.
      rewrite Eb in Htokens. simpl in Htokens. lia.
    + rewrite !fallback_score_value, !split_length by assumption.
      now apply threshold_score_monotone.
Qed.

(** X5 at a one-word answer and a four-word answer with two key terms. *)
Lemma heuristic_score_is_monotone_witness :
  (List.length (Py.split (Py.strip "short"))
   <= List.length (Py.split (Py.strip "test the design first")))%nat
  /\ (keyword_count (Py.strip "short")
      <= keyword_count (Py.strip "test the design first"))%nat
  /\ (score (fallback_score_and_text "short")
      <= score (fallback_score_and_text "test the design first"))%Z.
Proof.
  assert (H1 : (List.length (Py.split (Py.strip "short"))
                <= List.length (Py.split (Py.strip "test the design first")))%nat)
    by (vm_compute; lia).
  assert (H2 : (keyword_count (Py.strip "short")
                <= keyword_count (Py.strip "test the design first"))%nat)
    by (vm_compute; lia).
  split; [exact H1|]. split; [exact H2|].
  exact (heuristic_score_is_monotone "short" "test the design first" H1 H2).
Defined.

(* ===================================================================== *)
(** * The parser and the extraction of the completion *)
(* ===================================================================== *)

Lemma parse_model_text_on_span (raw span : string) :
  brace_span raw span ->
  parse_model_json (Json.Str raw) = parse_model_text span.
Proof.
  intros H.
  assert (Hs : brace_span span span).
  { destruct H as (b & i & a & _ & _ & _ & ->).
    exists "", i, "". repeat split. }
  destruct (brace_span_found raw span H) as [A1 T1].
  destruct (brace_span_found span span Hs) as [A2 T2].
  assert (E : parse_model_text raw = parse_model_text span).
  { rewrite !parse_model_text_unfold, A1, A2, T1, T2. reflexivity. }
  rewrite <- E. unfold parse_model_json.
  destruct raw as [|c raw]; [|reflexivity].
  destruct H as (b & i & a & Hraw & _). destruct b; discriminate.
Qed.

(** X6.  The parser ignores what surrounds the JSON object: text before the
    first opening brace and text after the last closing brace never change
    what [parse_model_json] returns or raises. *)
Theorem parser_ignores_commentary (before inside after : string)
  (Hbefore : has_char "{" before = false)
  (Hafter : has_char "}" after = false) :
  parse_model_json
    (Json.Str (before ++ String "{" (inside ++ String "}" after)))
  = parse_model_json (Json.Str (String "{" (inside ++ String "}" ""))).
Proof.
  rewrite (parse_model_text_on_span _ (String "{" (inside ++ String "}" ""))).
  - symmetry. apply parse_model_text_on_span.
    exists "", inside, "". repeat split.
  - exists before, inside, after. repeat split; assumption.
Qed.

(** X6 at an object between two sentences. *)
Lemma parser_ignores_commentary_witness :
  has_char "{" "Here you go: " = false
  /\ has_char "}" " Hope it helps." = false
  /\ parse_model_json
       (Json.Str ("Here you go: "
                  ++ String "{" (dq "'score': 4" ++ String "}" " Hope it helps.")))
     = parse_model_json (Json.Str (String "{" (dq "'score': 4" ++ String "}" ""))).
Proof.
  split; [reflexivity|]. split; [reflexivity|].
  exact (parser_ignores_commentary "Here you go: " (dq "'score': 4")
           " Hope it helps." eq_refl eq_refl).
Defined.


Lemma parse_rejects_non_text (raw : Json.value) :
  (forall s, raw <> Json.Str s) -> raises (parse_model_json raw) = true.
Proof.
  intros H. unfold parse_model_json.
  destruct (negb (Dyn.truthy raw)); [reflexivity|].
  destruct raw; try reflexivity. now elim (H s).
Qed.

(** X7.  When the remote call returns a completion that is not a string
    (a number, a list, an object, null, a Boolean), [evaluate_text] returns
    the heuristic result for the normalised answer. *)
Theorem non_text_completion_falls_back
  (settings : Config.Settings) (post : Request -> Exc Json.value)
  (answer txt : string) (raw : Json.value)
  (Hn : normalize answer = Return txt)
  (Hcall : call_openai_chat settings post (format_prompt txt) = Return raw)
  (Hraw : forall s, raw <> Json.Str s) :
  evaluate_text settings post answer = Return (fallback_score_and_text txt).
Proof.
  destruct (evaluate_text_cases settings post answer txt Hn)
    as [H | (raw' & r & _ & Hc & Hp & _)]; [exact H|].
  rewrite Hcall in Hc. injection Hc as <-.
  pose proof (parse_rejects_non_text raw Hraw) as Hr.
  rewrite Hp in Hr. discriminate.
Qed.

(** X7 at a response whose content is the number 4. *)
Lemma non_text_completion_falls_back_witness :
  let post := fun _ : Request =>
    Return (Json.Obj [("choices",
                       Json.Arr [Json.Obj [("message",
                                            Json.Obj [("content", Json.Int 4)])]])]) in
  normalize "Candidate says: use a queue" = Return "use a queue"
  /\ call_openai_chat remote_settings post (format_prompt "use a queue")
     = Return (Json.Int 4)
  /\ (forall s, Json.Int 4 <> Json.Str s)
  /\ evaluate_text remote_settings post "Candidate says: use a queue"
     = Return (fallback_score_and_text "use a queue").
Proof.
  intros post.
  assert (Hn : normalize "Candidate says: use a queue" = Return "use a queue")
    by reflexivity.
  assert (Hc : call_openai_chat remote_settings post (format_prompt "use a queue")
               = Return (Json.Int 4)) by reflexivity.
  assert (Hr : forall s, Json.Int 4 <> Json.Str s) by (intros s; discriminate).
  split; [exact Hn|]. split; [exact Hc|]. split; [exact Hr|].
  exact (non_text_completion_falls_back remote_settings post
           "Candidate says: use a queue" "use a queue" (Json.Int 4) Hn Hc Hr).
Defined.


Section Extraction.

Variable settings : Config.Settings.
Variable post : Request -> Exc Json.value.
Variable prompt : string.
Variable body : list (string * Json.value).

Hypothesis Hkey : Config.OPENAI_API_KEY settings <> "".
Hypothesis Hpost : forall req, post req = Return (Json.Obj body).

Lemma call_is_completion :
  call_openai_chat settings post prompt = chat_completion settings post prompt.
Proof.
  unfold call_openai_chat.
  destruct (Config.OPENAI_API_KEY settings); [now elim Hkey | reflexivity].
Qed.

Lemma getitem_present (d : list (string * Json.value)) (k : string) :
  Dyn.has_key d k = true ->
  Dyn.getitem (Json.Obj d) k = Return (Json.dict_get d k Json.Null).
Proof. intros H. simpl. now rewrite H. Qed.

(** X8.  With a key configured and a response object whose list of choices
    starts with an object, [call_openai_chat] returns the content of the
    message of that first choice when there is one; otherwise the text of
    the first choice when there is one; otherwise the whole response
    serialised by [json.dumps]. *)
Theorem completion_precedence
  (choice : list (string * Json.value)) (others : list Json.value)
  (Hchoices : Dyn.has_key body "choices" = true)
  (Hfirst : Json.dict_get body "choices" Json.Null
            = Json.Arr (Json.Obj choice :: others)) :
  (forall message,
      Dyn.has_key choice "message" = true ->
      Json.dict_get choice "message" Json.Null = Json.Obj message ->
      Dyn.has_key message "content" = true ->
      call_openai_chat settings post prompt
      = Return (Json.dict_get message "content" Json.Null))
  /\ (forall message,
         Dyn.has_key choice "message" = true ->
         Json.dict_get choice "message" Json.Null = Json.Obj message ->
         Dyn.has_key message "content" = false ->
         Dyn.has_key choice "text" = true ->
         call_openai_chat settings post prompt
         = Return (Json.dict_get choice "text" Json.Null))
  /\ (Dyn.has_key choice "message" = false ->
      Dyn.has_key choice "text" = true ->
      call_openai_chat settings post prompt
      = Return (Json.dict_get choice "text" Json.Null))
  /\ (forall message,
         Dyn.has_key choice "message" = true ->
         Json.dict_get choice "message" Json.Null = Json.Obj message ->
         Dyn.has_key message "content" = false ->
         Dyn.has_key choice "text" = false ->
         call_openai_chat settings post prompt
         = Return (Json.Str (Dyn.dumps (Json.Obj body))))
  /\ (Dyn.has_key choice "message" = false ->
      Dyn.has_key choice "text" = false ->
      call_openai_chat settings post prompt
      = Return (Json.Str (Dyn.dumps (Json.Obj body)))).
Proof.
  rewrite call_is_completion. unfold chat_completion.
  rewrite Hpost. cbn [bind Dyn.contains]. rewrite Hchoices. cbn [bind].
  rewrite (getitem_present body "choices" Hchoices), Hfirst.
  cbn [bind Dyn.len Dyn.getitem0 List.length].
  replace (0 <? Z.of_nat (S (List.length others)))%Z with true
    by (symmetry; apply Z.ltb_lt; lia).
  cbn [bind Dyn.contains].
  split; [|split; [|split; [|split]]].
  - intros message Hm Em Hc. rewrite Hm. cbn [bind].
    rewrite (getitem_present choice "message" Hm), Em.
    cbn [bind Dyn.contains]. rewrite Hc.
    now rewrite (getitem_present message "content" Hc).
  - intros message Hm Em Hc Ht. rewrite Hm. cbn [bind].
    rewrite (getitem_present choice "message" Hm), Em.
    cbn [bind Dyn.contains]. rewrite Hc, Ht.
    now rewrite (getitem_present choice "text" Ht).
  - intros Hm Ht. rewrite Hm, Ht. cbn [bind].
    now rewrite (getitem_present choice "text" Ht).
  - intros message Hm Em Hc Ht. rewrite Hm. cbn [bind].
    rewrite (getitem_present choice "message" Hm), Em.
    cbn [bind Dyn.contains]. rewrite Hc, Ht. reflexivity.
  - intros Hm Ht. rewrite Hm, Ht. reflexivity.
Qed.

(** X9.  With a key configured and a response object that has no choices,
    or an empty list of them, [call_openai_chat] returns the whole response
    serialised by [json.dumps]. *)
Theorem completion_without_choices
  (Hnone : Dyn.has_key body "choices" = false
           \/ Json.dict_get body "choices" Json.Null = Json.Arr []) :
  call_openai_chat settings post prompt
  = Return (Json.Str (Dyn.dumps (Json.Obj body))).
Proof.
  rewrite call_is_completion. unfold chat_completion.
  rewrite Hpost. cbn [bind Dyn.contains].
  destruct (Dyn.has_key body "choices") eqn:Hc.
  - destruct Hnone as [H | H]; [discriminate|]. cbn [bind].
    rewrite (getitem_present body "choices" Hc), H. reflexivity.
  - reflexivity.
Qed.

End Extraction.

(** X9 at a response that only reports an error. *)
Lemma completion_without_choices_witness :
  let body := [("error", Json.Str "overloaded")] in
  let post := fun _ : Request => Return (Json.Obj body) in
  Config.OPENAI_API_KEY remote_settings <> ""
  /\ (forall req, post req = Return (Json.Obj body))
  /\ (Dyn.has_key body "choices" = false
      \/ Json.dict_get body "choices" Json.Null = Json.Arr [])
  /\ call_openai_chat remote_settings post "prompt"
     = Return (Json.Str (Dyn.dumps (Json.Obj body))).
Proof.
  intros body post.
  assert (Hkey : Config.OPENAI_API_KEY remote_settings <> "")
    by (vm_compute; discriminate).
  assert (Hpost : forall req, post req = Return (Json.Obj body))
    by (intros req; reflexivity).
  assert (Hnone : Dyn.has_key body "choices" = false
                  \/ Json.dict_get body "choices" Json.Null = Json.Arr [])
    by (left; reflexivity).
  split; [exact Hkey|]. split; [exact Hpost|]. split; [exact Hnone|].
  exact (completion_without_choices remote_settings post "prompt" body
           Hkey Hpost Hnone).
Defined.

(** X8 at a response in the older format, with a text and no message. *)
Lemma completion_precedence_witness :
  let body := [("choices", Json.Arr [Json.Obj [("text", Json.Str "legacy")]])] in
  let post := fun _ : Request => Return (Json.Obj body) in
  Config.OPENAI_API_KEY remote_settings <> ""
  /\ (forall req, post req = Return (Json.Obj body))
  /\ Dyn.has_key body "choices" = true
  /\ Json.dict_get body "choices" Json.Null
     = Json.Arr [Json.Obj [("text", Json.Str "legacy")]]
  /\ call_openai_chat remote_settings post "prompt" = Return (Json.Str "legacy").
Proof.
  intros body post.
  assert (Hkey : Config.OPENAI_API_KEY remote_settings <> "")
    by (vm_compute; discriminate).
  assert (Hpost : forall req, post req = Return (Json.Obj body))
    by (intros req; reflexivity).
  split; [exact Hkey|]. split; [exact Hpost|].
  split; [reflexivity|]. split; [reflexivity|].
  destruct (completion_precedence remote_settings post "prompt" body Hkey Hpost
              [("text", Json.Str "legacy")] [] eq_refl eq_refl)
    as (_ & _ & H & _).
  exact (H eq_refl eq_refl).
Defined.

(* ===================================================================== *)
(** * Configuration, the root endpoint, batches and the prompt *)
(* ===================================================================== *)

Lemma lstrip_empty_blank (s : string) : Py.lstrip s = "" <-> blank s = true.
Proof.
  induction s as [|c s IH]; simpl; [tauto|].
  destruct (Py.isspace c); simpl; [exact IH|]. split; discriminate.
Qed.

Lemma rstrip_empty_blank (s : string) : Py.rstrip s = "" <-> blank s = true.
Proof.
  induction s as [|c s IH]; simpl; [tauto|].
  destruct (Py.rstrip s) as [|d r].
  - destruct (Py.isspace c); simpl.
    + split; [intros _; now apply IH | reflexivity].
    + split; discriminate.
  - split; [discriminate|]. intros H. apply andb_prop in H.
    destruct H as [_ H]. apply IH in H. discriminate.
Qed.

Lemma lstrip_blank_suffix (s : string) : blank s = true -> blank (Py.lstrip s) = true.
Proof.
  induction s as [|c s IH]; simpl; [reflexivity|].
  destruct (Py.isspace c); simpl; [exact IH | discriminate].
Qed.

Lemma blank_of_lstrip (s : string) : blank (Py.lstrip s) = true -> blank s = true.
Proof.
  induction s as [|c s IH]; simpl; [reflexivity|].
  destruct (Py.isspace c) eqn:Hc; simpl; [exact IH|]. now rewrite Hc.
Qed.

Lemma strip_empty_blank (s : string) : Py.strip s = "" <-> blank s = true.
Proof.
  unfold Py.strip. rewrite rstrip_empty_blank. split.
  - apply blank_of_lstrip.
  - apply lstrip_blank_suffix.
Qed.

(** X11.  The settings read from an environment: the fallback flag is on
    exactly when the key is missing or blank, or the variable USE_FALLBACK,
    lowered, is 1 or true; the key is stored trimmed; the model and the
    base address take their defaults when unset; and [root] reports the
    provider fallback under exactly the same condition as the flag. *)
Theorem fallback_flag_characterised (environ : string -> option string) :
  let key := Config.getenv environ "OPENAI_API_KEY" "" in
  let flag := Config.getenv environ "USE_FALLBACK" "" in
  let settings := Config.load environ in
  (Config.USE_FALLBACK settings = true
   <-> blank key = true \/ Py.lower flag = "1" \/ Py.lower flag = "true")
  /\ Config.OPENAI_API_KEY settings = Py.strip key
  /\ (environ "OPENAI_MODEL" = None -> Config.OPENAI_MODEL settings = "gpt-4o-mini")
  /\ (environ "OPENAI_API_BASE" = None ->
      Config.OPENAI_API_BASE settings = "https://api.openai.com/v1")
  /\ (provider (root settings) = "fallback"
      <-> blank key = true \/ Py.lower flag = "1" \/ Py.lower flag = "true").
Proof.
  intros key flag settings.
  assert (Hflag : Config.USE_FALLBACK settings = true
                  <-> blank key = true \/ Py.lower flag = "1"
                      \/ Py.lower flag = "true").
  { unfold settings, Config.load. cbn [Config.USE_FALLBACK]. fold key flag.
    rewrite !orb_true_iff, !String.eqb_eq, negb_true_iff.
    rewrite <- strip_empty_blank.
    split.
    - intros [[H | H] | H]; auto. left.
      destruct (Py.strip key); [reflexivity | discriminate].
    - intros [H | [H | H]]; auto. right. now rewrite H. }
  split; [exact Hflag|]. split; [reflexivity|]. split; [|split].
  - intros H. unfold settings, Config.load, Config.getenv. cbn. now rewrite H.
  - intros H. unfold settings, Config.load, Config.getenv. cbn. now rewrite H.
  - rewrite <- Hflag. unfold root. cbn [provider].
    destruct (Config.USE_FALLBACK settings); split; try reflexivity; discriminate.
Qed.


(** X12.  [root] answers with [ok] true and a provider that is either
    fallback or openai, and the provider names the path of [evaluate_text]:
    under fallback every answer gets the heuristic result of its normalised
    text, whatever the remote service would do; under openai every answer
    goes through the remote call and the parser, with the heuristic result
    as the handler of both. *)
Theorem root_names_the_path
  (settings : Config.Settings) (post : Request -> Exc Json.value) :
  ok (root settings) = true
  /\ (provider (root settings) = "fallback"
      \/ provider (root settings) = "openai")
  /\ (provider (root settings) = "fallback" ->
      forall answer, exists txt,
        normalize answer = Return txt
        /\ evaluate_text settings post answer
           = Return (fallback_score_and_text txt))
  /\ (provider (root settings) = "openai" ->
      forall answer, exists txt,
        normalize answer = Return txt
        /\ evaluate_text settings post answer
           = try_except
               (raw <- call_openai_chat settings post (format_prompt txt) ;;
                try_except (parse_model_json raw)
                  (fun _ => Return (fallback_score_and_text txt)))
               (fun _ => Return (fallback_score_and_text txt))).
Proof.
  unfold root. cbn [ok provider].
  split; [reflexivity|]. split; [destruct (Config.USE_FALLBACK settings); auto|].
  split.
  - intros H answer. destruct (normalize_total answer) as [txt Hn].
    exists txt. split; [exact Hn|]. unfold evaluate_text. rewrite Hn.
    cbn [bind]. destruct (Config.USE_FALLBACK settings); [reflexivity | discriminate].
  - intros H. destruct (Config.USE_FALLBACK settings) eqn:E; [discriminate|].
    intros answer.
    destruct (normalize_total answer) as [txt Hn].
    exists txt. split; [exact Hn|]. unfold evaluate_text. rewrite Hn.
    cbn [bind]. rewrite E.
    destruct (call_openai_chat settings post (format_prompt txt)); cbn [bind try_except];
      [|reflexivity].
    destruct (parse_model_json a); reflexivity.
Qed.


Section Bulk.

Variable settings : Config.Settings.
Variable post : Request -> Exc Json.value.

(** X13.  When every evaluation of a batch completes, in whatever order,
    [evaluate_bulk] returns one result per item, in the order of the items:
    the result at each position is what [evaluate_text] returns for the
    text at that position. *)
Theorem evaluate_bulk_keeps_order
  (completion : list nat) (items : list (option string * string))
  (Hall : all_complete completion (List.length items)) :
  exists results,
    evaluate_bulk settings post completion items = Return results
    /\ Forall2 (fun item r => evaluate_text settings post (snd item) = Return r)
         items results
    /\ List.length results = List.length items.
Proof.
  destruct (evaluations_exist settings post (List.map snd items))
    as (evals & _ & Hf).
  exists evals. split; [now apply evaluate_bulk_in_order|].
  split; [now apply Forall2_map_left in Hf|].
  apply Forall2_length in Hf. now rewrite length_map in Hf.
Qed.

(** X14.  On a batch that is not empty, the ranking neither drops nor
    invents candidates: its entries carry, up to order, exactly the
    identifiers and texts submitted, the text unchanged (prefix included),
    and the score, summary and improvement of each entry are what
    [evaluate_text] returns for that text. *)
Theorem ranking_keeps_every_candidate
  (completion : list nat) (req : RankRequest)
  (Hne : candidates req <> [])
  (Hall : all_complete completion (List.length (candidates req))) :
  exists out,
    rank_candidates settings post completion req = Return (mkRankResponse out)
    /\ Permutation
         (List.map (fun c => (cand_id c, cand_text c)) (candidates req))
         (List.map (fun x => (rc_id x, rc_text x)) out)
    /\ List.length out = List.length (candidates req)
    /\ Forall (fun x =>
                 evaluate_text settings post (rc_text x)
                 = Return (mkResult (rc_score x) (rc_summary x) (rc_improvement x)))
         out.
Proof.
  destruct (evaluations_exist settings post (List.map cand_text (candidates req)))
    as (evals & _ & Hf).
  apply Forall2_map_left in Hf.
  set (merged := List.map (fun p => merge (fst p) (snd p))
                   (combine (candidates req) evals)).
  exists (sorted rank_key merged).
  split; [now apply rank_candidates_value|].
  assert (Hlen : List.length evals = List.length (candidates req)).
  { symmetry. eapply Forall2_length; eauto. }
  assert (Hids : List.map (fun x => (rc_id x, rc_text x)) merged
                 = List.map (fun c => (cand_id c, cand_text c)) (candidates req)).
  { unfold merged. clear -Hf. induction Hf; simpl; [reflexivity | now f_equal]. }
  assert (Hev : Forall (fun x =>
                  evaluate_text settings post (rc_text x)
                  = Return (mkResult (rc_score x) (rc_summary x) (rc_improvement x)))
                  merged).
  { unfold merged. clear -Hf. induction Hf as [|c r cs rs Hc _ IH]; simpl;
      constructor; [|exact IH].
    simpl. rewrite Hc. now destruct r. }
  split; [|split].
  - rewrite <- Hids. apply Permutation_map, sorted_perm.
  - rewrite <- (Permutation_length (sorted_perm rank_key merged)).
    unfold merged. rewrite length_map, length_combine. lia.
  - rewrite Forall_forall in *. intros x Hx. apply Hev.
    eapply Permutation_in; [symmetry; apply sorted_perm | exact Hx].
Qed.

End Bulk.

(** X14 at a batch of two, one of them without identifier. *)
Lemma ranking_keeps_every_candidate_witness :
  let req := mkRankRequest
               [ mkCandidateIn (Some "c1") "short";
                 mkCandidateIn None "Candidate says: test the design first." ] in
  candidates req <> []
  /\ all_complete [1; 0]%nat (List.length (candidates req))
  /\ exists out,
       rank_candidates fallback_settings (fun _ => Raise (TransportError "unused"))
         [1; 0]%nat req = Return (mkRankResponse out)
       /\ List.length out = List.length (candidates req).
Proof.
  intros req.
  assert (Hne : candidates req <> []) by discriminate.
  assert (Hall : all_complete [1; 0]%nat (List.length (candidates req))).
  { intros i Hi. simpl in *. lia. }
  split; [exact Hne|]. split; [exact Hall|].
  destruct (ranking_keeps_every_candidate fallback_settings
              (fun _ => Raise (TransportError "unused")) [1; 0]%nat req Hne Hall)
    as (out & H & _ & Hl & _).
  exists out. split; [exact H | exact Hl].
Defined.

(** X13 at a batch of two whose second evaluation completes first. *)
Lemma evaluate_bulk_keeps_order_witness :
  let items := [(Some "c1", "short"); (None, "tiny!")] in
  all_complete [1; 0]%nat (List.length items)
  /\ exists results,
       evaluate_bulk fallback_settings (fun _ => Raise (TransportError "unused"))
         [1; 0]%nat items = Return results
       /\ List.length results = List.length items.
Proof.
  intros items.
  assert (Hall : all_complete [1; 0]%nat (List.length items)).
  { intros i Hi. simpl in *. lia. }
  split; [exact Hall|].
  destruct (evaluate_bulk_keeps_order fallback_settings
              (fun _ => Raise (TransportError "unused")) [1; 0]%nat items Hall)
    as (results & H & _ & Hl).
  exists results. split; [exact H | exact Hl].
Defined.


Lemma append_cancel_l (a x y : string) : (a ++ x)%string = (a ++ y)%string -> x = y.
Proof. induction a as [|c a IH]; simpl; intros H; [exact H|]. injection H as H. auto. Qed.

Lemma append_cancel_r (t : string) :
  forall x y, (x ++ t)%string = (y ++ t)%string -> x = y.
Proof.
  intros x y H.
  assert (L : String.length x = String.length y).
  { apply (f_equal String.length) in H. rewrite !length_append in H. lia. }
  revert y H L. induction x as [|c x IH]; intros [|d y] H L;
    try discriminate; [reflexivity|].
  simpl in *. injection H as -> H. f_equal. apply IH; [exact H | lia].
Qed.

(** X16.  The prompt determines the answer: two normalised answers get the
    same prompt only if they are the same text. *)
Theorem prompt_is_injective (a b : string) :
  format_prompt a = format_prompt b <-> a = b.
Proof.
  split; [|now intros ->]. unfold format_prompt. intros H.
  apply append_cancel_l in H. now apply append_cancel_r in H.
Qed.

(* ===================================================================== *)
(** * Ranking and the order of the candidates *)
(* ===================================================================== *)

Lemma outranks_both_ways (a b : RankedCandidate) :
  outranks a b -> outranks b a -> rank_key a = rank_key b.
Proof.
  unfold outranks, rank_key. intros [H1 | [H1 H1']] [H2 | [H2 H2']]; try lia.
  f_equal; lia.
Qed.

Lemma sorted_lists_agree (s1 : list RankedCandidate) :
  forall s2,
    StronglySorted outranks s1 -> StronglySorted outranks s2 ->
    Permutation s1 s2 -> NoDup (List.map rank_key s1) -> s1 = s2.
Proof.
  induction s1 as [|a s1 IH]; intros s2 H1 H2 Hp Hd.
  - now apply Permutation_nil in Hp.
  - destruct s2 as [|b s2]; [now apply Permutation_sym, Permutation_nil in Hp|].
    inversion H1 as [|? ? Hs1 Ha]; subst.
    inversion H2 as [|? ? Hs2 Hb]; subst.
    inversion Hd as [|? ? Hnot Hd']; subst.
    assert (E : a = b).
    { assert (Ia : In a (b :: s2))
        by (eapply Permutation_in; [exact Hp | now left]).
      assert (Ib : In b (a :: s1))
        by (eapply Permutation_in; [symmetry; exact Hp | now left]).
      destruct Ia as [Ia | Ia]; [now symmetry|].
      destruct Ib as [Ib | Ib]; [exact Ib|].
      rewrite Forall_forall in Ha, Hb.
      exfalso. apply Hnot.
      rewrite (outranks_both_ways a b (Ha b Ib) (Hb a Ia)).
      now apply in_map. }
    subst b. f_equal. apply IH; trivial.
    now apply Permutation_cons_inv in Hp.
Qed.

Lemma sorted_of_permutation (l1 l2 : list RankedCandidate) :
  Permutation l1 l2 -> NoDup (List.map rank_key (sorted rank_key l1)) ->
  sorted rank_key l1 = sorted rank_key l2.
Proof.
  intros Hp Hd. apply sorted_lists_agree; trivial; try apply sorted_is_sorted.
  rewrite <- (sorted_perm rank_key l1), <- (sorted_perm rank_key l2). exact Hp.
Qed.

Section Order.

Variable settings : Config.Settings.
Variable post : Request -> Exc Json.value.

Lemma evaluations_unique (texts : list string) (e1 e2 : list EvaluationResult) :
  Forall2 (fun t r => evaluate_text settings post t = Return r) texts e1 ->
  Forall2 (fun t r => evaluate_text settings post t = Return r) texts e2 ->
  e1 = e2.
Proof.
  intros H. revert e2. induction H as [|t r ts rs Ht _ IH]; intros e2 H2;
    inversion H2; subst; [reflexivity|].
  f_equal; [congruence | now apply IH].
Qed.

Lemma ranked_as_permutation
  (cs1 cs2 : list CandidateIn) (e1 e2 : list EvaluationResult) :
  Permutation cs1 cs2 ->
  Forall2 (fun c r => evaluate_text settings post (cand_text c) = Return r) cs1 e1 ->
  Forall2 (fun c r => evaluate_text settings post (cand_text c) = Return r) cs2 e2 ->
  Permutation (List.map (fun p => merge (fst p) (snd p)) (combine cs1 e1))
              (List.map (fun p => merge (fst p) (snd p)) (combine cs2 e2)).
Proof.
  intros Hp. revert e1 e2.
  induction Hp as [|c cs cs' Hp IH | c d cs | cs cs' cs'' Hp1 IH1 Hp2 IH2];
    intros e1 e2 H1 H2.
  - inversion H1; inversion H2; subst. constructor.
  - inversion H1; inversion H2; subst. simpl.
    replace y0 with y by congruence. constructor. now apply IH.
  - inversion H1 as [|? r1 ? t1 Hd Ht1]; subst.
    inversion Ht1 as [|? r2 ? t2 Hc Ht2]; subst.
    inversion H2 as [|? r3 ? t3 Hc' Ht3]; subst.
    inversion Ht3 as [|? r4 ? t4 Hd' Ht4]; subst. simpl.
    replace r3 with r2 by congruence. replace r4 with r1 by congruence.
    assert (E : t2 = t4).
    { clear -Ht2 Ht4. revert t4 Ht4. induction Ht2; intros t4 Ht4;
        inversion Ht4; subst; [reflexivity|]. f_equal; [congruence | auto]. }
    rewrite E. apply perm_swap.
  - destruct (evaluations_exist settings post (List.map cand_text cs'))
      as (e' & _ & He').
    apply Forall2_map_left in He'.
    etransitivity; [apply (IH1 e1 e') | apply (IH2 e' e2)]; trivial.
Qed.

(** X15.  When no two entries of a ranking share a rank key (score and
    length of the summary), the ranking does not depend on the order in
    which the candidates were submitted: every reordering of the batch is
    ranked to the same list. *)
Theorem ranking_ignores_input_order
  (c1 c2 : list nat) (req1 req2 : RankRequest) (out : list RankedCandidate)
  (Hperm : Permutation (candidates req1) (candidates req2))
  (Hall1 : all_complete c1 (List.length (candidates req1)))
  (Hall2 : all_complete c2 (List.length (candidates req2)))
  (Hout : rank_candidates settings post c1 req1 = Return (mkRankResponse out))
  (Hdistinct : NoDup (List.map rank_key out)) :
  rank_candidates settings post c2 req2 = Return (mkRankResponse out).
Proof.
  assert (Hne1 : candidates req1 <> []).
  { intros E. unfold rank_candidates in Hout. rewrite E in Hout. discriminate. }
  assert (Hne2 : candidates req2 <> []).
  { intros E. rewrite E in Hperm. now apply Permutation_sym, Permutation_nil in Hperm. }
  destruct (evaluations_exist settings post (List.map cand_text (candidates req1)))
    as (e1 & _ & He1).
  destruct (evaluations_exist settings post (List.map cand_text (candidates req2)))
    as (e2 & _ & He2).
  apply Forall2_map_left in He1, He2.
  rewrite (rank_candidates_value settings post c1 req1 e1 Hne1 Hall1 He1) in Hout.
  injection Hout as Hout.
  rewrite (rank_candidates_value settings post c2 req2 e2 Hne2 Hall2 He2).
  do 2 f_equal. rewrite <- Hout. symmetry.
  apply sorted_of_permutation.
  - now apply ranked_as_permutation.
  - now rewrite Hout.
Qed.

End Order.

(** X15 at a batch of two and the same batch reversed. *)
Lemma ranking_ignores_input_order_witness :
  let a := mkCandidateIn (Some "c1") "short" in
  let b := mkCandidateIn (Some "c2")
             "one two three four five six seven eight nine ten eleven." in
  let post := fun _ : Request => Raise (TransportError "unused") in
  Permutation [a; b] [b; a]
  /\ all_complete [0; 1]%nat 2 /\ all_complete [1; 0]%nat 2
  /\ exists out,
       rank_candidates fallback_settings post [0; 1]%nat (mkRankRequest [a; b])
       = Return (mkRankResponse out)
       /\ NoDup (List.map rank_key out)
       /\ rank_candidates fallback_settings post [1; 0]%nat (mkRankRequest [b; a])
          = Return (mkRankResponse out).
Proof.
  intros a b post.
  assert (Hp : Permutation (candidates (mkRankRequest [a; b]))
                 (candidates (mkRankRequest [b; a]))) by apply perm_swap.
  assert (H1 : all_complete [0; 1]%nat
                 (List.length (candidates (mkRankRequest [a; b])))).
  { intros i Hi. simpl in *. lia. }
  assert (H2 : all_complete [1; 0]%nat
                 (List.length (candidates (mkRankRequest [b; a])))).
  { intros i Hi. simpl in *. lia. }
  split; [exact Hp|]. split; [exact H1|]. split; [exact H2|].
  destruct (rank_candidates fallback_settings post [0; 1]%nat
              (mkRankRequest [a; b])) as [[out]|e] eqn:E;
    [|vm_compute in E; discriminate].
  exists out. split; [reflexivity|].
  assert (Hd : NoDup (List.map rank_key out)).
  { assert (E' := E). vm_compute in E'. injection E' as <-.
    vm_compute. repeat constructor; simpl; intuition discriminate. }
  split; [exact Hd|].
  exact (ranking_ignores_input_order fallback_settings post [0; 1]%nat [1; 0]%nat
           (mkRankRequest [a; b]) (mkRankRequest [b; a]) out Hp H1 H2 E Hd).
Defined.

(** X10.  An evaluation asks the remote service at most one thing: the
    request to the chat completions address under the configured base, with
    the key as bearer credential, the configured model, and the prompt made
    from the normalised answer.  Two services that answer that request
    alike give the same evaluation. *)
Theorem one_request_decides
  (settings : Config.Settings) (post1 post2 : Request -> Exc Json.value)
  (answer txt : string)
  (Hn : normalize answer = Return txt)
  (Hsame :
     post1 (mkRequest
              (Config.OPENAI_API_BASE settings ++ "/chat/completions")%string
              ("Bearer " ++ Config.OPENAI_API_KEY settings)%string
              (Config.OPENAI_MODEL settings)
              (format_prompt txt))
     = post2 (mkRequest
                (Config.OPENAI_API_BASE settings ++ "/chat/completions")%string
                ("Bearer " ++ Config.OPENAI_API_KEY settings)%string
                (Config.OPENAI_MODEL settings)
                (format_prompt txt))) :
  evaluate_text settings post1 answer = evaluate_text settings post2 answer.
Proof.
  unfold evaluate_text. rewrite Hn. cbn [bind].
  destruct (Config.USE_FALLBACK settings); [reflexivity|].
  unfold call_openai_chat, chat_completion.
  destruct (negb (Py.truthy (Config.OPENAI_API_KEY settings))); [reflexivity|].
  rewrite Hsame. reflexivity.
Qed.

(** X10 at two services that differ only on requests with an empty
    prompt. *)
Lemma one_request_decides_witness :
  let reply := chat_reply (dq "{'score': 4}") in
  let post1 := fun _ : Request => Return reply in
  let post2 := fun req : Request =>
    if String.eqb (content req) "" then Raise (TransportError "empty")
    else Return reply in
  normalize "use a queue" = Return "use a queue"
  /\ post1 (mkRequest
              (Config.OPENAI_API_BASE remote_settings ++ "/chat/completions")%string
              ("Bearer " ++ Config.OPENAI_API_KEY remote_settings)%string
              (Config.OPENAI_MODEL remote_settings)
              (format_prompt "use a queue"))
     = post2 (mkRequest
                (Config.OPENAI_API_BASE remote_settings ++ "/chat/completions")%string
                ("Bearer " ++ Config.OPENAI_API_KEY remote_settings)%string
                (Config.OPENAI_MODEL remote_settings)
                (format_prompt "use a queue"))
  /\ evaluate_text remote_settings post1 "use a queue"
     = evaluate_text remote_settings post2 "use a queue".
Proof.
  intros reply post1 post2.
  assert (Hn : normalize "use a queue" = Return "use a queue") by reflexivity.
  assert (Hs : post1 (mkRequest
                 (Config.OPENAI_API_BASE remote_settings ++ "/chat/completions")%string
                 ("Bearer " ++ Config.OPENAI_API_KEY remote_settings)%string
                 (Config.OPENAI_MODEL remote_settings)
                 (format_prompt "use a queue"))
               = post2 (mkRequest
                   (Config.OPENAI_API_BASE remote_settings ++ "/chat/completions")%string
                   ("Bearer " ++ Config.OPENAI_API_KEY remote_settings)%string
                   (Config.OPENAI_MODEL remote_settings)
                   (format_prompt "use a queue"))) by reflexivity.
  split; [exact Hn|]. split; [exact Hs|].
  exact (one_request_decides remote_settings post1 post2
           "use a queue" "use a queue" Hn Hs).
Defined.

(* ===================================================================== *)
(** * The heuristic scorer as a function of the words *)
(* ===================================================================== *)

Lemma split_from_blank (ws : string) :
  blank ws = true ->
  forall acc, Py.split_from acc ws = if Py.truthy acc then [acc] else [].
Proof.
  induction ws as [|c ws IH]; intros H acc; simpl; [reflexivity|].
  simpl in H. apply andb_prop in H. destruct H as [Hc Hws].
  rewrite Hc, (IH Hws ""). simpl. apply app_nil_r.
Qed.

Lemma split_from_blank_tail (t ws : string) :
  blank ws = true ->
  forall acc, Py.split_from acc (t ++ ws) = Py.split_from acc t.
Proof.
  intros H. induction t as [|c t IH]; intros acc; simpl.
  - now apply split_from_blank.
  - destruct (Py.isspace c); now rewrite IH.
Qed.

Lemma rstrip_cut (s : string) :
  exists ws, blank ws = true /\ s = (Py.rstrip s ++ ws)%string.
Proof.
  induction s as [|c s (ws & Hb & Hs)]; [exists ""; split; reflexivity|].
  cbn [Py.rstrip]. destruct (Py.rstrip s) as [|d r] eqn:E.
  - simpl in Hs. subst ws. destruct (Py.isspace c) eqn:Hc.
    + exists (String c s). split; [simpl; now rewrite Hc | reflexivity].
    + exists s. split; [exact Hb | reflexivity].
  - exists ws. split; [exact Hb|]. simpl. now rewrite Hs at 1.
Qed.

Lemma split_rstrip (s : string) : Py.split (Py.rstrip s) = Py.split s.
Proof.
  destruct (rstrip_cut s) as (ws & Hb & Hs). unfold Py.split.
  rewrite Hs at 2. symmetry. now apply split_from_blank_tail.
Qed.

Lemma split_lstrip (s : string) : Py.split (Py.lstrip s) = Py.split s.
Proof.
  unfold Py.split. induction s as [|c s IH]; simpl; [reflexivity|].
  destruct (Py.isspace c) eqn:Hc; [exact IH | simpl; now rewrite Hc].
Qed.

Lemma split_strip (s : string) : Py.split (Py.strip s) = Py.split s.
Proof. unfold Py.strip. now rewrite split_rstrip, split_lstrip. Qed.

Lemma split_from_nil (s : string) :
  forall acc, Py.split_from acc s = [] -> acc = "" /\ blank s = true.
Proof.
  induction s as [|c s IH]; intros acc; simpl.
  - destruct acc; [auto | discriminate].
  - destruct (Py.isspace c).
    + intros H. apply app_eq_nil in H. destruct H as [Ha Hs].
      destruct acc; [|discriminate]. split; [reflexivity|].
      now apply IH in Hs.
    + intros H. apply IH in H. destruct H as [H _]. destruct acc; discriminate.
Qed.

Lemma split_nil_blank (s : string) : Py.split s = [] <-> blank s = true.
Proof.
  split.
  - intros H. now apply split_from_nil in H.
  - intros H. unfold Py.split. now rewrite split_from_blank.
Qed.


Lemma terminator_not_space (c : ascii) :
  Py.isspace c = true -> Re.is_terminator (Some c) = false.
Proof.
  destruct c as [b0 b1 b2 b3 b4 b5 b6 b7].
  destruct b0, b1, b2, b3, b4, b5, b6, b7; vm_compute; congruence.
Qed.

Lemma first_piece_split (s : string) :
  forall acc prev,
    (acc <> "" -> prev = last_char acc) ->
    (acc = "" -> Re.is_terminator prev = false) ->
    Py.split_from acc (Re.first_piece_from prev s)
    = sentence_words (Py.split_from acc s).
Proof.
  induction s as [|c s IH]; intros acc prev Hlast Hnone.
  - simpl. destruct acc as [|a acc]; simpl; [reflexivity|].
    match goal with |- context [if ?b then _ else _] => destruct b end;
      reflexivity.
  - cbn [Re.first_piece_from Py.split_from].
    destruct (Py.isspace c) eqn:Hc; cbn [andb].
    + destruct (Re.is_terminator prev) eqn:Ht.
      * destruct acc as [|a acc]; [discriminate (Hnone eq_refl)|].
        cbn [Py.split_from Py.truthy app sentence_words].
        rewrite <- Hlast by discriminate. now rewrite Ht.
      * cbn [Py.split_from]. rewrite Hc.
        rewrite (IH "" (Some c)); [|intros H; now elim H
                                   |intros _; now apply terminator_not_space].
        destruct acc as [|a acc]; [reflexivity|].
        cbn [Py.truthy app sentence_words].
        rewrite <- Hlast by discriminate. now rewrite Ht.
    + cbn [Py.split_from]. rewrite Hc. apply IH.
      * intros _. unfold last_char. rewrite last_or_append. reflexivity.
      * intros H. destruct acc; discriminate.
Qed.

Lemma first_sentence_words (text : string) :
  Py.split (Re.first_piece text) = sentence_words (Py.split text).
Proof. apply first_piece_split; [intros H; now elim H | reflexivity]. Qed.

Lemma space_not_word (c : ascii) : Py.isspace c = true -> Py.isword c = false.
Proof.
  destruct c as [b0 b1 b2 b3 b4 b5 b6 b7].
  destruct b0, b1, b2, b3, b4, b5, b6, b7; vm_compute; congruence.
Qed.

Lemma no_space_lower (s : string) : no_space (Py.lower s) = no_space s.
Proof.
  induction s as [|c s IH]; simpl; [reflexivity|].
  now rewrite isspace_lower_char, IH.
Qed.

Lemma last_or_default (d d' : option ascii) (s : string) :
  s <> "" -> last_or d s = last_or d' s.
Proof. destruct s; [congruence | reflexivity]. Qed.

(** Where a word of the text sits in the text. *)
Lemma split_from_member (w s : string) :
  forall acc,
    In w (Py.split_from acc s) ->
    (exists p post,
        s = (p ++ post)%string /\ w = (acc ++ p)%string
        /\ Re.isword_opt (Re.head post) = false)
    \/ (exists pre post,
           s = (pre ++ w ++ post)%string
           /\ (forall d, Re.isword_opt (last_or d pre) = false)
           /\ Re.isword_opt (Re.head post) = false).
Proof.
  induction s as [|c s IH]; intros acc H.
  - simpl in H. destruct (Py.truthy acc); [|contradiction].
    destruct H as [<- | []]. left. exists "", "".
    repeat split. now rewrite append_empty_r.
  - cbn [Py.split_from] in H. destruct (Py.isspace c) eqn:Hc.
    + apply in_app_or in H. destruct H as [H | H].
      * destruct (Py.truthy acc); [|contradiction]. destruct H as [<- | []].
        left. exists "", (String c s). repeat split.
        -- now rewrite append_empty_r.
        -- simpl. now apply space_not_word.
      * right. destruct (IH "" H) as [(p & post & Hs & Hw & Hp)
                                     | (pre & post & Hs & Hd & Hp)].
        -- simpl in Hw. subst p. exists (String c ""), post.
           split; [simpl; now rewrite Hs|]. split; [|exact Hp].
           intros d. simpl. now apply space_not_word.
        -- exists (String c pre), post.
           split; [simpl; now rewrite Hs|]. split; [|exact Hp].
           intros d. simpl. apply Hd.
    + destruct (IH _ H) as [(p & post & Hs & Hw & Hp)
                           | (pre & post & Hs & Hd & Hp)].
      * left. exists (String c p), post.
        split; [simpl; now rewrite Hs|]. split; [|exact Hp].
        rewrite Hw, append_assoc. reflexivity.
      * right. exists (String c pre), post.
        split; [simpl; now rewrite Hs|]. split; [|exact Hp].
        intros d. simpl. apply Hd.
Qed.

Lemma head_append (a b : string) :
  Re.head (a ++ b) = match a with EmptyString => Re.head b | String c _ => Some c end.
Proof. destruct a; reflexivity. Qed.

(** A hit in a word of the text is a hit in the text. *)
Lemma hit_in_word (k w text : string) :
  In w (Py.split text) -> whole_word_hit k w -> whole_word_hit k text.
Proof.
  intros Hin (b & occ & a & Hw & Hl & Hb & Ha).
  assert (Hafter : forall post, Re.isword_opt (Re.head post) = false ->
                     Re.isword_opt (Re.head (a ++ post)) = false).
  { intros post Hp. rewrite head_append. destruct a; [exact Hp | exact Ha]. }
  destruct (split_from_member w text "" Hin)
    as [(p & post & Hs & Hwp & Hp) | (pre & post & Hs & Hd & Hp)].
  - simpl in Hwp. subst p. exists b, occ, (a ++ post)%string.
    split; [|split; [exact Hl | split; [exact Hb | now apply Hafter]]].
    rewrite Hs, Hw, !append_assoc. reflexivity.
  - exists (pre ++ b)%string, occ, (a ++ post)%string.
    split; [|split; [exact Hl | split; [|now apply Hafter]]].
    + rewrite Hs, Hw, !append_assoc. reflexivity.
    + unfold last_char. rewrite last_or_append.
      destruct b as [|x b]; [apply Hd | exact Hb].
Qed.

(** The word being read ends up in the list, extended by what follows
    it up to the next whitespace. *)
Lemma split_from_current (after : string) :
  forall acc, Py.truthy acc = true ->
    exists a rest,
      after = (a ++ rest)%string /\ In (acc ++ a)%string (Py.split_from acc after).
Proof.
  induction after as [|c r IH]; intros acc Ha.
  - exists "", "". split; [reflexivity|]. simpl. rewrite Ha, append_empty_r.
    now left.
  - cbn [Py.split_from]. destruct (Py.isspace c).
    + exists "", (String c r). split; [reflexivity|].
      rewrite Ha, append_empty_r. now left.
    + destruct (IH (acc ++ String c "")%string) as (a & rest & Hr & Hin).
      { destruct acc; reflexivity. }
      exists (String c a), rest. split; [simpl; now rewrite Hr|].
      rewrite append_assoc in Hin. exact Hin.
Qed.

(** A hit in the text is a hit in one of its words. *)
Lemma hit_gives_word (k occ after : string) :
  Py.lower occ = Py.lower k -> plain_term k = true ->
  Re.isword_opt (Re.head after) = false ->
  forall before acc,
    Re.isword_opt (last_char (acc ++ before)) = false ->
    exists w, In w (Py.split_from acc (before ++ occ ++ after))
              /\ whole_word_hit k w.
Proof.
  intros Hl Hk Ha.
  unfold plain_term in Hk. apply andb_prop in Hk. destruct Hk as [Hk Hne].
  apply andb_prop in Hk. destruct Hk as [_ Hns].
  assert (Hocc : no_space occ = true).
  { rewrite <- no_space_lower, Hl, no_space_lower. exact Hns. }
  assert (Hocc' : Py.truthy occ = true).
  { destruct occ; [|reflexivity]. destruct k; discriminate. }
  induction before as [|c b IH]; intros acc Hb.
  - rewrite append_empty_r in Hb. cbn [append].
    rewrite split_from_word by exact Hocc.
    destruct (split_from_current after (acc ++ occ)%string) as (a & rest & Hr & Hin).
    { destruct acc; [exact Hocc' | reflexivity]. }
    exists ((acc ++ occ) ++ a)%string. split; [exact Hin|].
    exists acc, occ, a. split; [now rewrite append_assoc|].
    split; [exact Hl|]. split; [exact Hb|].
    destruct a as [|x a]; [reflexivity|]. rewrite Hr in Ha. exact Ha.
  - cbn [append Py.split_from]. destruct (Py.isspace c) eqn:Hc.
    + destruct (IH "") as (w & Hin & Hw).
      { cbn [append]. unfold last_char in *. rewrite last_or_append in Hb.
        destruct b as [|x b]; [reflexivity | exact Hb]. }
      exists w. split; [apply in_or_app; now right | exact Hw].
    + destruct (IH (acc ++ String c "")%string) as (w & Hin & Hw).
      { now rewrite append_assoc. }
      exists w. split; assumption.
Qed.

Lemma search_in_words (k text : string) :
  plain_term k = true ->
  Re.search_word k text = existsb (Re.search_word k) (Py.split text).
Proof.
  intros Hk.
  assert (Hw : wordlike k = true).
  { unfold plain_term in Hk. apply andb_prop in Hk. destruct Hk as [Hk _].
    now apply andb_prop in Hk. }
  apply eq_true_iff_eq. rewrite existsb_exists, (search_word_spec k text Hw).
  split.
  - intros (b & occ & a & Ht & Hl & Hb & Ha).
    destruct (hit_gives_word k occ a Hl Hk Ha b "" Hb) as (w & Hin & Hh).
    exists w. split; [unfold Py.split; now rewrite Ht|].
    now apply search_word_spec.
  - intros (w & Hin & Hs). apply (hit_in_word k w text Hin).
    now apply search_word_spec.
Qed.

Lemma key_terms_plain : forallb plain_term KEY_TERMS = true.
Proof. vm_compute. reflexivity. Qed.

Lemma keyword_count_words (text : string) :
  keyword_count text
  = List.length
      (filter (fun k => existsb (Re.search_word k) (Py.split text)) KEY_TERMS).
Proof.
  unfold keyword_count. f_equal. apply filter_ext_in. intros k Hin.
  apply search_in_words.
  pose proof key_terms_plain as H. rewrite forallb_forall in H. now apply H.
Qed.

Lemma truthy_strip_words (a : string) :
  Py.truthy (Py.strip a) = match Py.split a with [] => false | _ :: _ => true end.
Proof.
  destruct (Py.split a) as [|w ws] eqn:E.
  - apply split_nil_blank, strip_empty_blank in E. now rewrite E.
  - destruct (Py.strip a) eqn:Es; [|reflexivity].
    apply strip_empty_blank, split_nil_blank in Es. congruence.
Qed.

(** X17.  The heuristic result depends only on the words of the answer:
    two answers that split into the same whitespace-separated words, however
    they are spaced or broken into lines, get the same score, summary and
    improvement. *)
Theorem heuristic_depends_on_words (a b : string)
  (Hwords : Py.split a = Py.split b) :
  fallback_score_and_text a = fallback_score_and_text b.
Proof.
  unfold fallback_score_and_text.
  rewrite !truthy_strip_words, !keyword_count_words, !first_sentence_words,
    !split_strip, Hwords.
  reflexivity.
Qed.

(** X17 at one answer spaced in two ways, one of them with a line break. *)
Lemma heuristic_depends_on_words_witness :
  Py.split ("  use   a" ++ String "010" "queue ") = Py.split "use a queue"
  /\ fallback_score_and_text ("  use   a" ++ String "010" "queue ")
     = fallback_score_and_text "use a queue".
Proof.
  split; [reflexivity|].
  exact (heuristic_depends_on_words ("  use   a" ++ String "010" "queue ")
           "use a queue" eq_refl).
Defined.

Lemma filter_length_le {A : Type} (f g : A -> bool) (l : list A) :
  (forall x, f x = true -> g x = true) ->
  (List.length (filter f l) <= List.length (filter g l))%nat.
Proof.
  intros H. induction l as [|x l IH]; simpl; [lia|].
  destruct (f x) eqn:Hf.
  - rewrite (H x Hf). simpl. lia.
  - destruct (g x); simpl; lia.
Qed.

(** X18.  Adding text never lowers the heuristic score: an answer followed
    by a whitespace character and any further text scores at least as high
    as the answer alone. *)
Theorem more_text_never_scores_lower (a more : string) (c : ascii)
  (Hc : Py.isspace c = true) :
  (score (fallback_score_and_text a)
   <= score (fallback_score_and_text (a ++ String c more)))%Z.
Proof.
  assert (Hsplit : Py.split (a ++ String c more) = Py.split a ++ Py.split more).
  { unfold Py.split. now apply split_from_app_space. }
  destruct (string_dec (Py.strip a) "") as [Ea | Ea].
  - rewrite (fallback_blank a Ea). simpl. apply fallback_score_range.
  - destruct (string_dec (Py.strip (a ++ String c more)) "") as [Eb | Eb].
    + apply strip_empty_blank, split_nil_blank in Eb.
      rewrite Hsplit in Eb. apply app_eq_nil in Eb. destruct Eb as [Eb _].
      apply split_nil_blank, strip_empty_blank in Eb. contradiction.
    + rewrite !fallback_score_value by assumption.
      apply threshold_score_monotone.
      * rewrite !split_strip, Hsplit, length_app. lia.
      * rewrite !keyword_count_words, !split_strip, Hsplit.
        apply filter_length_le. intros k Hk.
        rewrite existsb_app, Hk. reflexivity.
Qed.

(** X18 at an answer continued after a space. *)
Lemma more_text_never_scores_lower_witness :
  Py.isspace " " = true
  /\ (score (fallback_score_and_text "test the design")
      <= score (fallback_score_and_text
                  ("test the design" ++ String " " "first, then optimize")))%Z.
Proof.
  split; [reflexivity|].
  exact (more_text_never_scores_lower "test the design" "first, then optimize"
           " "%char eq_refl).
Defined.

(** X19.  On the remote path (flag off, key present), when the service
    answers the request with a response object, whatever its other
    members, whose list of choices starts with an object that has a message
    object with a text as content, [evaluate_text] returns what
    [parse_model_json] makes of that text, and the heuristic result of the
    normalised answer when the parser raises. *)
Theorem standard_reply_is_parsed
  (settings : Config.Settings) (post : Request -> Exc Json.value)
  (answer txt text : string)
  (body choice message : list (string * Json.value)) (others : list Json.value)
  (Hflag : Config.USE_FALLBACK settings = false)
  (Hkey : Config.OPENAI_API_KEY settings <> "")
  (Hn : normalize answer = Return txt)
  (Hpost : post (mkRequest
                   (Config.OPENAI_API_BASE settings ++ "/chat/completions")%string
                   ("Bearer " ++ Config.OPENAI_API_KEY settings)%string
                   (Config.OPENAI_MODEL settings)
                   (format_prompt txt))
           = Return (Json.Obj body))
  (Hchoices : Dyn.has_key body "choices" = true)
  (Hfirst : Json.dict_get body "choices" Json.Null
            = Json.Arr (Json.Obj choice :: others))
  (Hmessage : Dyn.has_key choice "message" = true)
  (Hobject : Json.dict_get choice "message" Json.Null = Json.Obj message)
  (Hcontent : Dyn.has_key message "content" = true)
  (Htext : Json.dict_get message "content" Json.Null = Json.Str text) :
  evaluate_text settings post answer
  = match parse_model_json (Json.Str text) with
    | Return r => Return r
    | Raise _ => Return (fallback_score_and_text txt)
    end.
Proof.
  assert (Hcall : call_openai_chat settings post (format_prompt txt)
                  = Return (Json.Str text)).
  { unfold call_openai_chat, chat_completion.
    destruct (Config.OPENAI_API_KEY settings) eqn:Ek; [now elim Hkey|].
    cbn [Py.truthy negb]. rewrite Hpost.
    cbn [bind Dyn.contains Dyn.getitem]. rewrite Hchoices. cbn [bind].
    rewrite Hfirst. cbn [bind Dyn.len Dyn.getitem0 List.length].
    replace (0 <? Z.of_nat (S (List.length others)))%Z with true
      by (symmetry; apply Z.ltb_lt; lia).
    cbn [bind Dyn.contains Dyn.getitem]. rewrite Hmessage. cbn [bind].
    rewrite Hobject. cbn [bind Dyn.contains Dyn.getitem].
    rewrite Hcontent, Htext. reflexivity. }
  unfold evaluate_text. rewrite Hn. cbn [bind]. rewrite Hflag, Hcall.
  cbn [bind try_except].
  destruct (parse_model_json (Json.Str text)); reflexivity.
Qed.

(** X19 at a response with the members that the service sends in
    practice, whose completion has a score out of range and a padded
    summary. *)
Lemma standard_reply_is_parsed_witness :
  let text := dq "Result: {'score': 9, 'summary': ' Fine. '}" in
  let post := fun _ : Request => Return (full_reply text) in
  Config.USE_FALLBACK remote_settings = false
  /\ Config.OPENAI_API_KEY remote_settings <> ""
  /\ normalize "Candidate says: use a queue" = Return "use a queue"
  /\ post (mkRequest
             (Config.OPENAI_API_BASE remote_settings ++ "/chat/completions")%string
             ("Bearer " ++ Config.OPENAI_API_KEY remote_settings)%string
             (Config.OPENAI_MODEL remote_settings)
             (format_prompt "use a queue"))
     = Return (full_reply text)
  /\ evaluate_text remote_settings post "Candidate says: use a queue"
     = Return (mkResult 5 "Fine." "").
Proof.
  intros text post.
  assert (Hflag : Config.USE_FALLBACK remote_settings = false) by reflexivity.
  assert (Hkey : Config.OPENAI_API_KEY remote_settings <> "")
    by (vm_compute; discriminate).
  assert (Hn : normalize "Candidate says: use a queue" = Return "use a queue")
    by reflexivity.
  assert (Hpost : post (mkRequest
                    (Config.OPENAI_API_BASE remote_settings ++ "/chat/completions")%string
                    ("Bearer " ++ Config.OPENAI_API_KEY remote_settings)%string
                    (Config.OPENAI_MODEL remote_settings)
                    (format_prompt "use a queue"))
                  = Return (full_reply text)) by reflexivity.
  split; [exact Hflag|]. split; [exact Hkey|]. split; [exact Hn|].
  split; [exact Hpost|].
  rewrite (standard_reply_is_parsed remote_settings post
             "Candidate says: use a queue" "use a queue" text
             _ _ _ _ Hflag Hkey Hn Hpost eq_refl eq_refl eq_refl eq_refl
             eq_refl eq_refl).
  vm_compute. reflexivity.
Defined.

(* ===================================================================== *)
(** * Replies of the remote service, end to end *)
(* ===================================================================== *)

Lemma dumps_object_span (body : list (string * Json.value)) :
  brace_span (Dyn.dumps (Json.Obj body)) (Dyn.dumps (Json.Obj body)).
Proof.
  cbn [Dyn.dumps].
  exists "", (Py.join ", "
                (List.map (fun kv => (Dyn.dumps_str (fst kv) ++ ": "
                                      ++ Dyn.dumps (snd kv))%string) body)), "".
  repeat split.
Qed.

(** X20.  On the remote path, when the service answers with an object that
    has no choices (or an empty list of them), the object itself is parsed
    as if it were the model output: provided its serialisation by
    [json.dumps] decodes to an object with members [members], the result
    has the score, summary and improvement of those members, with the
    defaults of the parser.  An object without these three members, such as
    an error report, therefore yields score 1 with an empty summary and an
    empty improvement, and not the heuristic result. *)
Theorem reply_without_choices_is_parsed
  (settings : Config.Settings) (post : Request -> Exc Json.value)
  (answer txt : string) (body members : list (string * Json.value))
  (Hflag : Config.USE_FALLBACK settings = false)
  (Hkey : Config.OPENAI_API_KEY settings <> "")
  (Hn : normalize answer = Return txt)
  (Hpost : post (mkRequest
                   (Config.OPENAI_API_BASE settings ++ "/chat/completions")%string
                   ("Bearer " ++ Config.OPENAI_API_KEY settings)%string
                   (Config.OPENAI_MODEL settings)
                   (format_prompt txt))
           = Return (Json.Obj body))
  (Hnone : Dyn.has_key body "choices" = false
           \/ Json.dict_get body "choices" Json.Null = Json.Arr [])
  (Hround : Json.loads (Dyn.dumps (Json.Obj body)) = Return (Json.Obj members)) :
  evaluate_text settings post answer
  = match Conv.py_int (Json.dict_get members "score" (Json.Int 1)) with
    | Return n =>
        Return (mkResult (clamp n)
                  (Py.strip (Conv.py_str
                               (Json.dict_get members "summary" (Json.Str ""))))
                  (Py.strip (Conv.py_str
                               (Json.dict_get members "improvement" (Json.Str "")))))
    | Raise _ => Return (fallback_score_and_text txt)
    end
  /\ (Dyn.has_key members "score" = false ->
      Dyn.has_key members "summary" = false ->
      Dyn.has_key members "improvement" = false ->
      evaluate_text settings post answer = Return (mkResult 1 "" "")).
Proof.
  assert (Hcall : call_openai_chat settings post (format_prompt txt)
                  = Return (Json.Str (Dyn.dumps (Json.Obj body)))).
  { unfold call_openai_chat, chat_completion.
    destruct (Config.OPENAI_API_KEY settings) eqn:Ek; [now elim Hkey|].
    cbn [Py.truthy negb]. rewrite Hpost. cbn [bind Dyn.contains].
    destruct (Dyn.has_key body "choices") eqn:Hc; [|reflexivity].
    destruct Hnone as [H | H]; [discriminate|]. cbn [bind Dyn.getitem].
    rewrite Hc, H. reflexivity. }
  assert (Hparse : parse_model_json (Json.Str (Dyn.dumps (Json.Obj body)))
                   = n <- Conv.py_int (Json.dict_get members "score" (Json.Int 1)) ;;
                     Return (mkResult (clamp n)
                       (Py.strip (Conv.py_str
                                    (Json.dict_get members "summary" (Json.Str ""))))
                       (Py.strip (Conv.py_str
                                    (Json.dict_get members "improvement"
                                       (Json.Str "")))))).
  { pose proof (dumps_object_span body) as Hs.
    rewrite (parse_model_text_on_span _ _ Hs), parse_model_text_unfold.
    destruct (brace_span_found _ _ Hs) as [-> ->]. rewrite Hround. reflexivity. }
  assert (E : evaluate_text settings post answer
              = match Conv.py_int (Json.dict_get members "score" (Json.Int 1)) with
                | Return n =>
                    Return (mkResult (clamp n)
                      (Py.strip (Conv.py_str
                                   (Json.dict_get members "summary" (Json.Str ""))))
                      (Py.strip (Conv.py_str
                                   (Json.dict_get members "improvement"
                                      (Json.Str "")))))
                | Raise _ => Return (fallback_score_and_text txt)
                end).
  { unfold evaluate_text. rewrite Hn. cbn [bind]. rewrite Hflag, Hcall.
    cbn [bind try_except]. rewrite Hparse.
    destruct (Conv.py_int _); reflexivity. }
  split; [exact E|].
  intros H1 H2 H3. rewrite E, !dict_get_missing by assumption. reflexivity.
Qed.

(** X20 at a response that only reports an error. *)
Lemma reply_without_choices_is_parsed_witness :
  let body := [("error", Json.Str "overloaded")] in
  let post := fun _ : Request => Return (Json.Obj body) in
  Config.USE_FALLBACK remote_settings = false
  /\ Config.OPENAI_API_KEY remote_settings <> ""
  /\ normalize "use a queue" = Return "use a queue"
  /\ post (mkRequest
             (Config.OPENAI_API_BASE remote_settings ++ "/chat/completions")%string
             ("Bearer " ++ Config.OPENAI_API_KEY remote_settings)%string
             (Config.OPENAI_MODEL remote_settings)
             (format_prompt "use a queue"))
     = Return (Json.Obj body)
  /\ (Dyn.has_key body "choices" = false
      \/ Json.dict_get body "choices" Json.Null = Json.Arr [])
  /\ Json.loads (Dyn.dumps (Json.Obj body)) = Return (Json.Obj body)
  /\ evaluate_text remote_settings post "use a queue" = Return (mkResult 1 "" "").
Proof.
  intros body post.
  assert (Hflag : Config.USE_FALLBACK remote_settings = false) by reflexivity.
  assert (Hkey : Config.OPENAI_API_KEY remote_settings <> "")
    by (vm_compute; discriminate).
  assert (Hn : normalize "use a queue" = Return "use a queue") by reflexivity.
  assert (Hpost : post (mkRequest
                    (Config.OPENAI_API_BASE remote_settings ++ "/chat/completions")%string
                    ("Bearer " ++ Config.OPENAI_API_KEY remote_settings)%string
                    (Config.OPENAI_MODEL remote_settings)
                    (format_prompt "use a queue"))
                  = Return (Json.Obj body)) by reflexivity.
  assert (Hnone : Dyn.has_key body "choices" = false
                  \/ Json.dict_get body "choices" Json.Null = Json.Arr [])
    by (left; reflexivity).
  assert (Hround : Json.loads (Dyn.dumps (Json.Obj body)) = Return (Json.Obj body))
    by (vm_compute; reflexivity).
  split; [exact Hflag|]. split; [exact Hkey|]. split; [exact Hn|].
  split; [exact Hpost|]. split; [exact Hnone|]. split; [exact Hround|].
  exact (proj2 (reply_without_choices_is_parsed remote_settings post
                  "use a queue" "use a queue" body body
                  Hflag Hkey Hn Hpost Hnone Hround)
           eq_refl eq_refl eq_refl).
Defined.
